(** * Chronos timetable routes: schedule resolution and override model

    A shallow embedding of the route handlers of

      - [routes/timetable/movedLesson/index.ts]
      - [routes/timetable/substitution/index.ts]
      - [routes/timetable/lesson/index.ts]
      - the timetable version handlers ([getLatestValidTimetable])

    The handlers are asynchronous functions over a relational store reached
    through a query builder.  Here the store is a record of tables (lists of
    rows, in table order), every awaited query is one storage call that may
    fail, exceptions are explicit, and [db.transaction] rolls the tables back
    when its body throws.  A handler is the function given to
    [createHandlers]; the authentication and authorization middleware that
    runs before it, the logger and the status of a successful reply are left
    out. *)

From stdpp Require Import base list strings gmap option numbers sorting pretty.

Local Open Scope string_scope.
Local Open Scope Z_scope.

(** ** Identifiers and calendar dates *)

(** Every identifier column is [text]. *)
Definition Id : Type := string.

(** A value of a [date] column: a calendar day, counted in days since
    1970-01-01.  The order of day numbers is the order of the calendar, which
    is how the store compares [date] values ([gte]). *)
Definition Day : Type := Z.

(** ** Rows of the schema (the columns the handlers use) *)

Record SubjectRow := { subject_id : Id; subject_name : string; subject_short : string }.
Record TeacherRow := {
  teacher_id : Id; teacher_firstName : string; teacher_lastName : string;
  teacher_short : string }.
Record ClassroomRow := { classroom_id : Id; classroom_name : string; classroom_short : string }.
Record PeriodRow := {
  period_id : Id; period_startTime : string; period_endTime : string;
  period_period : Z }.
Record DayDefinitionRow := { day_id : Id; day_name : string; day_short : string }.
Record CohortRow := { cohort_id : Id; cohort_name : string }.

Record LessonRow := {
  lesson_id : Id;
  lesson_subjectId : Id;
  lesson_dayDefinitionId : Id;
  lesson_periodId : Id;
  lesson_teacherIds : option (list Id);     (* array column, may be NULL *)
  lesson_classroomIds : option (list Id);   (* array column, may be NULL *)
  lesson_weeksDefinitionId : Id;
  lesson_termDefinitionId : Id;
  lesson_periodsPerWeek : Z }.

Record LessonCohortRow := { lc_lessonId : Id; lc_cohortId : Id }.

Record MovedLessonRow := {
  ml_id : Id;
  ml_date : Day;
  ml_startingPeriod : option Id;
  ml_startingDay : option Id;
  ml_room : option Id }.

Record MovedLessonLessonRow := { mlm_lessonId : Id; mlm_movedLessonId : Id }.

Record SubstitutionRow := {
  sub_id : Id;
  sub_date : Day;
  sub_substituter : option Id }.

Record SubstitutionLessonRow := { slm_lessonId : Id; slm_substitutionId : Id }.

Record TimetableRow := { timetable_id : Id; timetable_name : string; timetable_validFrom : Day }.

Global Instance SubjectRow_eq_dec : EqDecision SubjectRow.
Proof. solve_decision. Defined.
Global Instance TeacherRow_eq_dec : EqDecision TeacherRow.
Proof. solve_decision. Defined.
Global Instance ClassroomRow_eq_dec : EqDecision ClassroomRow.
Proof. solve_decision. Defined.
Global Instance PeriodRow_eq_dec : EqDecision PeriodRow.
Proof. solve_decision. Defined.
Global Instance DayDefinitionRow_eq_dec : EqDecision DayDefinitionRow.
Proof. solve_decision. Defined.
Global Instance CohortRow_eq_dec : EqDecision CohortRow.
Proof. solve_decision. Defined.
Global Instance LessonRow_eq_dec : EqDecision LessonRow.
Proof. solve_decision. Defined.
Global Instance LessonCohortRow_eq_dec : EqDecision LessonCohortRow.
Proof. solve_decision. Defined.
Global Instance MovedLessonRow_eq_dec : EqDecision MovedLessonRow.
Proof. solve_decision. Defined.
Global Instance MovedLessonLessonRow_eq_dec : EqDecision MovedLessonLessonRow.
Proof. solve_decision. Defined.
Global Instance SubstitutionRow_eq_dec : EqDecision SubstitutionRow.
Proof. solve_decision. Defined.
Global Instance SubstitutionLessonRow_eq_dec : EqDecision SubstitutionLessonRow.
Proof. solve_decision. Defined.
Global Instance TimetableRow_eq_dec : EqDecision TimetableRow.
Proof. solve_decision. Defined.

(** ** The store: one list of rows per table of [~/database/schema/timetable] *)

Record DB := {
  subject : list SubjectRow;
  teacher : list TeacherRow;
  classroom : list ClassroomRow;
  period : list PeriodRow;
  dayDefinition : list DayDefinitionRow;
  cohort : list CohortRow;
  lesson : list LessonRow;
  lessonCohortMTM : list LessonCohortRow;
  movedLesson : list MovedLessonRow;
  movedLessonLessonMTM : list MovedLessonLessonRow;
  substitution : list SubstitutionRow;
  substitutionLessonMTM : list SubstitutionLessonRow;
  timetable : list TimetableRow }.

Global Instance DB_eq_dec : EqDecision DB.
Proof. solve_decision. Defined.

(** The four tables the override handlers write. *)
Definition with_movedLesson (t : list MovedLessonRow) (db : DB) : DB :=
  {| subject := subject db; teacher := teacher db; classroom := classroom db;
     period := period db; dayDefinition := dayDefinition db; cohort := cohort db;
     lesson := lesson db; lessonCohortMTM := lessonCohortMTM db;
     movedLesson := t; movedLessonLessonMTM := movedLessonLessonMTM db;
     substitution := substitution db;
     substitutionLessonMTM := substitutionLessonMTM db; timetable := timetable db |}.

Definition with_movedLessonLessonMTM (t : list MovedLessonLessonRow) (db : DB) : DB :=
  {| subject := subject db; teacher := teacher db; classroom := classroom db;
     period := period db; dayDefinition := dayDefinition db; cohort := cohort db;
     lesson := lesson db; lessonCohortMTM := lessonCohortMTM db;
     movedLesson := movedLesson db; movedLessonLessonMTM := t;
     substitution := substitution db;
     substitutionLessonMTM := substitutionLessonMTM db; timetable := timetable db |}.

Definition with_substitution (t : list SubstitutionRow) (db : DB) : DB :=
  {| subject := subject db; teacher := teacher db; classroom := classroom db;
     period := period db; dayDefinition := dayDefinition db; cohort := cohort db;
     lesson := lesson db; lessonCohortMTM := lessonCohortMTM db;
     movedLesson := movedLesson db; movedLessonLessonMTM := movedLessonLessonMTM db;
     substitution := t;
     substitutionLessonMTM := substitutionLessonMTM db; timetable := timetable db |}.

Definition with_substitutionLessonMTM (t : list SubstitutionLessonRow) (db : DB) : DB :=
  {| subject := subject db; teacher := teacher db; classroom := classroom db;
     period := period db; dayDefinition := dayDefinition db; cohort := cohort db;
     lesson := lesson db; lessonCohortMTM := lessonCohortMTM db;
     movedLesson := movedLesson db; movedLessonLessonMTM := movedLessonLessonMTM db;
     substitution := substitution db;
     substitutionLessonMTM := t; timetable := timetable db |}.

(** Primary keys: the [id] column of every entity table identifies its row. *)
Definition primary_keys (db : DB) : Prop :=
  NoDup (subject_id <$> subject db) ∧
  NoDup (teacher_id <$> teacher db) ∧
  NoDup (classroom_id <$> classroom db) ∧
  NoDup (period_id <$> period db) ∧
  NoDup (day_id <$> dayDefinition db) ∧
  NoDup (lesson_id <$> lesson db) ∧
  NoDup (ml_id <$> movedLesson db) ∧
  NoDup (sub_id <$> substitution db).

Global Instance primary_keys_dec db : Decision (primary_keys db).
Proof. unfold primary_keys. apply _. Defined.

(** ** Exceptions, the world a handler runs in, and the handler monad *)

Inductive StatusCode := BAD_REQUEST | NOT_FOUND | INTERNAL_SERVER_ERROR.

Global Instance StatusCode_eq_dec : EqDecision StatusCode.
Proof. solve_decision. Defined.

(** What a handler can throw: an [HTTPException] carrying its status, or any
    other [Error] (the query builder's own errors and storage failures). *)
Inductive Exn :=
| HTTPException (status : StatusCode) (message : string)
| Error (message : string).

Global Instance Exn_eq_dec : EqDecision Exn.
Proof. solve_decision. Defined.

(** The world: the tables; for each coming storage call, whether the storage
    layer fails it (a lost connection, a constraint the store enforces, ...);
    the values [crypto.randomUUID()] is going to return; the clock
    ([new Date()], milliseconds since the epoch) and the offset of the
    server's time zone (minutes east of UTC). *)
Record World := {
  store : DB;
  faults : list bool;
  uuids : list Id;
  clock : Z;
  tz_offset : Z }.

Definition with_store (db : DB) (w : World) : World :=
  {| store := db; faults := faults w; uuids := uuids w; clock := clock w;
     tz_offset := tz_offset w |}.
Definition with_faults (fs : list bool) (w : World) : World :=
  {| store := store w; faults := fs; uuids := uuids w; clock := clock w;
     tz_offset := tz_offset w |}.
Definition with_uuids (us : list Id) (w : World) : World :=
  {| store := store w; faults := faults w; uuids := us; clock := clock w;
     tz_offset := tz_offset w |}.

Definition M (A : Type) : Type := World → (Exn + A) * World.

Global Instance M_ret : MRet M := λ A a w, (inr a, w).
Global Instance M_bind : MBind M := λ A B f m w,
  match m w with
  | (inr a, w') => f a w'
  | (inl e, w') => (inl e, w')
  end.

Definition throw {A} (e : Exn) : M A := λ w, (inl e, w).

(** [if (b) { throw e; }] *)
Definition throw_if (b : bool) (e : Exn) : M unit := if b then throw e else mret ().

(** [try { body } catch (error) { handler error }] *)
Definition try_catch {A} (body : M A) (handler : Exn → M A) : M A := λ w,
  match body w with
  | (inr a, w') => (inr a, w')
  | (inl e, w') => handler e w'
  end.

(** The [catch] block of the handlers: whatever was thrown is logged and
    replaced by an [HTTPException] with status 500 and the handler's own
    message. *)
Definition internal {A} (message : string) : Exn → M A :=
  λ _, throw (HTTPException INTERNAL_SERVER_ERROR message).

(** One awaited storage call.  A failed call throws and changes no table. *)
Definition query {A} (q : DB → A * DB) : M A := λ w,
  match faults w with
  | true :: fs => (inl (Error "storage failure"), with_faults fs w)
  | false :: fs => let '(a, db) := q (store w) in (inr a, with_store db (with_faults fs w))
  | [] => let '(a, db) := q (store w) in (inr a, with_store db w)
  end.

(** A read-only storage call. *)
Definition select {A} (q : DB → A) : M A := query (λ db, (q db, db)).

(** [db.transaction(async (tx) => body)]: commit when the body returns, roll
    the tables back to their state at the start when it throws, and rethrow. *)
Definition transaction {A} (body : M A) : M A := λ w,
  match body w with
  | (inr a, w') => (inr a, w')
  | (inl e, w') => (inl e, with_store (store w) w')
  end.

(** A storage call the store itself refuses (a value it cannot take). *)
Definition rejected {A} (message : string) : M A := λ w,
  (inl (Error message), with_faults (tail (faults w)) w).

(** [.values(rows)] of the query builder throws before anything is sent when
    [rows] is empty; otherwise the insert is one storage call. *)
Definition insert_values {R} (rows : list R) (ins : list R → DB → DB) : M unit :=
  match rows with
  | [] => throw (Error "values() must be called with at least one value")
  | _ => query (λ db, ((), ins rows db))
  end.

(** [crypto.randomUUID()] *)
Definition randomUUID : M Id := λ w,
  match uuids w with
  | u :: us => (inr u, with_uuids us w)
  | [] => (inr "", w)
  end.

(** [new Date()] *)
Definition newDate : M Z := λ w, (inr (clock w), w).
Definition timeZone : M Z := λ w, (inr (tz_offset w), w).

(** What the caller observes.  The framework answers an uncaught
    [HTTPException] with its status and any other uncaught error with 500. *)
Inductive Reply (D : Type) :=
| Success (data : D)
| Failure (status : StatusCode) (message : string).
Arguments Success {D} data.
Arguments Failure {D} status message.

Definition serve {D} (handler : M D) (w : World) : Reply D * World :=
  match handler w with
  | (inr d, w') => (Success d, w')
  | (inl (HTTPException st msg), w') => (Failure st msg, w')
  | (inl (Error _), w') => (Failure INTERNAL_SERVER_ERROR "Internal Server Error", w')
  end.

(** ** Relational operators of the query builder *)

(** [Array.from(new Set(xs))] and [DISTINCT]: each value once, at its first
    occurrence. *)
Fixpoint dedupe `{EqDecision A} (l : list A) : list A :=
  match l with
  | [] => []
  | x :: l' => x :: filter (λ y, y ≠ x) (dedupe l')
  end.

(** [.leftJoin(t, on)]: every left row paired with each matching row of [t],
    or once with NULL when none matches. *)
Definition leftJoin {A B} (on : A → B → Prop) `{!∀ a b, Decision (on a b)}
    (l : list A) (t : list B) : list (A * option B) :=
  l ≫= λ a,
    match filter (on a) t with
    | [] => [(a, None)]
    | bs => (λ b, (a, Some b)) <$> bs
    end.

(** [.groupBy(key)]: one group per distinct key, holding the rows with that
    key (NULLs of a key column group together).  The queries have no
    [ORDER BY], so the database is free in the order of the groups; the
    groups come here in the order of the first row of each. *)
Definition groupBy `{EqDecision K} {R} (key : R → K) (rows : list R) : list (K * list R) :=
  (λ k, (k, filter (λ r, key r = k) rows)) <$> dedupe (key <$> rows).

(** [inArray(column, ids)]; an empty list matches no row. *)
Definition inArray (x : Id) (ids : list Id) : Prop := x ∈ ids.
Global Instance inArray_dec x ids : Decision (inArray x ids).
Proof. unfold inArray. apply _. Defined.

(** [db.$count(lesson, inArray(lesson.id, ids))] *)
Definition count_lessons (ids : list Id) (db : DB) : nat :=
  length (filter (λ l, inArray (lesson_id l) ids) (lesson db)).

(** ** Request bodies *)

(** An entry of a JSON array: a string, or something else. *)
Inductive JSEntry :=
| EString (s : string)
| EOther.

(** A field of a parsed JSON body whose type the handler does not know
    ([unknown]). *)
Inductive JSValue :=
| JSUndefined
| JSNull
| JSString (s : string)
| JSOther                       (* a number, a boolean or an object *)
| JSArray (entries : list JSEntry).

(** The [date] field, by what its text denotes: absent, text that is no
    calendar date (JavaScript's [Date] and the store both reject it), or the
    text of a calendar day. *)
Inductive DateField :=
| NoDate
| BadDate (text : string)
| DateOn (d : Day).

(** JavaScript truthiness of the fields the handlers test. *)
Definition truthy_string (s : string) : bool := negb (bool_decide (s = "")).

Definition truthy_date (d : DateField) : bool :=
  match d with
  | NoDate => false
  | BadDate s => truthy_string s
  | DateOn _ => true
  end.

(** ** Clock arithmetic of JavaScript's [Date] *)

Definition MS_PER_DAY : Z := 86400000.
Definition MS_PER_MINUTE : Z := 60000.

(** [d.toISOString().slice(0, 10)] and [d.toISOString().split('T')[0]]:
    the calendar day of the instant [t] in UTC. *)
Definition toISODate (t : Z) : Day := t `div` MS_PER_DAY.

(** [d.toLocaleDateString('en-CA', ...)]: the calendar day of the instant
    [t] in the server's time zone. *)
Definition toLocaleDate (tz t : Z) : Day := (t + tz * MS_PER_MINUTE) `div` MS_PER_DAY.

(** [d.setHours(0, 0, 0, 0)]: the instant of local midnight of the local
    calendar day of [t]. *)
Definition setHours0 (tz t : Z) : Z := toLocaleDate tz t * MS_PER_DAY - tz * MS_PER_MINUTE.

(** * Moved lessons ([routes/timetable/movedLesson/index.ts]) *)

Module MovedLesson.

Definition ensurePeriodExists (periodId : Id) : M unit :=
  existing ← select (λ db, filter (λ p, period_id p = periodId) (period db));
  match existing with
  | [] => throw (HTTPException BAD_REQUEST "Invalid starting period provided")
  | _ => mret ()
  end.

Definition ensureDayDefinitionExists (dayId : Id) : M unit :=
  existing ← select (λ db, filter (λ d, day_id d = dayId) (dayDefinition db));
  match existing with
  | [] => throw (HTTPException BAD_REQUEST "Invalid starting day provided")
  | _ => mret ()
  end.

Definition ensureClassroomExists (classroomId : Id) : M unit :=
  existing ← select (λ db, filter (λ c, classroom_id c = classroomId) (classroom db));
  match existing with
  | [] => throw (HTTPException BAD_REQUEST "Invalid classroom provided")
  | _ => mret ()
  end.

Definition ensureLessonsExist (lessonIds : list Id) : M unit :=
  lessonRecords ← select (λ db,
    lesson_id <$> filter (λ l, inArray (lesson_id l) lessonIds) (lesson db));
  let foundLessonIds : gset Id := list_to_set lessonRecords in
  let missingLessonIds := filter (λ lessonId, lessonId ∉ foundLessonIds) lessonIds in
  match missingLessonIds with
  | [] => mret ()
  | _ => throw (HTTPException BAD_REQUEST
           ("Invalid lesson ids provided: " +:+ String.concat ", " missingLessonIds))
  end.

Definition normalizeOptionalString (value : JSValue) (label : string) : M (option string) :=
  match value with
  | JSUndefined | JSNull => mret None
  | JSString s => mret (Some s)
  | _ => throw (HTTPException BAD_REQUEST (label +:+ " must be a string"))
  end.

(** [value.map(entry => ...)]: the first entry that is no string throws. *)
Fixpoint stringEntries (entries : list JSEntry) : option (list string) :=
  match entries with
  | [] => Some []
  | EString s :: rest => (s ::.) <$> stringEntries rest
  | EOther :: _ => None
  end.

Definition normalizeOptionalStringArray (value : JSValue) (label : string)
    : M (option (list string)) :=
  match value with
  | JSUndefined | JSNull => mret None
  | JSArray entries =>
      match stringEntries entries with
      | Some l => mret (Some l)
      | None => throw (HTTPException BAD_REQUEST (label +:+ " must contain only strings"))
      end
  | _ => throw (HTTPException BAD_REQUEST (label +:+ " must be an array"))
  end.

(** The body of a create or update request. *)
Record Body := {
  startingPeriod : JSValue;
  startingDay : JSValue;
  room : JSValue;
  date : DateField;
  lessonIds : JSValue }.

Definition validateMovedLessonReferences (body : Body) : M unit :=
  normalizedStartingPeriod ← normalizeOptionalString (startingPeriod body) "Starting period";
  match normalizedStartingPeriod with
  | Some s => if truthy_string s then ensurePeriodExists s else mret ()
  | None => mret ()
  end;;
  normalizedStartingDay ← normalizeOptionalString (startingDay body) "Starting day";
  match normalizedStartingDay with
  | Some s => if truthy_string s then ensureDayDefinitionExists s else mret ()
  | None => mret ()
  end;;
  normalizedRoom ← normalizeOptionalString (room body) "Classroom";
  match normalizedRoom with
  | Some s => if truthy_string s then ensureClassroomExists s else mret ()
  | None => mret ()
  end;;
  normalizedLessonIds ← normalizeOptionalStringArray (lessonIds body) "Lesson ids";
  match normalizedLessonIds with
  | Some (x :: l) => ensureLessonsExist (x :: l)
  | _ => mret ()
  end.

(** *** Reads *)

(** A row of [movedLesson] left-joined with [period], [dayDefinition],
    [classroom] and [movedLessonLessonMTM]. *)
Definition Joined : Type :=
  MovedLessonRow * option PeriodRow * option DayDefinitionRow
  * option ClassroomRow * option MovedLessonLessonRow.

Definition j_movedLesson (r : Joined) : MovedLessonRow := r.1.1.1.1.
Definition j_period (r : Joined) : option PeriodRow := r.1.1.1.2.
Definition j_dayDefinition (r : Joined) : option DayDefinitionRow := r.1.1.2.
Definition j_classroom (r : Joined) : option ClassroomRow := r.1.2.
Definition j_mtm (r : Joined) : option MovedLessonLessonRow := r.2.

(** [eq(movedLesson.startingPeriod, period.id)] *)
Definition on_period (m : MovedLessonRow) (p : PeriodRow) : Prop :=
  ml_startingPeriod m = Some (period_id p).
(** [eq(movedLesson.startingDay, dayDefinition.id)] *)
Definition on_day (r : MovedLessonRow * option PeriodRow) (d : DayDefinitionRow) : Prop :=
  ml_startingDay r.1 = Some (day_id d).
(** [eq(movedLesson.room, classroom.id)] *)
Definition on_room (r : MovedLessonRow * option PeriodRow * option DayDefinitionRow)
    (c : ClassroomRow) : Prop :=
  ml_room r.1.1 = Some (classroom_id c).
(** [eq(movedLesson.id, movedLessonLessonMTM.movedLessonId)] *)
Definition on_mtm
    (r : MovedLessonRow * option PeriodRow * option DayDefinitionRow * option ClassroomRow)
    (x : MovedLessonLessonRow) : Prop :=
  ml_id r.1.1.1 = mlm_movedLessonId x.

Global Instance on_period_dec m p : Decision (on_period m p).
Proof. unfold on_period. apply _. Defined.
Global Instance on_day_dec r d : Decision (on_day r d).
Proof. unfold on_day. apply _. Defined.
Global Instance on_room_dec r c : Decision (on_room r c).
Proof. unfold on_room. apply _. Defined.
Global Instance on_mtm_dec r x : Decision (on_mtm r x).
Proof. unfold on_mtm. apply _. Defined.

(** [.from(movedLesson).leftJoin(period, ..).leftJoin(dayDefinition, ..)
     .leftJoin(classroom, ..).leftJoin(movedLessonLessonMTM, ..)] *)
Definition from_joined (db : DB) : list Joined :=
  leftJoin on_mtm
    (leftJoin on_room
      (leftJoin on_day
        (leftJoin on_period (movedLesson db) (period db))
        (dayDefinition db))
      (classroom db))
    (movedLessonLessonMTM db).

(** [.groupBy(movedLesson.id, period.id, dayDefinition.id, classroom.id)] *)
Definition GroupKey : Type := Id * option Id * option Id * option Id.
Definition group_key (r : Joined) : GroupKey :=
  (ml_id (j_movedLesson r), period_id <$> j_period r,
   day_id <$> j_dayDefinition r, classroom_id <$> j_classroom r).

(** One element of the [data] array of a read. *)
Record View := {
  v_classroom : option ClassroomRow;
  v_dayDefinition : option DayDefinitionRow;
  v_lessons : list Id;
  v_movedLesson : MovedLessonRow;
  v_period : option PeriodRow }.

(** [ARRAY_AGG(lessonId) FILTER (WHERE lessonId IS NOT NULL)], [COALESCE]d
    to the empty array, optionally [DISTINCT]; the ids come in the order of
    the joined rows.  Under [DISTINCT] the database returns each id once in
    an order of its own (sorted); here each id stays at its first
    occurrence, so what is stated of a [DISTINCT] aggregate is stated of
    its members, not of their order. *)
Definition array_agg (distinct : bool) (rows : list Joined) : list Id :=
  let ids := omap (λ r, mlm_lessonId <$> j_mtm r) rows in
  if distinct then dedupe ids else ids.

(** The select list, evaluated on one group. *)
Definition select_group (distinct : bool) (g : GroupKey * list Joined) : option View :=
  match g.2 with
  | [] => None
  | r :: _ =>
      Some {| v_classroom := j_classroom r;
              v_dayDefinition := j_dayDefinition r;
              v_lessons := array_agg distinct g.2;
              v_movedLesson := j_movedLesson r;
              v_period := j_period r |}
  end.

Definition allMovedLessons (db : DB) : list View :=
  omap (select_group false) (groupBy group_key (from_joined db)).

(** [.where(gte(movedLesson.date, todayStr))] *)
Definition relevantMovedLessons (todayStr : Day) (db : DB) : list View :=
  omap (select_group false)
    (groupBy group_key
      (filter (λ r, todayStr ≤ ml_date (j_movedLesson r)) (from_joined db))).

(** The cohort reads join [lesson] and [lessonCohortMTM] as well. *)
Definition CohortJoined : Type := Joined * option LessonRow * option LessonCohortRow.

(** [eq(movedLessonLessonMTM.lessonId, lesson.id)] *)
Definition on_lesson (r : Joined) (l : LessonRow) : Prop :=
  mlm_lessonId <$> j_mtm r = Some (lesson_id l).
(** [eq(lesson.id, lessonCohortMTM.lessonId)] *)
Definition on_lessonCohort (r : Joined * option LessonRow) (x : LessonCohortRow) : Prop :=
  lesson_id <$> r.2 = Some (lc_lessonId x).

Global Instance on_lesson_dec r l : Decision (on_lesson r l).
Proof. unfold on_lesson. apply _. Defined.
Global Instance on_lessonCohort_dec r x : Decision (on_lessonCohort r x).
Proof. unfold on_lessonCohort. apply _. Defined.

Definition from_cohort_joined (db : DB) : list CohortJoined :=
  leftJoin on_lessonCohort
    (leftJoin on_lesson (from_joined db) (lesson db))
    (lessonCohortMTM db).

(** [eq(lessonCohortMTM.cohortId, cohortId)] *)
Definition of_cohort (cohortId : Id) (r : CohortJoined) : Prop :=
  lc_cohortId <$> r.2 = Some cohortId.
Global Instance of_cohort_dec cohortId r : Decision (of_cohort cohortId r).
Proof. unfold of_cohort. apply _. Defined.

Definition select_cohort_group (g : GroupKey * list CohortJoined) : option View :=
  select_group true (g.1, (λ r : CohortJoined, r.1.1) <$> g.2).

Definition movedLessonsForCohort (cohortId : Id) (db : DB) : list View :=
  omap select_cohort_group
    (groupBy (λ r : CohortJoined, group_key r.1.1)
      (filter (of_cohort cohortId) (from_cohort_joined db))).

Definition relevantMovedLessonsForCohort (cohortId : Id) (todayStr : Day) (db : DB)
    : list View :=
  omap select_cohort_group
    (groupBy (λ r : CohortJoined, group_key r.1.1)
      (filter (λ r : CohortJoined,
                 of_cohort cohortId r ∧ todayStr ≤ ml_date (j_movedLesson r.1.1))
        (from_cohort_joined db))).

(** [const today = new Date(); today.setHours(0, 0, 0, 0);
     const todayStr = today.toISOString().slice(0, 10);] *)
Definition todayStr : M Day :=
  today ← newDate;
  tz ← timeZone;
  let today := setHours0 tz today in
  mret (toISODate today).

Definition getAllMovedLessons : M (list View) :=
  try_catch
    (select allMovedLessons)
    (internal "Failed to fetch all moved lessons").

Definition getRelevantMovedLessons : M (list View) :=
  try_catch
    (todayStr ← todayStr;
     select (relevantMovedLessons todayStr))
    (internal "Failed to fetch relevant moved lessons").

Definition getMovedLessonsForCohort (cohortId : string) : M (list View) :=
  try_catch
    (throw_if (negb (truthy_string cohortId))
       (HTTPException BAD_REQUEST "Cohort ID is required");;
     select (movedLessonsForCohort cohortId))
    (internal "Failed to fetch moved lessons for cohort").

Definition getRelevantMovedLessonsForCohort (cohortId : string) : M (list View) :=
  try_catch
    (throw_if (negb (truthy_string cohortId))
       (HTTPException BAD_REQUEST "Cohort ID is required");;
     todayStr ← todayStr;
     select (relevantMovedLessonsForCohort cohortId todayStr))
    (internal "Failed to fetch relevant moved lessons for cohort").

(** *** Writes *)

(** The value a body field gives a nullable [text] column in [.values]. *)
Definition column_value (v : JSValue) : option Id :=
  match v with
  | JSString s => Some s
  | _ => None
  end.

(** [.insert(movedLesson).values(row).returning()] *)
Definition insert_movedLesson (row : MovedLessonRow) (db : DB) : list MovedLessonRow * DB :=
  ([row], with_movedLesson (movedLesson db ++ [row]) db).

(** [.insert(movedLessonLessonMTM).values(rows)] *)
Definition insert_mtm (rows : list MovedLessonLessonRow) (db : DB) : DB :=
  with_movedLessonLessonMTM (movedLessonLessonMTM db ++ rows) db.

(** [.delete(movedLessonLessonMTM).where(eq(movedLessonLessonMTM.movedLessonId, id))] *)
Definition delete_mtm (id : Id) (db : DB) : DB :=
  with_movedLessonLessonMTM
    (filter (λ x, mlm_movedLessonId x ≠ id) (movedLessonLessonMTM db)) db.

(** The object given to [.set]: a field that is [undefined] is left out. *)
Record SetClause := {
  set_date : option Day;
  set_room : option (option Id);
  set_startingDay : option (option Id);
  set_startingPeriod : option (option Id) }.

(** [field !== undefined ? field : undefined], as a column value ([null]
    clears the column; validation lets nothing but [undefined], [null] and
    strings come this far). *)
Definition set_entry (v : JSValue) : option (option Id) :=
  match v with
  | JSUndefined => None
  | JSString s => Some (Some s)
  | _ => Some None
  end.

(** [.set] with no value throws before anything is sent. *)
Definition no_values (s : SetClause) : bool :=
  bool_decide (set_date s = None ∧ set_room s = None ∧
               set_startingDay s = None ∧ set_startingPeriod s = None).

Definition apply_set (s : SetClause) (m : MovedLessonRow) : MovedLessonRow :=
  {| ml_id := ml_id m;
     ml_date := default (ml_date m) (set_date s);
     ml_startingPeriod := default (ml_startingPeriod m) (set_startingPeriod s);
     ml_startingDay := default (ml_startingDay m) (set_startingDay s);
     ml_room := default (ml_room m) (set_room s) |}.

(** [.update(movedLesson).set(s).where(eq(movedLesson.id, id)).returning()] *)
Definition update_movedLesson (s : SetClause) (id : Id) (db : DB)
    : list MovedLessonRow * DB :=
  (apply_set s <$> filter (λ m, ml_id m = id) (movedLesson db),
   with_movedLesson
     ((λ m, if decide (ml_id m = id) then apply_set s m else m) <$> movedLesson db) db).

(** [.delete(movedLesson).where(eq(movedLesson.id, id)).returning()]; the
    link rows of the deleted override go with it (foreign key, ON DELETE
    CASCADE). *)
Definition delete_movedLesson (id : Id) (db : DB) : list MovedLessonRow * DB :=
  (filter (λ m, ml_id m = id) (movedLesson db),
   with_movedLesson (filter (λ m, ml_id m ≠ id) (movedLesson db))
     (match filter (λ m, ml_id m = id) (movedLesson db) with
      | [] => db
      | _ => delete_mtm id db
      end)).

(** [lessonIds && Array.isArray(lessonIds) && lessonIds.length > 0]: the
    entries to link (they are strings once validation has passed). *)
Definition array_entries (v : JSValue) : option (list Id) :=
  match v with
  | JSArray entries => Some (omap (λ e, match e with EString s => Some s | EOther => None end) entries)
  | _ => None
  end.

Definition createMovedLesson (body : Body) : M (option MovedLessonRow) :=
  try_catch
    (throw_if (negb (truthy_date (date body)))
       (HTTPException BAD_REQUEST "Date is required");;
     validateMovedLessonReferences body;;
     id ← randomUUID;
     inserted ← match date body with
                | DateOn d =>
                    query (insert_movedLesson
                      {| ml_id := id; ml_date := d;
                         ml_startingPeriod := column_value (startingPeriod body);
                         ml_startingDay := column_value (startingDay body);
                         ml_room := column_value (room body) |})
                | _ => rejected "invalid input syntax for type date"
                end;
     let newMovedLesson := head inserted in
     match array_entries (lessonIds body), newMovedLesson with
     | Some (x :: l), Some new =>
         insert_values
           ((λ lessonId, {| mlm_lessonId := lessonId;
                            mlm_movedLessonId := ml_id new |}) <$> (x :: l))
           insert_mtm
     | _, _ => mret ()
     end;;
     mret newMovedLesson)
    (internal "Failed to create moved lesson").

Definition set_clause (body : Body) : SetClause :=
  {| set_date := match date body with DateOn d => Some d | _ => None end;
     set_room := set_entry (room body);
     set_startingDay := set_entry (startingDay body);
     set_startingPeriod := set_entry (startingPeriod body) |}.

Definition updateMovedLesson (id : string) (body : Body) : M MovedLessonRow :=
  try_catch
    (throw_if (negb (truthy_string id))
       (HTTPException BAD_REQUEST "Moved lesson ID is required");;
     validateMovedLessonReferences body;;
     updated ← match date body with
               | BadDate _ => rejected "invalid input syntax for type date"
               | _ =>
                   if no_values (set_clause body)
                   then throw (Error "No values to set")
                   else query (update_movedLesson (set_clause body) id)
               end;
     match updated with
     | [] => throw (HTTPException NOT_FOUND "Moved lesson not found")
     | updatedMovedLesson :: _ =>
         match array_entries (lessonIds body) with
         | Some l =>
             query (λ db, ((), delete_mtm id db));;
             match l with
             | [] => mret ()
             | _ =>
                 insert_values
                   ((λ lessonId, {| mlm_lessonId := lessonId;
                                    mlm_movedLessonId := id |}) <$> l)
                   insert_mtm
             end
         | None => mret ()
         end;;
         mret updatedMovedLesson
     end)
    (internal "Failed to update moved lesson").

Definition deleteMovedLesson (id : string) : M MovedLessonRow :=
  try_catch
    (throw_if (negb (truthy_string id))
       (HTTPException BAD_REQUEST "Moved lesson ID is required");;
     deleted ← query (delete_movedLesson id);
     match deleted with
     | [] => throw (HTTPException NOT_FOUND "Moved lesson not found")
     | deletedMovedLesson :: _ => mret deletedMovedLesson
     end)
    (internal "Failed to delete moved lesson").

End MovedLesson.

(** * Substitutions ([routes/timetable/substitution/index.ts]) *)

Module Substitution.

(** *** Reads *)

(** A row of [substitution] left-joined with [teacher] and
    [substitutionLessonMTM]. *)
Definition Joined : Type :=
  SubstitutionRow * option TeacherRow * option SubstitutionLessonRow.

Definition j_substitution (r : Joined) : SubstitutionRow := r.1.1.
Definition j_teacher (r : Joined) : option TeacherRow := r.1.2.
Definition j_mtm (r : Joined) : option SubstitutionLessonRow := r.2.

(** [eq(substitution.substituter, teacher.id)] *)
Definition on_teacher (s : SubstitutionRow) (t : TeacherRow) : Prop :=
  sub_substituter s = Some (teacher_id t).
(** [eq(substitution.id, substitutionLessonMTM.substitutionId)] *)
Definition on_mtm (r : SubstitutionRow * option TeacherRow) (x : SubstitutionLessonRow) : Prop :=
  sub_id r.1 = slm_substitutionId x.

Global Instance on_teacher_dec s t : Decision (on_teacher s t).
Proof. unfold on_teacher. apply _. Defined.
Global Instance on_mtm_dec r x : Decision (on_mtm r x).
Proof. unfold on_mtm. apply _. Defined.

Definition from_joined (db : DB) : list Joined :=
  leftJoin on_mtm
    (leftJoin on_teacher (substitution db) (teacher db))
    (substitutionLessonMTM db).

(** [.groupBy(substitution.id, teacher.id)] *)
Definition GroupKey : Type := Id * option Id.
Definition group_key (r : Joined) : GroupKey :=
  (sub_id (j_substitution r), teacher_id <$> j_teacher r).

Record View := {
  v_lessons : list Id;
  v_substitution : SubstitutionRow;
  v_teacher : option TeacherRow }.

(** [ARRAY_AGG(lessonId) FILTER (WHERE lessonId IS NOT NULL)], [COALESCE]d
    to the empty array; the ids come in the order of the joined rows. *)
Definition array_agg (rows : list Joined) : list Id :=
  omap (λ r, slm_lessonId <$> j_mtm r) rows.

Definition select_group (g : GroupKey * list Joined) : option View :=
  match g.2 with
  | [] => None
  | r :: _ =>
      Some {| v_lessons := array_agg g.2;
              v_substitution := j_substitution r;
              v_teacher := j_teacher r |}
  end.

Definition allSubstitutions (db : DB) : list View :=
  omap select_group (groupBy group_key (from_joined db)).

(** [.where(gte(substitution.date, today))] *)
Definition relevantSubstitutions (today : Day) (db : DB) : list View :=
  omap select_group
    (groupBy group_key
      (filter (λ r, today ≤ sub_date (j_substitution r)) (from_joined db))).

(** The cohort read joins [lesson], [lessonCohortMTM] and [cohort] as well. *)
Definition CohortJoined : Type :=
  Joined * option LessonRow * option LessonCohortRow * option CohortRow.

(** [eq(substitutionLessonMTM.lessonId, lesson.id)] *)
Definition on_lesson (r : Joined) (l : LessonRow) : Prop :=
  slm_lessonId <$> j_mtm r = Some (lesson_id l).
(** [eq(lesson.id, lessonCohortMTM.lessonId)] *)
Definition on_lessonCohort (r : Joined * option LessonRow) (x : LessonCohortRow) : Prop :=
  lesson_id <$> r.2 = Some (lc_lessonId x).
(** [eq(lessonCohortMTM.cohortId, cohort.id)] *)
Definition on_cohort (r : Joined * option LessonRow * option LessonCohortRow)
    (c : CohortRow) : Prop :=
  lc_cohortId <$> r.2 = Some (cohort_id c).

Global Instance on_lesson_dec r l : Decision (on_lesson r l).
Proof. unfold on_lesson. apply _. Defined.
Global Instance on_lessonCohort_dec r x : Decision (on_lessonCohort r x).
Proof. unfold on_lessonCohort. apply _. Defined.
Global Instance on_cohort_dec r c : Decision (on_cohort r c).
Proof. unfold on_cohort. apply _. Defined.

Definition from_cohort_joined (db : DB) : list CohortJoined :=
  leftJoin on_cohort
    (leftJoin on_lessonCohort
      (leftJoin on_lesson (from_joined db) (lesson db))
      (lessonCohortMTM db))
    (cohort db).

(** [and(gte(substitution.date, today), eq(cohort.id, cohortId))] *)
Definition relevant_of_cohort (today : Day) (cohortId : Id) (r : CohortJoined) : Prop :=
  today ≤ sub_date (j_substitution r.1.1.1) ∧ cohort_id <$> r.2 = Some cohortId.
Global Instance relevant_of_cohort_dec today cohortId r :
  Decision (relevant_of_cohort today cohortId r).
Proof. unfold relevant_of_cohort. apply _. Defined.

Definition relevantSubstitutionsForCohort (today : Day) (cohortId : Id) (db : DB)
    : list View :=
  omap (λ g : GroupKey * list CohortJoined,
          select_group (g.1, (λ r : CohortJoined, r.1.1.1) <$> g.2))
    (groupBy (λ r : CohortJoined, group_key r.1.1.1)
      (filter (relevant_of_cohort today cohortId) (from_cohort_joined db))).

(** [const today = new Date().toISOString().split('T')[0];] *)
Definition today : M Day :=
  now ← newDate;
  mret (toISODate now).

Definition getAllSubstitutions : M (list View) :=
  try_catch
    (select allSubstitutions)
    (internal "Failed to fetch all substitutions").

Definition getRelevantSubstitutions : M (list View) :=
  try_catch
    (today ← today;
     select (relevantSubstitutions today))
    (internal "Failed to fetch substitutions").

Definition getRelevantSubstitutionsForCohort (cohortId : string) : M (Id * list View) :=
  throw_if (negb (truthy_string cohortId))
    (HTTPException BAD_REQUEST "Cohort ID is required");;
  today ← today;
  try_catch
    (substitutions ← select (relevantSubstitutionsForCohort today cohortId);
     mret (cohortId, substitutions))
    (internal "Failed to fetch substitutions for cohort").

(** *** Writes *)

(** The body of a create or update request, as its type declares it. *)
Record Body := {
  date : DateField;
  lessonIds : option (list Id);
  substituter : option Id }.

(** [.insert(substitution).values(row).returning()] *)
Definition insert_substitution (row : SubstitutionRow) (db : DB)
    : list SubstitutionRow * DB :=
  ([row], with_substitution (substitution db ++ [row]) db).

(** [.insert(substitutionLessonMTM).values(rows)] *)
Definition insert_mtm (rows : list SubstitutionLessonRow) (db : DB) : DB :=
  with_substitutionLessonMTM (substitutionLessonMTM db ++ rows) db.

(** [.delete(substitutionLessonMTM).where(eq(substitutionLessonMTM.substitutionId, id))] *)
Definition delete_mtm (id : Id) (db : DB) : DB :=
  with_substitutionLessonMTM
    (filter (λ x, slm_substitutionId x ≠ id) (substitutionLessonMTM db)) db.

(** [updateData]: the body with [lessonIds] set to [undefined]. *)
Record SetClause := { set_date : option Day; set_substituter : option Id }.

(** [.set] with no value throws before anything is sent. *)
Definition no_values (s : SetClause) : bool :=
  bool_decide (set_date s = None ∧ set_substituter s = None).

Definition apply_set (s : SetClause) (r : SubstitutionRow) : SubstitutionRow :=
  {| sub_id := sub_id r;
     sub_date := default (sub_date r) (set_date s);
     sub_substituter :=
       match set_substituter s with
       | Some t => Some t
       | None => sub_substituter r
       end |}.

(** [.update(substitution).set(s).where(eq(substitution.id, id)).returning()] *)
Definition update_substitution (s : SetClause) (id : Id) (db : DB)
    : list SubstitutionRow * DB :=
  (apply_set s <$> filter (λ r, sub_id r = id) (substitution db),
   with_substitution
     ((λ r, if decide (sub_id r = id) then apply_set s r else r) <$> substitution db) db).

(** [.delete(substitution).where(eq(substitution.id, id)).returning()]:
    "The many-to-many relationships will be automatically deleted due to the
    CASCADE constraint". *)
Definition delete_substitution (id : Id) (db : DB) : list SubstitutionRow * DB :=
  (filter (λ r, sub_id r = id) (substitution db),
   with_substitution (filter (λ r, sub_id r ≠ id) (substitution db))
     (match filter (λ r, sub_id r = id) (substitution db) with
      | [] => db
      | _ => delete_mtm id db
      end)).

Definition createSubstitution (body : Body) : M SubstitutionRow :=
  match lessonIds body, truthy_date (date body) with
  | Some lessonIds, true =>
      match date body with
      | DateOn d =>
          lessonCount ← select (count_lessons lessonIds);
          throw_if (negb (bool_decide (lessonCount = length lessonIds)))
            (HTTPException BAD_REQUEST
               ("attempted to substitute non-existent lesson(s), wanted: "
                +:+ pretty (length lessonIds) +:+ ", got: " +:+ pretty lessonCount));;
          transaction
            (id ← randomUUID;
             inserted ← query (insert_substitution
               {| sub_id := id; sub_date := d; sub_substituter := substituter body |});
             match inserted with
             | [] => throw (HTTPException INTERNAL_SERVER_ERROR "Failed to create substitution.")
             | insertedSubstitution :: _ =>
                 let mtmValues :=
                   (λ lessonId, {| slm_lessonId := lessonId;
                                   slm_substitutionId := sub_id insertedSubstitution |})
                   <$> lessonIds in
                 insert_values mtmValues insert_mtm;;
                 mret insertedSubstitution
             end)
      | _ => throw (HTTPException BAD_REQUEST "Invalid date format.")
      end
  | _, _ =>
      throw (HTTPException BAD_REQUEST
               "Missing required fields: lessonIds and date are required.")
  end.

Definition set_clause (body : Body) : SetClause :=
  {| set_date := match date body with DateOn d => Some d | _ => None end;
     set_substituter := substituter body |}.

Definition updateSubstitution (id : string) (body : Body) : M (option SubstitutionRow) :=
  try_catch
    (throw_if (negb (truthy_string id))
       (HTTPException BAD_REQUEST "Substitution ID is required");;
     existingSubstitution ← select (λ db, take 1 (filter (λ r, sub_id r = id) (substitution db)));
     throw_if (bool_decide (length existingSubstitution = 0%nat))
       (HTTPException NOT_FOUND "Substitution not found");;
     match date body with
     | BadDate text =>
         throw_if (truthy_string text) (HTTPException BAD_REQUEST "Invalid date format")
     | _ => mret ()
     end;;
     match lessonIds body with
     | Some lessonIds =>
         lessonCount ← select (count_lessons lessonIds);
         throw_if (negb (bool_decide (lessonCount = length lessonIds)))
           (HTTPException BAD_REQUEST
              ("Some lessons don't exist, wanted: " +:+ pretty (length lessonIds)
               +:+ ", found: " +:+ pretty lessonCount))
     | None => mret ()
     end;;
     transaction
       (updated ← match date body with
                  | BadDate _ => rejected "invalid input syntax for type date"
                  | _ =>
                      if no_values (set_clause body)
                      then throw (Error "No values to set")
                      else query (update_substitution (set_clause body) id)
                  end;
        match lessonIds body with
        | Some lessonIds =>
            query (λ db, ((), delete_mtm id db));;
            let mtmValues :=
              (λ lessonId, {| slm_lessonId := lessonId; slm_substitutionId := id |})
              <$> lessonIds in
            insert_values mtmValues insert_mtm
        | None => mret ()
        end;;
        mret (head updated)))
    (internal "Failed to update substitution").

Definition deleteSubstitution (id : string) : M (option SubstitutionRow) :=
  try_catch
    (throw_if (negb (truthy_string id))
       (HTTPException BAD_REQUEST "Substitution ID is required");;
     existingSubstitution ← select (λ db, take 1 (filter (λ r, sub_id r = id) (substitution db)));
     throw_if (bool_decide (length existingSubstitution = 0%nat))
       (HTTPException NOT_FOUND "Substitution not found");;
     deleted ← query (delete_substitution id);
     mret (head deleted))
    (internal "Failed to delete substitution").

End Substitution.

(** * Lessons of a cohort ([routes/timetable/lesson/index.ts]) *)

Module Lesson.

(** [.innerJoin(t, on)] *)
Definition innerJoin {A B} (on : A → B → Prop) `{!∀ a b, Decision (on a b)}
    (l : list A) (t : list B) : list (A * B) :=
  l ≫= λ a, (λ b, (a, b)) <$> filter (on a) t.

(** [eq(lesson.id, lessonCohortMTM.lessonId)] *)
Definition on_lessonCohort (l : LessonRow) (x : LessonCohortRow) : Prop :=
  lesson_id l = lc_lessonId x.
Global Instance on_lessonCohort_dec l x : Decision (on_lessonCohort l x).
Proof. unfold on_lessonCohort. apply _. Defined.

(** [.select({ lesson }).from(lesson).innerJoin(lessonCohortMTM, ..)
     .where(eq(lessonCohortMTM.cohortId, cohortId))], then [r => r.lesson] *)
Definition lessonsOfCohort (cohortId : Id) (db : DB) : list LessonRow :=
  fst <$> filter (λ r : LessonRow * LessonCohortRow, lc_cohortId r.2 = cohortId)
            (innerJoin on_lessonCohort (lesson db) (lessonCohortMTM db)).

(** [Array.isArray(ids) ? ids : []] *)
Definition arrayOrEmpty (ids : option (list Id)) : list Id := default [] ids.

(** [new Map(rows.map(r => [r.id, r]))]: a later row replaces an earlier one
    under the same key. *)
Definition toMap {R} (key : R → Id) (rows : list R) : gmap Id R :=
  foldl (λ m r, <[key r := r]> m) ∅ rows.

(** The [{id, name, short}] projections and the period projection. *)
Record Named := { n_id : Id; n_name : string; n_short : string }.
Record PeriodView := {
  pv_id : Id; pv_startTime : string; pv_endTime : string; pv_period : Z }.

Record Enriched := {
  e_id : Id;
  e_subject : option Named;
  e_teachers : list Named;
  e_classrooms : list Named;
  e_day : option DayDefinitionRow;
  e_period : option PeriodView;
  e_weeksDefinitionId : Id;
  e_termDefinitionId : Id;
  e_periodsPerWeek : Z }.

Definition subjectView (s : SubjectRow) : Named :=
  {| n_id := subject_id s; n_name := subject_name s; n_short := subject_short s |}.
Definition teacherView (t : TeacherRow) : Named :=
  {| n_id := teacher_id t;
     n_name := teacher_firstName t +:+ " " +:+ teacher_lastName t;
     n_short := teacher_short t |}.
Definition classroomView (cr : ClassroomRow) : Named :=
  {| n_id := classroom_id cr; n_name := classroom_name cr; n_short := classroom_short cr |}.
Definition periodView (p : PeriodRow) : PeriodView :=
  {| pv_id := period_id p; pv_startTime := period_startTime p;
     pv_endTime := period_endTime p; pv_period := period_period p |}.

(** The body of [lessons.map((l) => ...)]. *)
Definition enrich
    (subjMap : gmap Id SubjectRow) (dayMap : gmap Id DayDefinitionRow)
    (periodMap : gmap Id PeriodRow) (teacherMap : gmap Id TeacherRow)
    (classroomMap : gmap Id ClassroomRow) (l : LessonRow) : Enriched :=
  let tIds := arrayOrEmpty (lesson_teacherIds l) in
  let cIds := arrayOrEmpty (lesson_classroomIds l) in
  {| e_id := lesson_id l;
     e_subject := subjectView <$> subjMap !! lesson_subjectId l;
     e_teachers := teacherView <$> omap (λ id, teacherMap !! id) tIds;
     e_classrooms := classroomView <$> omap (λ id, classroomMap !! id) cIds;
     e_day := dayMap !! lesson_dayDefinitionId l;
     e_period := periodView <$> periodMap !! lesson_periodId l;
     e_weeksDefinitionId := lesson_weeksDefinitionId l;
     e_termDefinitionId := lesson_termDefinitionId l;
     e_periodsPerWeek := lesson_periodsPerWeek l |}.

Definition getLessonsForCohort (cohortId : string) : M (list Enriched) :=
  throw_if (negb (truthy_string cohortId)) (HTTPException BAD_REQUEST "Missing cohort_id");;
  existingCohort ← select (λ db, take 1 (filter (λ c, cohort_id c = cohortId) (cohort db)));
  throw_if (bool_decide (existingCohort = [])) (HTTPException NOT_FOUND "Cohort not found");;
  lessons ← select (lessonsOfCohort cohortId);
  match lessons with
  | [] => mret []
  | _ =>
      let subjectIds := dedupe (lesson_subjectId <$> lessons) in
      let dayIds := dedupe (lesson_dayDefinitionId <$> lessons) in
      let periodIds := dedupe (lesson_periodId <$> lessons) in
      let teacherIds := dedupe (lessons ≫= λ l, arrayOrEmpty (lesson_teacherIds l)) in
      let classroomIds := dedupe (lessons ≫= λ l, arrayOrEmpty (lesson_classroomIds l)) in
      subjects ← select (λ db, filter (λ s, inArray (subject_id s) subjectIds) (subject db));
      days ← select (λ db, filter (λ d, inArray (day_id d) dayIds) (dayDefinition db));
      periods ← select (λ db, filter (λ p, inArray (period_id p) periodIds) (period db));
      teachers ← match teacherIds with
                 | [] => mret []
                 | _ => select (λ db, filter (λ t, inArray (teacher_id t) teacherIds) (teacher db))
                 end;
      classrooms ← match classroomIds with
                   | [] => mret []
                   | _ => select (λ db,
                            filter (λ c, inArray (classroom_id c) classroomIds) (classroom db))
                   end;
      let subjMap := toMap subject_id subjects in
      let dayMap := toMap day_id days in
      let periodMap := toMap period_id periods in
      let teacherMap := toMap teacher_id teachers in
      let classroomMap := toMap classroom_id classrooms in
      mret (enrich subjMap dayMap periodMap teacherMap classroomMap <$> lessons)
  end.

End Lesson.

(** * Timetable versions *)

Module Timetable.

(** [dateToYYYYMMDD(new Date())]: [toLocaleDateString('en-CA', ...)] *)
Definition dateToYYYYMMDD (tz t : Z) : Day := toLocaleDate tz t.

(** [desc(timetable.validFrom)] *)
Definition desc_validFrom (a b : TimetableRow) : Prop :=
  timetable_validFrom b ≤ timetable_validFrom a.
Global Instance desc_validFrom_dec a b : Decision (desc_validFrom a b).
Proof. unfold desc_validFrom. apply _. Defined.

(** [.select().from(timetable).where(gte(timetable.validFrom, today))
     .orderBy(desc(timetable.validFrom)).limit(1)] *)
Definition latestValid (today : Day) (db : DB) : list TimetableRow :=
  take 1 (merge_sort desc_validFrom
            (filter (λ t, today ≤ timetable_validFrom t) (timetable db))).

(** The [data] of the reply: the row, or the text
    ['No valid timetable found.']. *)
Definition getLatestValidTimetable : M (string + TimetableRow) :=
  now ← newDate;
  tz ← timeZone;
  let today := dateToYYYYMMDD tz now in
  try_catch
    (rows ← select (latestValid today);
     match rows with
     | [] => mret (inl "No valid timetable found.")
     | latestValidTimetable :: _ => mret (inr latestValidTimetable)
     end)
    (internal "Failed to get latest valid template.").

Definition getAllTimetables : M (list TimetableRow) :=
  try_catch
    (select timetable)
    (internal "Failed to fetch all timetables").

(** [.select().from(timetable).where(gte(timetable.validFrom, today.toString()))] *)
Definition allValid (today : Day) (db : DB) : list TimetableRow :=
  filter (λ t, today ≤ timetable_validFrom t) (timetable db).

Definition getAllValidTimetables : M (list TimetableRow) :=
  try_catch
    (now ← newDate;
     tz ← timeZone;
     let today := dateToYYYYMMDD tz now in
     select (allValid today))
    (internal "Failed to fetch all timetables").

End Timetable.

(** * What the handlers are measured against *)

(** What the reads return for one override when the primary keys hold: the
    override row with the rows its references resolve to, and the lesson ids
    of its link rows in table order. *)

Definition moved_links (db : DB) (id : Id) : list Id :=
  mlm_lessonId <$> filter (λ x, id = mlm_movedLessonId x) (movedLessonLessonMTM db).

Definition moved_base (db : DB) (m : MovedLessonRow)
    : MovedLessonRow * option PeriodRow * option DayDefinitionRow * option ClassroomRow :=
  let p := head (filter (MovedLesson.on_period m) (period db)) in
  let d := head (filter (MovedLesson.on_day (m, p)) (dayDefinition db)) in
  let c := head (filter (MovedLesson.on_room (m, p, d)) (classroom db)) in
  (m, p, d, c).

Definition moved_rows (db : DB) (m : MovedLessonRow) : list MovedLesson.Joined :=
  leftJoin MovedLesson.on_mtm [moved_base db m] (movedLessonLessonMTM db).

Definition moved_view (db : DB) (m : MovedLessonRow) : MovedLesson.View :=
  {| MovedLesson.v_classroom := (moved_base db m).2;
     MovedLesson.v_dayDefinition := (moved_base db m).1.2;
     MovedLesson.v_lessons := moved_links db (ml_id m);
     MovedLesson.v_movedLesson := m;
     MovedLesson.v_period := (moved_base db m).1.1.2 |}.

Definition substitution_links (db : DB) (id : Id) : list Id :=
  slm_lessonId <$> filter (λ x, id = slm_substitutionId x) (substitutionLessonMTM db).

Definition substitution_base (db : DB) (s : SubstitutionRow)
    : SubstitutionRow * option TeacherRow :=
  (s, head (filter (Substitution.on_teacher s) (teacher db))).

Definition substitution_rows (db : DB) (s : SubstitutionRow) : list Substitution.Joined :=
  leftJoin Substitution.on_mtm [substitution_base db s] (substitutionLessonMTM db).

Definition substitution_view (db : DB) (s : SubstitutionRow) : Substitution.View :=
  {| Substitution.v_lessons := substitution_links db (sub_id s);
     Substitution.v_substitution := s;
     Substitution.v_teacher := (substitution_base db s).2 |}.

(** The [lessons] fields a read shows for the override [id]. *)
Definition moved_lessons_shown (views : list MovedLesson.View) (id : Id) : list (list Id) :=
  MovedLesson.v_lessons <$>
    filter (λ v, ml_id (MovedLesson.v_movedLesson v) = id) views.

Definition substitution_lessons_shown (views : list Substitution.View) (id : Id)
    : list (list Id) :=
  Substitution.v_lessons <$>
    filter (λ v, sub_id (Substitution.v_substitution v) = id) views.

(** A computation that leaves the tables as they are, whatever it returns. *)
Definition keeps_store {A} (m : M A) : Prop := ∀ w, store (m w).2 = store w.

(** The tables after the link rows of the override [id] are replaced by
    links to [l]. *)
Definition moved_replace_links (id : Id) (l : list Id) (db : DB) : DB :=
  MovedLesson.insert_mtm
    ((λ lessonId, {| mlm_lessonId := lessonId; mlm_movedLessonId := id |}) <$> l)
    (MovedLesson.delete_mtm id db).

Definition substitution_replace_links (id : Id) (l : list Id) (db : DB) : DB :=
  Substitution.insert_mtm
    ((λ lessonId, {| slm_lessonId := lessonId; slm_substitutionId := id |}) <$> l)
    (Substitution.delete_mtm id db).

(** The record [getLessonsForCohort] builds for the lesson [l] of a batch:
    the five maps are fetched for the ids of the whole batch. *)
Definition enrich_batch (db : DB) (lessons : list LessonRow) (l : LessonRow) : Lesson.Enriched :=
  let subjectIds := dedupe (lesson_subjectId <$> lessons) in
  let dayIds := dedupe (lesson_dayDefinitionId <$> lessons) in
  let periodIds := dedupe (lesson_periodId <$> lessons) in
  let teacherIds := dedupe (lessons ≫= λ l, Lesson.arrayOrEmpty (lesson_teacherIds l)) in
  let classroomIds := dedupe (lessons ≫= λ l, Lesson.arrayOrEmpty (lesson_classroomIds l)) in
  Lesson.enrich
    (Lesson.toMap subject_id (filter (λ s, inArray (subject_id s) subjectIds) (subject db)))
    (Lesson.toMap day_id (filter (λ d, inArray (day_id d) dayIds) (dayDefinition db)))
    (Lesson.toMap period_id (filter (λ p, inArray (period_id p) periodIds) (period db)))
    (Lesson.toMap teacher_id
       (match teacherIds with
        | [] => []
        | _ => filter (λ t, inArray (teacher_id t) teacherIds) (teacher db)
        end))
    (Lesson.toMap classroom_id
       (match classroomIds with
        | [] => []
        | _ => filter (λ c, inArray (classroom_id c) classroomIds) (classroom db)
        end))
    l.

(** A computation that, when it throws, leaves the tables as they were. *)
Definition all_or_nothing {A} (m : M A) : Prop :=
  ∀ w e w', m w = (inl e, w') → store w' = store w.

(** * A small school, for the concrete runs *)

Module Scenario.

(** Day numbers of the calendar days used below. *)
Definition d2025_01_01 : Day := 20089.
Definition d2025_03_09 : Day := 20156.
Definition d2025_03_10 : Day := 20157.
Definition d2025_03_11 : Day := 20158.
Definition d2025_06_01 : Day := 20240.
Definition d2026_01_01 : Day := 20454.

(** The instant [h] hours after midnight UTC of day [d]. *)
Definition at_utc (d : Day) (h : Z) : Z := d * MS_PER_DAY + h * 3600000.

Definition lessonRow (id : Id) : LessonRow :=
  {| lesson_id := id; lesson_subjectId := "S1"; lesson_dayDefinitionId := "D1";
     lesson_periodId := "P1"; lesson_teacherIds := Some ["T1"];
     lesson_classroomIds := Some ["R1"]; lesson_weeksDefinitionId := "W1";
     lesson_termDefinitionId := "TD1"; lesson_periodsPerWeek := 2 |}.

(** Three lessons of cohort K1, two teachers, no override yet. *)
Definition school : DB :=
  {| subject := [ {| subject_id := "S1"; subject_name := "Mathematics"; subject_short := "Ma" |} ];
     teacher :=
       [ {| teacher_id := "T1"; teacher_firstName := "Anna"; teacher_lastName := "Kiss";
            teacher_short := "KA" |};
         {| teacher_id := "T2"; teacher_firstName := "Zolt"; teacher_lastName := "Nagy";
            teacher_short := "NZ" |} ];
     classroom := [ {| classroom_id := "R1"; classroom_name := "Room 1"; classroom_short := "1" |} ];
     period := [ {| period_id := "P1"; period_startTime := "08:00:00";
                    period_endTime := "08:45:00"; period_period := 1 |} ];
     dayDefinition := [ {| day_id := "D1"; day_name := "Monday"; day_short := "Mo" |} ];
     cohort := [ {| cohort_id := "K1"; cohort_name := "9.A" |} ];
     lesson := [ lessonRow "L1"; lessonRow "L2"; lessonRow "L3" ];
     lessonCohortMTM :=
       [ {| lc_lessonId := "L1"; lc_cohortId := "K1" |};
         {| lc_lessonId := "L2"; lc_cohortId := "K1" |};
         {| lc_lessonId := "L3"; lc_cohortId := "K1" |} ];
     movedLesson := []; movedLessonLessonMTM := [];
     substitution := []; substitutionLessonMTM := [];
     timetable := [] |}.

Definition movedRow (id : Id) (d : Day) : MovedLessonRow :=
  {| ml_id := id; ml_date := d; ml_startingPeriod := None; ml_startingDay := None;
     ml_room := None |}.
Definition movedLink (m l : Id) : MovedLessonLessonRow :=
  {| mlm_lessonId := l; mlm_movedLessonId := m |}.
Definition substitutionRow (id : Id) (d : Day) : SubstitutionRow :=
  {| sub_id := id; sub_date := d; sub_substituter := Some "T2" |}.
Definition substitutionLink (s l : Id) : SubstitutionLessonRow :=
  {| slm_lessonId := l; slm_substitutionId := s |}.

(** The school with the moved lesson M1 and the substitution S1, both on
    2025-03-10 and both linked to L1 and L2. *)
Definition with_overrides : DB :=
  with_movedLesson [movedRow "M1" d2025_03_10]
    (with_movedLessonLessonMTM [movedLink "M1" "L1"; movedLink "M1" "L2"]
      (with_substitution [substitutionRow "S1" d2025_03_10]
        (with_substitutionLessonMTM [substitutionLink "S1" "L1"; substitutionLink "S1" "L2"]
          school))).

(** The same, with the link rows (M1, L1) and (S1, L1) stored twice. *)
Definition with_duplicate_links : DB :=
  with_movedLessonLessonMTM [movedLink "M1" "L1"; movedLink "M1" "L1"]
    (with_substitutionLessonMTM [substitutionLink "S1" "L1"; substitutionLink "S1" "L1"]
      with_overrides).

(** The school with one override of each kind dated 2025-03-09 and one
    dated 2025-03-10. *)
Definition with_yesterday_and_today : DB :=
  with_movedLesson [movedRow "M0" d2025_03_09; movedRow "M1" d2025_03_10]
    (with_substitution [substitutionRow "S0" d2025_03_09; substitutionRow "S1" d2025_03_10]
      school).

Definition timetableRow (id : Id) (d : Day) : TimetableRow :=
  {| timetable_id := id; timetable_name := id; timetable_validFrom := d |}.

(** One timetable valid from 2025-01-01; and that one with a second valid
    from 2026-01-01. *)
Definition one_timetable : DB :=
  {| subject := []; teacher := []; classroom := []; period := []; dayDefinition := [];
     cohort := []; lesson := []; lessonCohortMTM := []; movedLesson := [];
     movedLessonLessonMTM := []; substitution := []; substitutionLessonMTM := [];
     timetable := [timetableRow "TT-2025" d2025_01_01] |}.
Definition two_timetables : DB :=
  {| subject := []; teacher := []; classroom := []; period := []; dayDefinition := [];
     cohort := []; lesson := []; lessonCohortMTM := []; movedLesson := [];
     movedLessonLessonMTM := []; substitution := []; substitutionLessonMTM := [];
     timetable := [timetableRow "TT-2025" d2025_01_01; timetableRow "TT-2026" d2026_01_01] |}.

(** A world over [db]: the storage layer fails the calls [fs] marks,
    the clock shows [now], the server's zone is [tz] minutes east of UTC. *)
Definition world (db : DB) (fs : list bool) (now tz : Z) : World :=
  {| store := db; faults := fs; uuids := ["uuid-1"; "uuid-2"]; clock := now;
     tz_offset := tz |}.

(** Noon UTC of 2025-03-10 on a server in UTC, no storage failure. *)
Definition calm (db : DB) : World := world db [] (at_utc d2025_03_10 12) 0.

Definition movedBody (d : DateField) (ids : JSValue) : MovedLesson.Body :=
  {| MovedLesson.startingPeriod := JSUndefined; MovedLesson.startingDay := JSUndefined;
     MovedLesson.room := JSUndefined; MovedLesson.date := d; MovedLesson.lessonIds := ids |}.

Definition substitutionBody (d : DateField) (ids : option (list Id)) (t : option Id)
    : Substitution.Body :=
  {| Substitution.date := d; Substitution.lessonIds := ids; Substitution.substituter := t |}.

(** Update bodies: a new date and the lesson list [L3]; a new date only. *)
Definition replace_moved : MovedLesson.Body :=
  movedBody (DateOn d2025_03_11) (JSArray [EString "L3"]).
Definition keep_moved : MovedLesson.Body := movedBody (DateOn d2025_03_11) JSUndefined.
Definition replace_substitution : Substitution.Body :=
  substitutionBody (DateOn d2025_03_11) (Some ["L3"]) None.
Definition keep_substitution : Substitution.Body :=
  substitutionBody (DateOn d2025_03_11) None None.

(** The school after catalog drift: lesson L1 names the teachers T1, T9 and
    T2, the classroom R9, the subject S9 and the period P9, of which only T1
    and T2 exist. *)
Definition drifted : DB :=
  {| subject := subject school; teacher := teacher school; classroom := classroom school;
     period := period school; dayDefinition := dayDefinition school; cohort := cohort school;
     lesson :=
       [ {| lesson_id := "L1"; lesson_subjectId := "S9"; lesson_dayDefinitionId := "D1";
            lesson_periodId := "P9"; lesson_teacherIds := Some ["T1"; "T9"; "T2"];
            lesson_classroomIds := Some ["R9"]; lesson_weeksDefinitionId := "W1";
            lesson_termDefinitionId := "TD1"; lesson_periodsPerWeek := 2 |};
         lessonRow "L2" ];
     lessonCohortMTM :=
       [ {| lc_lessonId := "L1"; lc_cohortId := "K1" |};
         {| lc_lessonId := "L2"; lc_cohortId := "K1" |} ];
     movedLesson := []; movedLessonLessonMTM := [];
     substitution := []; substitutionLessonMTM := [];
     timetable := [] |}.

End Scenario.

(** * What validation lets through *)

(** A reference field passes when it is absent, [null], the empty string
    (which is never looked up) or a string naming a row of its table. *)
Definition reference_passes (v : JSValue) (ids : list Id) : Prop :=
  match v with
  | JSUndefined | JSNull => True
  | JSString s => s = "" ∨ s ∈ ids
  | _ => False
  end.

(** The lesson-id field passes when it is absent, [null], or an array of
    strings each naming a lesson. *)
Definition lesson_list_passes (v : JSValue) (ids : list Id) : Prop :=
  match v with
  | JSUndefined | JSNull => True
  | JSArray entries =>
      match MovedLesson.stringEntries entries with
      | Some l => Forall (λ x, x ∈ ids) l
      | None => False
      end
  | _ => False
  end.

Definition references_pass (db : DB) (body : MovedLesson.Body) : Prop :=
  reference_passes (MovedLesson.startingPeriod body) (period_id <$> period db) ∧
  reference_passes (MovedLesson.startingDay body) (day_id <$> dayDefinition db) ∧
  reference_passes (MovedLesson.room body) (classroom_id <$> classroom db) ∧
  lesson_list_passes (MovedLesson.lessonIds body) (lesson_id <$> lesson db).

Global Instance reference_passes_dec v ids : Decision (reference_passes v ids).
Proof. destruct v; simpl; apply _. Defined.
Global Instance lesson_list_passes_dec v ids : Decision (lesson_list_passes v ids).
Proof.
  destruct v; simpl; try apply _.
  destruct (MovedLesson.stringEntries entries); apply _.
Defined.
Global Instance references_pass_dec db body : Decision (references_pass db body).
Proof. unfold references_pass. apply _. Defined.

(** A run that ends in a thrown 400, the world as it was. *)
Definition rejected_with_400 {A} (r : (Exn + A) * World) (w : World) : Prop :=
  ∃ message, r = (inl (HTTPException BAD_REQUEST message), w).



(** The foreign keys of the link tables towards their override: every link
    row belongs to an override row. *)
Definition links_have_owners (db : DB) : Prop :=
  Forall (λ x, mlm_movedLessonId x ∈ ml_id <$> movedLesson db) (movedLessonLessonMTM db) ∧
  Forall (λ x, slm_substitutionId x ∈ sub_id <$> substitution db) (substitutionLessonMTM db).

Global Instance links_have_owners_dec db : Decision (links_have_owners db).
Proof. unfold links_have_owners. apply _. Defined.


(** The row [createSubstitution] writes, and what the reads show for it. *)
Definition created_substitution (u : Id) (d : Day) (t : option Id) : SubstitutionRow :=
  {| sub_id := u; sub_date := d; sub_substituter := t |}.

Definition created_substitution_view (db : DB) (u : Id) (d : Day) (l : list Id)
    (t : option Id) : Substitution.View :=
  {| Substitution.v_lessons := l;
     Substitution.v_substitution := created_substitution u d t;
     Substitution.v_teacher := (substitution_base db (created_substitution u d t)).2 |}.

(** A computation that makes at most [n] storage calls, whatever the
    storage layer does: it takes at most [n] entries off the fault plan. *)
Definition calls_at_most {A} (n : nat) (m : M A) : Prop :=
  ∀ w, (length (faults w) ≤ length (faults (m w).2) + n)%nat.

(** What a body field makes of a nullable reference column on update:
    absent, the column keeps its value; [null] clears it; a string is
    written, and is empty or names a row of the table with the keys [ids]. *)
Definition field_after (v : JSValue) (ids : list Id) (old new : option Id) : Prop :=
  match v with
  | JSUndefined => new = old
  | JSNull => new = None
  | JSString s => new = Some s ∧ (s = "" ∨ s ∈ ids)
  | _ => False
  end.

(** A nullable reference [ref] into a table as a left join resolves it: to
    a row of the table that carries it, or to NULL when no row does. *)
Definition resolved_as {R} (key : R → Id) (table : list R) (ref : option Id)
    (found : option R) : Prop :=
  match found with
  | Some r => r ∈ table ∧ ref = Some (key r)
  | None => ∀ r, r ∈ table → ref ≠ Some (key r)
  end.

(** The moved lesson [m] is linked to the lesson [l], and [l] is a lesson
    of the cohort: there are a link row from [m] to [l], a lesson row [l]
    and a row tying [l] to the cohort. *)
Definition moved_link_in_cohort (db : DB) (cohortId : Id) (m : MovedLessonRow) (l : Id)
    : Prop :=
  (∃ x, x ∈ movedLessonLessonMTM db ∧ mlm_movedLessonId x = ml_id m ∧ mlm_lessonId x = l) ∧
  l ∈ lesson_id <$> lesson db ∧
  (∃ y, y ∈ lessonCohortMTM db ∧ lc_lessonId y = l ∧ lc_cohortId y = cohortId).

(** The same for a substitution; its cohort read joins the cohort table as
    well, so the cohort has to have a row. *)
Definition substitution_link_in_cohort (db : DB) (cohortId : Id) (s : SubstitutionRow)
    (l : Id) : Prop :=
  (∃ x, x ∈ substitutionLessonMTM db ∧ slm_substitutionId x = sub_id s ∧
        slm_lessonId x = l) ∧
  l ∈ lesson_id <$> lesson db ∧
  (∃ y, y ∈ lessonCohortMTM db ∧ lc_lessonId y = l ∧ lc_cohortId y = cohortId) ∧
  cohortId ∈ cohort_id <$> cohort db.

(** * Properties of the relational operators *)

Section relational.
Context {A : Type} `{EqDecision A}.

Lemma elem_of_dedupe (l : list A) x : x ∈ dedupe l ↔ x ∈ l.
Proof.
  induction l as [|y l IH]; simpl; [done|].
  rewrite !elem_of_cons, list_elem_of_filter, IH.
  destruct (decide (x = y)); tauto.
Qed.

Lemma NoDup_dedupe (l : list A) : NoDup (dedupe l).
Proof.
  induction l as [|y l IH]; simpl; [constructor|].
  constructor.
  - rewrite list_elem_of_filter. tauto.
  - by apply NoDup_filter.
Qed.

Lemma filter_ne_fresh (l : list A) x : x ∉ l → filter (λ y, y ≠ x) l = l.
Proof.
  induction l as [|y l IH]; [done|].
  rewrite not_elem_of_cons. intros [Hne Hl].
  rewrite filter_cons_True by done. by rewrite IH.
Qed.

(** A run of equal values in front contributes one value. *)
Lemma dedupe_run (l1 l2 : list A) x :
  l1 ≠ [] → Forall (λ y, y = x) l1 → x ∉ l2 →
  dedupe (l1 ++ l2) = x :: dedupe l2.
Proof.
  induction l1 as [|y l1 IH]; [done|].
  intros _ Hall Hx. apply Forall_cons in Hall as [-> Hall]. simpl.
  destruct l1 as [|z l1].
  - simpl. rewrite filter_ne_fresh; [done|]. by rewrite elem_of_dedupe.
  - rewrite IH by done.
    rewrite filter_cons_False by (intros Hc; by apply Hc).
    rewrite filter_ne_fresh; [done|]. by rewrite elem_of_dedupe.
Qed.
End relational.

Section grouping.
Context {K R S : Type} `{EqDecision K}.
Implicit Types (key : R → K) (k : S → K) (f : S → list R).

Lemma filter_all {X} (P : X → Prop) `{!∀ x, Decision (P x)} (l : list X) :
  Forall P l → filter P l = l.
Proof.
  induction 1 as [|x l HP _ IH]; [done|].
  rewrite filter_cons_True by done. by rewrite IH.
Qed.

Lemma filter_none {X} (P : X → Prop) `{!∀ x, Decision (P x)} (l : list X) :
  Forall (λ x, ¬ P x) l → filter P l = [].
Proof.
  induction 1 as [|x l HP _ IH]; [done|].
  by rewrite filter_cons_False.
Qed.

(** Grouping the rows produced source row by source row, when each source
    row produces at least one row, all under one key, and distinct source
    rows have distinct keys: one group per source row, in order. *)
Lemma groupBy_bind key k f (l : list S) :
  NoDup (k <$> l) →
  (∀ a, a ∈ l → f a ≠ [] ∧ Forall (λ r, key r = k a) (f a)) →
  groupBy key (l ≫= f) = (λ a, (k a, f a)) <$> l.
Proof.
  unfold groupBy.
  induction l as [|a l IH]; [done|].
  rewrite fmap_cons, NoDup_cons. intros [Hfresh Hnd] Hrows.
  destruct (Hrows a) as [Hne Hkeys]; [by left|].
  assert (Hrest : Forall (λ r, key r ≠ k a) (l ≫= f)).
  { apply Forall_forall. intros r [b [Hr Hb]]%list_elem_of_bind Heq.
    destruct (Hrows b) as [_ Hb']; [by right|].
    rewrite Forall_forall in Hb'. apply Hfresh.
    apply list_elem_of_fmap. exists b. split; [|done].
    rewrite <- Heq. by apply Hb'. }
  rewrite bind_cons, fmap_app.
  rewrite (dedupe_run _ _ (k a)).
  - rewrite !fmap_cons. f_equal.
    + f_equal. rewrite filter_app, (filter_all _ (f a)) by done.
      rewrite filter_none; [by rewrite app_nil_r|].
      eapply Forall_impl; [exact Hrest|]. done.
    + rewrite <- IH; [|done|intros b Hb; apply Hrows; by right].
      apply list_fmap_ext. intros i kk Hkk. f_equal.
      rewrite filter_app, filter_none; [done|].
      eapply Forall_impl; [exact Hkeys|]. simpl. intros r Hr Hr2.
      apply list_elem_of_lookup_2 in Hkk. rewrite elem_of_dedupe in Hkk.
      apply list_elem_of_fmap in Hkk as [r' [Hk' Hr']].
      rewrite Forall_forall in Hrest. apply (Hrest r' Hr'). congruence.
  - destruct (f a); [done|]. done.
  - apply Forall_fmap. eapply Forall_impl; [exact Hkeys|]. done.
  - intros [r [Hk Hr]]%list_elem_of_fmap.
    rewrite Forall_forall in Hrest. by apply (Hrest r).
Qed.
End grouping.

Section joining.
Context {A B : Type} (on : A → B → Prop) `{!∀ a b, Decision (on a b)}.

Lemma leftJoin_bind {S} (f : S → list A) (l : list S) (t : list B) :
  leftJoin on (l ≫= f) t = l ≫= λ s, leftJoin on (f s) t.
Proof.
  unfold leftJoin. induction l as [|s l IH]; [done|].
  rewrite !bind_cons, bind_app. by rewrite IH.
Qed.

Lemma leftJoin_singleton (a : A) (t : list B) :
  leftJoin on [a] t =
    match filter (on a) t with
    | [] => [(a, None)]
    | bs => (λ b, (a, Some b)) <$> bs
    end.
Proof. unfold leftJoin. simpl. by rewrite app_nil_r. Qed.

Lemma leftJoin_as_bind (l : list A) (t : list B) :
  leftJoin on l t = l ≫= λ a, leftJoin on [a] t.
Proof.
  unfold leftJoin. apply list_bind_ext; [|done].
  intros a. simpl. by rewrite app_nil_r.
Qed.
End joining.

Section unique_match.
Context {B : Type} (key : B → Id).

(** Under a primary key, a condition that fixes the key matches at most
    one row. *)
Lemma filter_unique (P : B → Prop) `{!∀ b, Decision (P b)} (t : list B) :
  NoDup (key <$> t) →
  (∀ b b', P b → P b' → key b = key b') →
  filter P t = [] ∨ ∃ b, filter P t = [b].
Proof.
  intros Hnd Hkey. induction t as [|b t IH]; [by left|].
  rewrite fmap_cons, NoDup_cons in Hnd. destruct Hnd as [Hb Hnd].
  destruct (decide (P b)) as [HP|HP].
  - right. exists b. rewrite filter_cons_True by done. f_equal.
    apply filter_none, Forall_forall. intros b' Hb' HP'.
    apply Hb, list_elem_of_fmap. exists b'. split; [|done]. by apply Hkey.
  - rewrite filter_cons_False by done. by apply IH.
Qed.

Lemma leftJoin_unique {A} (on : A → B → Prop) `{!∀ a b, Decision (on a b)}
    (a : A) (t : list B) :
  NoDup (key <$> t) →
  (∀ b b', on a b → on a b' → key b = key b') →
  leftJoin on [a] t = [(a, head (filter (on a) t))].
Proof.
  intros Hnd Hkey. rewrite leftJoin_singleton.
  destruct (filter_unique (on a) t Hnd Hkey) as [->|[b ->]]; done.
Qed.
End unique_match.

Lemma NoDup_fmap_compose {A B C} (f : A → B) (g : B → C) (l : list A) :
  NoDup ((g ∘ f) <$> l) → NoDup (f <$> l).
Proof. rewrite list_fmap_compose. apply NoDup_fmap_1. Qed.

(** * What the moved-lesson reads return *)

Section moved_reads.
Import MovedLesson.

Lemma from_joined_rows db :
  primary_keys db → from_joined db = movedLesson db ≫= moved_rows db.
Proof.
  intros (_ & _ & Hc & Hp & Hd & _).
  unfold from_joined.
  rewrite (leftJoin_as_bind on_period), !leftJoin_bind.
  apply list_bind_ext; [|done]. intros m. unfold moved_rows, moved_base.
  rewrite (leftJoin_unique period_id on_period) by (done || unfold on_period; congruence).
  rewrite (leftJoin_unique day_id on_day) by (done || unfold on_day; congruence).
  rewrite (leftJoin_unique classroom_id on_room) by (done || unfold on_room; congruence).
  done.
Qed.

Lemma moved_rows_cases db m :
  (moved_rows db m = [(moved_base db m, None)] ∧ moved_links db (ml_id m) = []) ∨
  (∃ x xs, moved_rows db m = (λ y, (moved_base db m, Some y)) <$> (x :: xs) ∧
           moved_links db (ml_id m) = mlm_lessonId <$> (x :: xs)).
Proof.
  unfold moved_rows, moved_links. rewrite leftJoin_singleton.
  change (filter (on_mtm (moved_base db m)) (movedLessonLessonMTM db))
    with (filter (λ x, ml_id m = mlm_movedLessonId x) (movedLessonLessonMTM db)).
  destruct (filter _ (movedLessonLessonMTM db)) as [|x xs]; [by left|].
  right. by exists x, xs.
Qed.

Lemma moved_rows_key db m :
  Forall (λ r, group_key r = group_key (moved_base db m, None)) (moved_rows db m).
Proof.
  destruct (moved_rows_cases db m) as [[-> _]|(x & xs & -> & _)].
  - by constructor.
  - apply Forall_fmap, Forall_forall. done.
Qed.

Lemma array_agg_matched (b : MovedLessonRow * option PeriodRow * option DayDefinitionRow
                            * option ClassroomRow) xs :
  array_agg false ((λ y, (b, Some y)) <$> xs) = mlm_lessonId <$> xs.
Proof.
  unfold array_agg. induction xs as [|y xs IH]; [done|].
  simpl in *. by f_equal.
Qed.

Lemma moved_rows_select db m k :
  select_group false (k, moved_rows db m) = Some (moved_view db m).
Proof.
  unfold select_group, array_agg, moved_view.
  destruct (moved_rows_cases db m) as [[-> ->]|(x & xs & -> & ->)]; [done|].
  pose proof (array_agg_matched (moved_base db m) (x :: xs)) as Hagg.
  unfold array_agg in Hagg. rewrite fmap_cons in *. simpl in *.
  by rewrite Hagg.
Qed.

(** The unfiltered read: one view per override row, in table order. *)
Lemma allMovedLessons_views db :
  primary_keys db → allMovedLessons db = moved_view db <$> movedLesson db.
Proof.
  intros Hpk. unfold allMovedLessons.
  rewrite (from_joined_rows db Hpk).
  rewrite (groupBy_bind group_key (λ m, group_key (moved_base db m, None))).
  - induction (movedLesson db) as [|m ms IH]; [done|].
    rewrite !fmap_cons. cbn [omap list_omap].
    rewrite (moved_rows_select db m). by f_equal.
  - destruct Hpk as (_ & _ & _ & _ & _ & _ & Hm & _).
    apply (NoDup_fmap_compose _ (λ k : GroupKey, k.1.1.1)). exact Hm.
  - intros m _. split; [|apply moved_rows_key].
    destruct (moved_rows_cases db m) as [[-> _]|(x & xs & -> & _)]; done.
Qed.
End moved_reads.

Lemma filter_bind_source {S R} (P : R → Prop) `{!∀ r, Decision (P r)}
    (Q : S → Prop) `{!∀ s, Decision (Q s)} (f : S → list R) (l : list S) :
  (∀ s r, r ∈ f s → (P r ↔ Q s)) →
  filter P (l ≫= f) = filter Q l ≫= f.
Proof.
  intros HPQ. induction l as [|s l IH]; [done|].
  rewrite bind_cons, filter_app, IH.
  destruct (decide (Q s)) as [HQ|HQ].
  - rewrite (filter_cons_True Q) by done. rewrite bind_cons. f_equal.
    apply filter_all, Forall_forall. intros r Hr. by apply (HPQ s).
  - rewrite (filter_cons_False Q) by done.
    rewrite filter_none; [done|].
    apply Forall_forall. intros r Hr HP. by apply HQ, (HPQ s r).
Qed.

Lemma NoDup_fmap_filter {A B} (f : A → B) (P : A → Prop) `{!∀ a, Decision (P a)}
    (l : list A) :
  NoDup (f <$> l) → NoDup (f <$> filter P l).
Proof.
  induction l as [|a l IH]; [done|].
  rewrite fmap_cons, NoDup_cons. intros [Ha Hl].
  destruct (decide (P a)).
  - rewrite filter_cons_True by done. rewrite fmap_cons, NoDup_cons.
    split; [|by apply IH].
    intros [a' [Heq [_ Ha']%list_elem_of_filter]]%list_elem_of_fmap.
    apply Ha, list_elem_of_fmap. by exists a'.
  - rewrite filter_cons_False by done. by apply IH.
Qed.

Section moved_relevant.
Import MovedLesson.

Lemma moved_rows_source db m r : r ∈ moved_rows db m → j_movedLesson r = m.
Proof.
  destruct (moved_rows_cases db m) as [[-> _]|(x & xs & -> & _)].
  - by intros ->%list_elem_of_singleton.
  - by intros [y [-> _]]%list_elem_of_fmap.
Qed.

(** The date-filtered read: the views of the override rows dated
    [todayStr] or later. *)
Lemma relevantMovedLessons_views todayStr db :
  primary_keys db →
  relevantMovedLessons todayStr db
  = moved_view db <$> filter (λ m, todayStr ≤ ml_date m) (movedLesson db).
Proof.
  intros Hpk. unfold relevantMovedLessons.
  rewrite (from_joined_rows db Hpk).
  rewrite (filter_bind_source _ (λ m, todayStr ≤ ml_date m)).
  2:{ intros m r Hr. by rewrite (moved_rows_source db m r Hr). }
  rewrite (groupBy_bind group_key (λ m, group_key (moved_base db m, None))).
  - induction (filter _ (movedLesson db)) as [|m ms IH]; [done|].
    rewrite !fmap_cons. cbn [omap list_omap].
    rewrite (moved_rows_select db m). by f_equal.
  - destruct Hpk as (_ & _ & _ & _ & _ & _ & Hm & _).
    apply (NoDup_fmap_compose _ (λ k : GroupKey, k.1.1.1)).
    by apply NoDup_fmap_filter.
  - intros m _. split; [|apply moved_rows_key].
    destruct (moved_rows_cases db m) as [[-> _]|(x & xs & -> & _)]; done.
Qed.
End moved_relevant.

(** * What the substitution reads return *)

Section substitution_reads.
Import Substitution.

Lemma substitution_from_joined_rows db :
  primary_keys db → from_joined db = substitution db ≫= substitution_rows db.
Proof.
  intros (_ & Ht & _).
  unfold from_joined.
  rewrite (leftJoin_as_bind on_teacher), !leftJoin_bind.
  apply list_bind_ext; [|done]. intros s. unfold substitution_rows, substitution_base.
  rewrite (leftJoin_unique teacher_id on_teacher) by (done || unfold on_teacher; congruence).
  done.
Qed.

Lemma substitution_rows_cases db s :
  (substitution_rows db s = [(substitution_base db s, None)]
   ∧ substitution_links db (sub_id s) = []) ∨
  (∃ x xs, substitution_rows db s = (λ y, (substitution_base db s, Some y)) <$> (x :: xs) ∧
           substitution_links db (sub_id s) = slm_lessonId <$> (x :: xs)).
Proof.
  unfold substitution_rows, substitution_links. rewrite leftJoin_singleton.
  change (filter (on_mtm (substitution_base db s)) (substitutionLessonMTM db))
    with (filter (λ x, sub_id s = slm_substitutionId x) (substitutionLessonMTM db)).
  destruct (filter _ (substitutionLessonMTM db)) as [|x xs]; [by left|].
  right. by exists x, xs.
Qed.

Lemma substitution_rows_key db s :
  Forall (λ r, group_key r = group_key (substitution_base db s, None))
    (substitution_rows db s).
Proof.
  destruct (substitution_rows_cases db s) as [[-> _]|(x & xs & -> & _)].
  - by constructor.
  - apply Forall_fmap, Forall_forall. done.
Qed.

Lemma substitution_rows_source db s r :
  r ∈ substitution_rows db s → j_substitution r = s.
Proof.
  destruct (substitution_rows_cases db s) as [[-> _]|(x & xs & -> & _)].
  - by intros ->%list_elem_of_singleton.
  - by intros [y [-> _]]%list_elem_of_fmap.
Qed.

Lemma substitution_agg_matched (b : SubstitutionRow * option TeacherRow) xs :
  array_agg ((λ y, (b, Some y)) <$> xs) = slm_lessonId <$> xs.
Proof.
  unfold array_agg. induction xs as [|y xs IH]; [done|].
  simpl in *. by f_equal.
Qed.

Lemma substitution_rows_select db s k :
  select_group (k, substitution_rows db s) = Some (substitution_view db s).
Proof.
  unfold select_group, array_agg, substitution_view.
  destruct (substitution_rows_cases db s) as [[-> ->]|(x & xs & -> & ->)]; [done|].
  pose proof (substitution_agg_matched (substitution_base db s) (x :: xs)) as Hagg.
  unfold array_agg in Hagg. rewrite fmap_cons in *. simpl in *.
  by rewrite Hagg.
Qed.

Lemma substitution_groups db (l : list SubstitutionRow) :
  NoDup (sub_id <$> l) →
  omap select_group (groupBy group_key (l ≫= substitution_rows db))
  = substitution_view db <$> l.
Proof.
  intros Hnd.
  rewrite (groupBy_bind group_key (λ s, group_key (substitution_base db s, None))).
  - induction l as [|s ss IH]; [done|].
    rewrite !fmap_cons. cbn [omap list_omap].
    rewrite (substitution_rows_select db s). f_equal. apply IH.
    by apply NoDup_cons in Hnd as [_ ?].
  - by apply (NoDup_fmap_compose _ (λ k : GroupKey, k.1)).
  - intros s _. split; [|apply substitution_rows_key].
    destruct (substitution_rows_cases db s) as [[-> _]|(x & xs & -> & _)]; done.
Qed.

(** The unfiltered read: one view per substitution row, in table order. *)
Lemma allSubstitutions_views db :
  primary_keys db → allSubstitutions db = substitution_view db <$> substitution db.
Proof.
  intros Hpk. unfold allSubstitutions.
  rewrite (substitution_from_joined_rows db Hpk).
  apply substitution_groups. by destruct Hpk as (_ & _ & _ & _ & _ & _ & _ & Hs).
Qed.

(** The date-filtered read: the views of the rows dated [today] or later. *)
Lemma relevantSubstitutions_views today db :
  primary_keys db →
  relevantSubstitutions today db
  = substitution_view db <$> filter (λ s, today ≤ sub_date s) (substitution db).
Proof.
  intros Hpk. unfold relevantSubstitutions.
  rewrite (substitution_from_joined_rows db Hpk).
  rewrite (filter_bind_source _ (λ s, today ≤ sub_date s)).
  2:{ intros s r Hr. by rewrite (substitution_rows_source db s r Hr). }
  apply substitution_groups, NoDup_fmap_filter.
  by destruct Hpk as (_ & _ & _ & _ & _ & _ & _ & Hs).
Qed.
End substitution_reads.

(** * Running handlers *)

Section running.
Context {A B : Type}.

Lemma bind_run (m : M A) (f : A → M B) w :
  (m ≫= f) w =
    match m w with
    | (inr a, w') => f a w'
    | (inl e, w') => (inl e, w')
    end.
Proof. done. Qed.

Lemma bind_success (m : M A) (f : A → M B) w b w' :
  (m ≫= f) w = (inr b, w') →
  ∃ a w1, m w = (inr a, w1) ∧ f a w1 = (inr b, w').
Proof.
  rewrite bind_run. destruct (m w) as [[e|a] w1]; [done|]. by exists a, w1.
Qed.

Lemma query_success (q : DB → A * DB) w a w' :
  query q w = (inr a, w') →
  a = (q (store w)).1 ∧ store w' = (q (store w)).2.
Proof.
  unfold query. destruct (faults w) as [|[] fs]; [|done|];
    destruct (q (store w)) as [a' db]; intros [= <- <-]; done.
Qed.

Lemma select_success (q : DB → A) w a w' :
  select q w = (inr a, w') → a = q (store w) ∧ store w' = store w.
Proof. intros H. by apply query_success in H. Qed.

Lemma try_catch_success (body : M A) msg w a w' :
  try_catch body (internal msg) w = (inr a, w') →
  body w = (inr a, w').
Proof. unfold try_catch. destruct (body w) as [[e|a'] w1]; done. Qed.

Lemma transaction_success (body : M A) w a w' :
  transaction body w = (inr a, w') → body w = (inr a, w').
Proof. unfold transaction. destruct (body w) as [[e|a'] w1]; done. Qed.

Lemma serve_success (h : M A) w a w' :
  serve h w = (Success a, w') → h w = (inr a, w').
Proof.
  unfold serve. destruct (h w) as [[[]|a'] w1]; [done..|]. by intros [= <- <-].
Qed.
End running.

Lemma insert_values_success {R} (rows : list R) ins w u w' :
  insert_values rows ins w = (inr u, w') →
  rows ≠ [] ∧ store w' = ins rows (store w).
Proof.
  unfold insert_values. destruct rows as [|r rows]; [done|].
  intros [_ H]%query_success. done.
Qed.

Lemma ret_success {A} (a b : A) w w' :
  (mret a : M A) w = (inr b, w') → b = a ∧ w' = w.
Proof. by intros [= <- <-]. Qed.

Lemma ret_run {A} (a : A) w : (mret a : M A) w = (inr a, w).
Proof. done. Qed.

Lemma throw_if_success b e w u w' :
  throw_if b e w = (inr u, w') → b = false ∧ w' = w.
Proof. destruct b; [done|]. by intros [= _ <-]. Qed.

(** ** Computations that only read *)

Section keeping.
Context {A B : Type}.

Lemma keeps_ret (a : A) : keeps_store (mret a).
Proof. done. Qed.

Lemma keeps_throw e : keeps_store (throw (A := A) e).
Proof. done. Qed.

Lemma keeps_throw_if b e : keeps_store (throw_if b e).
Proof. by destruct b. Qed.

Lemma keeps_select (q : DB → A) : keeps_store (select q).
Proof. intros w. unfold select, query. by destruct (faults w) as [|[] fs]. Qed.

Lemma keeps_bind (m : M A) (f : A → M B) :
  keeps_store m → (∀ a, keeps_store (f a)) → keeps_store (m ≫= f).
Proof.
  intros Hm Hf w. rewrite bind_run. specialize (Hm w).
  destruct (m w) as [[e|a] w1]; [done|].
  simpl in Hm. rewrite <- Hm. apply Hf.
Qed.
End keeping.

Lemma keeps_result {A} (m : M A) w r w' : keeps_store m → m w = (r, w') → store w' = store w.
Proof. intros Hm Hr. specialize (Hm w). by rewrite Hr in Hm. Qed.

Ltac keeps :=
  repeat first
    [ apply keeps_ret | apply keeps_throw | apply keeps_throw_if | apply keeps_select
    | apply keeps_bind; [|intros ?]
    | match goal with |- keeps_store (match ?x with _ => _ end) => destruct x end
    | match goal with |- keeps_store (if ?x then _ else _) => destruct x end ].

Lemma validateMovedLessonReferences_keeps body :
  keeps_store (MovedLesson.validateMovedLessonReferences body).
Proof.
  unfold MovedLesson.validateMovedLessonReferences, MovedLesson.normalizeOptionalString,
    MovedLesson.normalizeOptionalStringArray, MovedLesson.ensurePeriodExists,
    MovedLesson.ensureDayDefinitionExists, MovedLesson.ensureClassroomExists,
    MovedLesson.ensureLessonsExist.
  keeps.
Qed.

(** * Updating an override *)

Lemma with_mtm_app_nil db :
  MovedLesson.insert_mtm [] db = db.
Proof. unfold MovedLesson.insert_mtm. rewrite app_nil_r. by destruct db. Qed.

(** What a successful moved-lesson update has done to the tables. *)
Lemma updateMovedLesson_success id body w data w' :
  serve (MovedLesson.updateMovedLesson id body) w = (Success data, w') →
  filter (λ m, ml_id m = id) (movedLesson (store w)) ≠ [] ∧
  store w' =
    let updated := (MovedLesson.update_movedLesson (MovedLesson.set_clause body) id (store w)).2 in
    match MovedLesson.array_entries (MovedLesson.lessonIds body) with
    | Some l => moved_replace_links id l updated
    | None => updated
    end.
Proof.
  intros H%serve_success. unfold MovedLesson.updateMovedLesson, internal in H.
  apply try_catch_success in H.
  apply bind_success in H as (u1 & w1 & [_ ->]%throw_if_success & H).
  apply bind_success in H as (u2 & w2 & Hval & H).
  apply (keeps_result _ _ _ _ (validateMovedLessonReferences_keeps body)) in Hval.
  apply bind_success in H as (updated & w3 & Hupd & H).
  assert (updated = (MovedLesson.update_movedLesson (MovedLesson.set_clause body) id (store w)).1
          ∧ store w3 = (MovedLesson.update_movedLesson (MovedLesson.set_clause body) id (store w)).2)
    as [-> Hw3].
  { rewrite <- Hval. destruct (MovedLesson.date body); [|done|];
      (destruct (MovedLesson.no_values _); [done|]); by apply query_success in Hupd. }
  simpl in H.
  destruct (filter (λ m, ml_id m = id) (movedLesson (store w))) as [|m ms] eqn:Hfound; [done|].
  split; [done|]. rewrite fmap_cons in H.
  apply bind_success in H as (u4 & w4 & Hlinks & [= _ <-]).
  cbv zeta. destruct (MovedLesson.array_entries _) as [l|]; [|by apply ret_success in Hlinks as [_ ->]].
  apply bind_success in Hlinks as (u5 & w5 & [_ Hdel]%query_success & Hins).
  simpl in Hdel. unfold moved_replace_links. rewrite <- Hw3, <- Hdel.
  destruct l as [|x l].
  - apply ret_success in Hins as [_ ->]. by rewrite fmap_nil, with_mtm_app_nil.
  - by apply insert_values_success in Hins as [_ ->].
Qed.

Lemma filter_nonempty_elem {A} (f : A → Id) (l : list A) id :
  filter (λ a, f a = id) l ≠ [] ↔ id ∈ f <$> l.
Proof.
  split.
  - destruct (filter _ l) as [|a l'] eqn:Hf; [done|]. intros _.
    assert (a ∈ filter (λ a, f a = id) l) as [Ha Hl]%list_elem_of_filter
      by (rewrite Hf; by left).
    apply list_elem_of_fmap. by exists a.
  - intros [a [-> Ha]]%list_elem_of_fmap Hnil.
    assert (a ∈ filter (λ a', f a' = f a) l) as Hin by by apply list_elem_of_filter.
    rewrite Hnil in Hin. by apply elem_of_nil in Hin.
Qed.

Section moved_update.
Import MovedLesson.

Lemma update_movedLesson_ids s id db :
  ml_id <$> movedLesson (update_movedLesson s id db).2 = ml_id <$> movedLesson db.
Proof.
  simpl. rewrite <- list_fmap_compose. apply list_fmap_ext.
  intros i m _. simpl. by destruct (decide (ml_id m = id)).
Qed.

Lemma update_movedLesson_keys s id db :
  primary_keys db → primary_keys (update_movedLesson s id db).2.
Proof.
  unfold primary_keys. rewrite update_movedLesson_ids. by destruct db.
Qed.

Lemma moved_replace_links_keys id l db :
  primary_keys db → primary_keys (moved_replace_links id l db).
Proof. by destruct db. Qed.

Lemma moved_links_replaced id l db : moved_links (moved_replace_links id l db) id = l.
Proof.
  unfold moved_links, moved_replace_links, insert_mtm, delete_mtm. simpl.
  rewrite filter_app, fmap_app.
  rewrite filter_none.
  2:{ apply Forall_forall. intros x [Hx _]%list_elem_of_filter Heq. by apply Hx. }
  rewrite filter_all by (apply Forall_fmap, Forall_forall; done).
  rewrite <- list_fmap_compose. simpl. apply list_fmap_id.
Qed.

Lemma moved_shown_views db (ms : list MovedLessonRow) id :
  NoDup (ml_id <$> ms) → id ∈ ml_id <$> ms →
  moved_lessons_shown (moved_view db <$> ms) id = [moved_links db id].
Proof.
  intros Hnd Hid. unfold moved_lessons_shown.
  induction ms as [|m ms IH]; [by apply elem_of_nil in Hid|].
  rewrite fmap_cons in *. apply NoDup_cons in Hnd as [Hm Hnd].
  destruct (decide (ml_id m = id)) as [<-|Hne].
  - rewrite filter_cons_True by done. rewrite fmap_cons. simpl. f_equal.
    rewrite filter_none; [done|].
    apply Forall_fmap, Forall_forall. intros m' Hm' Heq. simpl in Heq.
    apply Hm, list_elem_of_fmap. by exists m'.
  - rewrite filter_cons_False by done. apply IH; [done|].
    by apply elem_of_cons in Hid as [?|?].
Qed.

Lemma getAllMovedLessons_success w views w' :
  serve getAllMovedLessons w = (Success views, w') →
  views = allMovedLessons (store w).
Proof.
  intros H%serve_success. unfold getAllMovedLessons, internal in H.
  apply try_catch_success in H. by apply select_success in H as [-> _].
Qed.

(** A successful update, read back. *)
Lemma updateMovedLesson_read_back w id body data w1 views w2 :
  primary_keys (store w) →
  serve (updateMovedLesson id body) w = (Success data, w1) →
  serve getAllMovedLessons w1 = (Success views, w2) →
  moved_lessons_shown views id =
    match array_entries (lessonIds body) with
    | Some l => [l]
    | None => moved_lessons_shown (allMovedLessons (store w)) id
    end.
Proof.
  intros Hpk [Hfound Hstore]%updateMovedLesson_success ->%getAllMovedLessons_success.
  apply filter_nonempty_elem in Hfound.
  pose proof (update_movedLesson_keys (set_clause body) id _ Hpk) as Hpk'.
  pose proof (update_movedLesson_ids (set_clause body) id (store w)) as Hids.
  assert (NoDup (ml_id <$> movedLesson (store w))) as Hnd
    by by destruct Hpk as (_ & _ & _ & _ & _ & _ & Hm & _).
  cbv zeta in Hstore. destruct (array_entries (lessonIds body)) as [l|].
  - rewrite Hstore, allMovedLessons_views by by apply moved_replace_links_keys.
    rewrite moved_shown_views.
    + by rewrite moved_links_replaced.
    + change (movedLesson (moved_replace_links id l ?db)) with (movedLesson db).
      by rewrite Hids.
    + change (movedLesson (moved_replace_links id l ?db)) with (movedLesson db).
      by rewrite Hids.
  - rewrite Hstore, !allMovedLessons_views by done.
    rewrite !moved_shown_views by (rewrite ?Hids; done).
    done.
Qed.
End moved_update.

Section substitution_update.
Import Substitution.

(** What a successful substitution update has done to the tables. *)
Lemma updateSubstitution_success id body w data w' :
  serve (updateSubstitution id body) w = (Success data, w') →
  id ∈ sub_id <$> substitution (store w) ∧
  store w' =
    let updated := (update_substitution (set_clause body) id (store w)).2 in
    match lessonIds body with
    | Some l => substitution_replace_links id l updated
    | None => updated
    end.
Proof.
  intros H%serve_success. unfold updateSubstitution, internal in H.
  apply try_catch_success in H.
  apply bind_success in H as (u1 & w1 & [_ ->]%throw_if_success & H).
  apply bind_success in H as (existing & w2 & [-> Hw2]%select_success & H).
  apply bind_success in H as (u3 & w3 & [Hex ->]%throw_if_success & H).
  apply bind_success in H as (u4 & w4 & Hdate & H).
  assert (store w4 = store w) as Hw4.
  { rewrite <- Hw2. eapply keeps_result; [|exact Hdate]. keeps. }
  apply bind_success in H as (u5 & w5 & Hcount & H).
  assert (store w5 = store w) as Hw5.
  { rewrite <- Hw4. eapply keeps_result; [|exact Hcount]. keeps. }
  split.
  { apply filter_nonempty_elem. intros Hnil. by rewrite Hnil in Hex. }
  apply transaction_success in H.
  apply bind_success in H as (updated & w6 & Hupd & H).
  assert (store w6 = (update_substitution (set_clause body) id (store w)).2) as Hw6.
  { rewrite <- Hw5. destruct (date body); [|done|];
      (destruct (no_values _); [done|]); by apply query_success in Hupd as [_ ?]. }
  apply bind_success in H as (u7 & w7 & Hlinks & [_ ->]%ret_success).
  cbv zeta. destruct (lessonIds body) as [l|]; [|by apply ret_success in Hlinks as [_ ->]].
  apply bind_success in Hlinks as (u8 & w8 & [_ Hdel]%query_success & Hins).
  simpl in Hdel. unfold substitution_replace_links. rewrite <- Hw6, <- Hdel.
  by apply insert_values_success in Hins as [_ ->].
Qed.

Lemma update_substitution_ids s id db :
  sub_id <$> substitution (update_substitution s id db).2 = sub_id <$> substitution db.
Proof.
  simpl. rewrite <- list_fmap_compose. apply list_fmap_ext.
  intros i r _. simpl. by destruct (decide (sub_id r = id)).
Qed.

Lemma update_substitution_keys s id db :
  primary_keys db → primary_keys (update_substitution s id db).2.
Proof.
  unfold primary_keys. rewrite update_substitution_ids. by destruct db.
Qed.

Lemma substitution_replace_links_keys id l db :
  primary_keys db → primary_keys (substitution_replace_links id l db).
Proof. by destruct db. Qed.

Lemma substitution_links_replaced id l db :
  substitution_links (substitution_replace_links id l db) id = l.
Proof.
  unfold substitution_links, substitution_replace_links, insert_mtm, delete_mtm. simpl.
  rewrite filter_app, fmap_app.
  rewrite filter_none.
  2:{ apply Forall_forall. intros x [Hx _]%list_elem_of_filter Heq. by apply Hx. }
  rewrite filter_all by (apply Forall_fmap, Forall_forall; done).
  rewrite <- list_fmap_compose. simpl. apply list_fmap_id.
Qed.

Lemma substitution_shown_views db (ss : list SubstitutionRow) id :
  NoDup (sub_id <$> ss) → id ∈ sub_id <$> ss →
  substitution_lessons_shown (substitution_view db <$> ss) id = [substitution_links db id].
Proof.
  intros Hnd Hid. unfold substitution_lessons_shown.
  induction ss as [|s ss IH]; [by apply elem_of_nil in Hid|].
  rewrite fmap_cons in *. apply NoDup_cons in Hnd as [Hs Hnd].
  destruct (decide (sub_id s = id)) as [<-|Hne].
  - rewrite filter_cons_True by done. rewrite fmap_cons. simpl. f_equal.
    rewrite filter_none; [done|].
    apply Forall_fmap, Forall_forall. intros s' Hs' Heq. simpl in Heq.
    apply Hs, list_elem_of_fmap. by exists s'.
  - rewrite filter_cons_False by done. apply IH; [done|].
    by apply elem_of_cons in Hid as [?|?].
Qed.

Lemma getAllSubstitutions_success w views w' :
  serve getAllSubstitutions w = (Success views, w') →
  views = allSubstitutions (store w).
Proof.
  intros H%serve_success. unfold getAllSubstitutions, internal in H.
  apply try_catch_success in H. by apply select_success in H as [-> _].
Qed.

Lemma updateSubstitution_read_back w id body data w1 views w2 :
  primary_keys (store w) →
  serve (updateSubstitution id body) w = (Success data, w1) →
  serve getAllSubstitutions w1 = (Success views, w2) →
  substitution_lessons_shown views id =
    match lessonIds body with
    | Some l => [l]
    | None => substitution_lessons_shown (allSubstitutions (store w)) id
    end.
Proof.
  intros Hpk [Hfound Hstore]%updateSubstitution_success ->%getAllSubstitutions_success.
  pose proof (update_substitution_keys (set_clause body) id _ Hpk) as Hpk'.
  pose proof (update_substitution_ids (set_clause body) id (store w)) as Hids.
  assert (NoDup (sub_id <$> substitution (store w))) as Hnd
    by by destruct Hpk as (_ & _ & _ & _ & _ & _ & _ & Hs).
  cbv zeta in Hstore. destruct (lessonIds body) as [l|].
  - rewrite Hstore, allSubstitutions_views by by apply substitution_replace_links_keys.
    rewrite substitution_shown_views.
    + by rewrite substitution_links_replaced.
    + change (substitution (substitution_replace_links id l ?db)) with (substitution db).
      by rewrite Hids.
    + change (substitution (substitution_replace_links id l ?db)) with (substitution db).
      by rewrite Hids.
  - rewrite Hstore, !allSubstitutions_views by done.
    rewrite !substitution_shown_views by (rewrite ?Hids; done).
    done.
Qed.
End substitution_update.

(** * Enrichment of the lessons of a cohort *)

Lemma with_store_same w : with_store (store w) w = w.
Proof. by destruct w. Qed.

Lemma select_no_faults {A} (q : DB → A) w :
  faults w = [] → select q w = (inr (q (store w)), w).
Proof. intros Hf. unfold select, query. by rewrite Hf, with_store_same. Qed.

Section maps.
Import Lesson.
Context {R : Type} (key : R → Id).

Lemma toMap_foldl_None (m : gmap Id R) rows k :
  foldl (λ m r, <[key r := r]> m) m rows !! k = None ↔
  m !! k = None ∧ k ∉ key <$> rows.
Proof.
  revert m. induction rows as [|r rows IH]; intros m; simpl.
  - rewrite elem_of_nil. tauto.
  - rewrite IH, not_elem_of_cons, lookup_insert_None. intuition congruence.
Qed.

Lemma toMap_foldl_Some (m : gmap Id R) rows k r :
  foldl (λ m r, <[key r := r]> m) m rows !! k = Some r →
  m !! k = Some r ∨ (key r = k ∧ r ∈ rows).
Proof.
  revert m. induction rows as [|r' rows IH]; intros m; simpl; [by left|].
  intros [Hm|[Hk Hr]]%IH.
  - apply lookup_insert_Some in Hm as [[<- <-]|[_ Hm]]; [|by left].
    right. split; [done|by left].
  - right. split; [done|by right].
Qed.

Lemma toMap_None rows k : toMap key rows !! k = None ↔ k ∉ key <$> rows.
Proof. unfold toMap. rewrite toMap_foldl_None, lookup_empty. tauto. Qed.

Lemma toMap_Some rows k r : toMap key rows !! k = Some r → key r = k ∧ r ∈ rows.
Proof.
  unfold toMap. intros [Hm|H]%toMap_foldl_Some; [|done].
  by rewrite lookup_empty in Hm.
Qed.

(** The rows fetched for a batch of ids resolve exactly the ids of the
    batch that the table holds. *)
Lemma fetched_None (table : list R) ids k :
  k ∈ ids →
  toMap key (filter (λ r, inArray (key r) ids) table) !! k = None ↔ k ∉ key <$> table.
Proof.
  intros Hk. rewrite toMap_None. apply not_iff_compat.
  rewrite !list_elem_of_fmap. split.
  - intros [r [-> [_ Hr]%list_elem_of_filter]]. by exists r.
  - intros [r [-> Hr]]. exists r. split; [done|]. by apply list_elem_of_filter.
Qed.

(** Looking a list of ids up in a map and keeping what is found keeps
    the ids that resolve, in order. *)
Lemma resolved_ids (mp : gmap Id R) (known : list Id) (ids : list Id) :
  (∀ id, id ∈ ids → mp !! id = None ↔ id ∉ known) →
  (∀ id r, mp !! id = Some r → key r = id) →
  key <$> omap (λ id, mp !! id) ids = filter (λ id, id ∈ known) ids.
Proof.
  intros Hnone Hsome. induction ids as [|id ids IH]; [done|].
  change (omap (λ id, mp !! id) (id :: ids))
    with (match mp !! id with
          | Some r => r :: omap (λ id, mp !! id) ids
          | None => omap (λ id, mp !! id) ids
          end).
  assert (∀ id', id' ∈ ids → mp !! id' = None ↔ id' ∉ known) as Hrest
    by (intros id' Hid'; apply Hnone; by right).
  destruct (mp !! id) as [r|] eqn:Hid.
  - rewrite fmap_cons, (Hsome id r Hid), IH by done.
    rewrite filter_cons_True; [done|].
    destruct (decide (id ∈ known)) as [|Hn]; [done|].
    apply Hnone in Hn; [congruence|by left].
  - rewrite IH by done. rewrite filter_cons_False; [done|].
    apply Hnone; [by left|done].
Qed.
End maps.

Section enrichment.
Import Lesson.

(** With a storage layer that fails no call, the handler answers a known
    cohort with one enriched record per lesson of the cohort. *)
Lemma getLessonsForCohort_run w cohortId :
  faults w = [] → cohortId ≠ "" → cohortId ∈ cohort_id <$> cohort (store w) →
  serve (getLessonsForCohort cohortId) w
  = (Success (enrich_batch (store w) (lessonsOfCohort cohortId (store w))
                <$> lessonsOfCohort cohortId (store w)), w).
Proof.
  intros Hf Hid Hcohort. unfold serve, getLessonsForCohort.
  assert (truthy_string cohortId = true) as -> by (unfold truthy_string; by case_bool_decide).
  simpl negb. unfold throw_if.
  rewrite bind_run, ret_run.
  rewrite bind_run, select_no_faults by done.
  apply filter_nonempty_elem in Hcohort.
  destruct (filter (λ c, cohort_id c = cohortId) (cohort (store w))) as [|c cs]; [done|].
  rewrite bool_decide_eq_false_2 by done.
  rewrite bind_run, ret_run.
  rewrite bind_run, select_no_faults by done.
  destruct (lessonsOfCohort cohortId (store w)) as [|l ls] eqn:Hls; [done|].
  do 3 rewrite bind_run, select_no_faults by done.
  unfold enrich_batch.
  destruct (dedupe ((l :: ls) ≫= λ l, arrayOrEmpty (lesson_teacherIds l))) as [|t ts];
    rewrite bind_run, ?ret_run, ?select_no_faults by done;
    (destruct (dedupe ((l :: ls) ≫= λ l, arrayOrEmpty (lesson_classroomIds l)))
       as [|r rs];
     rewrite bind_run, ?ret_run, ?select_no_faults by done);
    done.
Qed.

Lemma batch_ids_None {R} (key : R → Id) (table : list R) (ids : list Id) k :
  k ∈ ids →
  toMap key (match ids with
             | [] => []
             | _ => filter (λ r, inArray (key r) ids) table
             end) !! k = None ↔ k ∉ key <$> table.
Proof.
  intros Hk. destruct ids as [|i ids]; [by apply elem_of_nil in Hk|].
  by apply fetched_None.
Qed.

(** One lesson of a batch, enriched. *)
Lemma enrich_batch_tolerant db (lessons : list LessonRow) l :
  l ∈ lessons →
  e_id (enrich_batch db lessons l) = lesson_id l ∧
  n_id <$> e_teachers (enrich_batch db lessons l)
    = filter (λ id, id ∈ teacher_id <$> teacher db) (arrayOrEmpty (lesson_teacherIds l)) ∧
  n_id <$> e_classrooms (enrich_batch db lessons l)
    = filter (λ id, id ∈ classroom_id <$> classroom db)
        (arrayOrEmpty (lesson_classroomIds l)) ∧
  (e_subject (enrich_batch db lessons l) = None
     ↔ lesson_subjectId l ∉ subject_id <$> subject db) ∧
  (e_period (enrich_batch db lessons l) = None
     ↔ lesson_periodId l ∉ period_id <$> period db).
Proof.
  intros Hl. unfold enrich_batch, enrich. cbn [e_id e_teachers e_classrooms e_subject e_period].
  split; [done|]. split; [|split; [|split]].
  - rewrite <- list_fmap_compose.
    rewrite (list_fmap_ext (n_id ∘ teacherView) teacher_id _) by done.
    apply resolved_ids.
    + intros id Hid. apply batch_ids_None, elem_of_dedupe, list_elem_of_bind.
      by exists l.
    + intros id t Ht. by apply toMap_Some in Ht as [? _].
  - rewrite <- list_fmap_compose.
    rewrite (list_fmap_ext (n_id ∘ classroomView) classroom_id _) by done.
    apply resolved_ids.
    + intros id Hid. apply batch_ids_None, elem_of_dedupe, list_elem_of_bind.
      by exists l.
    + intros id t Ht. by apply toMap_Some in Ht as [? _].
  - rewrite fmap_None. apply fetched_None, elem_of_dedupe, list_elem_of_fmap.
    by exists l.
  - rewrite fmap_None. apply fetched_None, elem_of_dedupe, list_elem_of_fmap.
    by exists l.
Qed.
End enrichment.

(** Closed decidable facts, by evaluation. *)
Ltac by_evaluation := apply (bool_decide_unpack _); vm_compute; exact I.

(** * Failures *)

Lemma serve_failure {D} (h : M D) w st msg w' :
  serve h w = (Failure st msg, w') → ∃ e, h w = (inl e, w').
Proof.
  unfold serve. destruct (h w) as [[e|d] w1]; [|done].
  intros Hs. exists e. destruct e; by injection Hs as _ _ <-.
Qed.

(** A handler whose body sits in [try { .. } catch] answers every failure
    with 500 and its own message, whatever the body threw. *)
Lemma caught_failure_is_internal {D} (body : M D) message w st msg w' :
  serve (try_catch body (internal message)) w = (Failure st msg, w') →
  st = INTERNAL_SERVER_ERROR ∧ msg = message.
Proof.
  unfold serve, try_catch, internal, throw.
  destruct (body w) as [[e|d] w1]; [|done]. by intros [= <- <- _].
Qed.

(** ** All-or-nothing computations *)

Lemma keeps_all_or_nothing {A} (m : M A) : keeps_store m → all_or_nothing m.
Proof. intros Hm w e w' Hrun. by eapply keeps_result. Qed.

Lemma transaction_all_or_nothing {A} (body : M A) : all_or_nothing (transaction body).
Proof.
  intros w e w'. unfold transaction.
  destruct (body w) as [[e'|a] w1]; [|done]. by intros [= _ <-].
Qed.

Lemma bind_all_or_nothing {A B} (m : M A) (f : A → M B) :
  keeps_store m → (∀ a, all_or_nothing (f a)) → all_or_nothing (m ≫= f).
Proof.
  intros Hm Hf w e w'. rewrite bind_run. specialize (Hm w).
  destruct (m w) as [[e'|a] w1]; simpl in Hm.
  - by intros [= _ <-].
  - intros Hrun. rewrite <- Hm. by eapply Hf.
Qed.

Lemma try_catch_all_or_nothing {A} (body : M A) message :
  all_or_nothing body → all_or_nothing (try_catch body (internal message)).
Proof.
  intros Hbody w e w'. unfold try_catch, internal, throw. specialize (Hbody w).
  destruct (body w) as [[e'|a] w1]; [|done].
  intros [= _ <-]. by eapply Hbody.
Qed.

Lemma createSubstitution_all_or_nothing body :
  all_or_nothing (Substitution.createSubstitution body).
Proof.
  unfold Substitution.createSubstitution.
  destruct (Substitution.lessonIds body) as [l|]; [|by apply keeps_all_or_nothing; keeps].
  destruct (truthy_date _); [|by apply keeps_all_or_nothing; keeps].
  destruct (Substitution.date body); try (by apply keeps_all_or_nothing; keeps).
  apply bind_all_or_nothing; [keeps|]. intros n.
  apply bind_all_or_nothing; [keeps|]. intros _.
  apply transaction_all_or_nothing.
Qed.

Lemma updateSubstitution_all_or_nothing id body :
  all_or_nothing (Substitution.updateSubstitution id body).
Proof.
  unfold Substitution.updateSubstitution.
  apply try_catch_all_or_nothing.
  repeat (apply bind_all_or_nothing; [keeps|intros ?]).
  apply transaction_all_or_nothing.
Qed.

(** The substitution writes are atomic: a create or an update that fails,
    for whatever reason and at whatever storage call, leaves every table as
    it was. *)
Theorem substitution_writes_are_atomic (w : World) (id : Id) (body : Substitution.Body) :
  (∀ st msg w',
     serve (Substitution.createSubstitution body) w = (Failure st msg, w') →
     store w' = store w) ∧
  (∀ st msg w',
     serve (Substitution.updateSubstitution id body) w = (Failure st msg, w') →
     store w' = store w).
Proof.
  split; intros st msg w' [e He]%serve_failure.
  - by eapply createSubstitution_all_or_nothing.
  - by eapply updateSubstitution_all_or_nothing.
Qed.

(** No update and no delete of an override is ever answered with 404,
    whatever the tables hold and whatever the storage layer does. *)
Theorem overrides_never_answer_not_found (w : World) (id : Id)
    (mbody : MovedLesson.Body) (sbody : Substitution.Body) (msg : string) (w' : World) :
  serve (MovedLesson.updateMovedLesson id mbody) w ≠ (Failure NOT_FOUND msg, w') ∧
  serve (MovedLesson.deleteMovedLesson id) w ≠ (Failure NOT_FOUND msg, w') ∧
  serve (Substitution.updateSubstitution id sbody) w ≠ (Failure NOT_FOUND msg, w') ∧
  serve (Substitution.deleteSubstitution id) w ≠ (Failure NOT_FOUND msg, w').
Proof.
  repeat split; intros H; by apply caught_failure_is_internal in H as [? _].
Qed.

(** * The version selector *)

Section version_selector.
Import Timetable.

Lemma desc_validFrom_transitive : Transitive desc_validFrom.
Proof. intros a b c. unfold desc_validFrom. lia. Qed.

Lemma desc_validFrom_total : Total desc_validFrom.
Proof. intros a b. unfold desc_validFrom. lia. Qed.

(** What the selector returns: a timetable that starts today or later, and
    no timetable of the table starts after it. *)
Theorem latestValid_selected (today : Day) (db : DB) (r : TimetableRow) :
  latestValid today db = [r] →
  r ∈ timetable db ∧
  today ≤ timetable_validFrom r ∧
  ∀ t, t ∈ timetable db → timetable_validFrom t ≤ timetable_validFrom r.
Proof.
  unfold latestValid.
  pose proof (@StronglySorted_merge_sort _ desc_validFrom _
                desc_validFrom_transitive desc_validFrom_total
                (filter (λ t, today ≤ timetable_validFrom t) (timetable db))) as Hsorted.
  pose proof (merge_sort_Permutation desc_validFrom
                (filter (λ t, today ≤ timetable_validFrom t) (timetable db))) as Hperm.
  destruct (merge_sort _ _) as [|r' rest]; [done|]. intros [= ->].
  apply StronglySorted_inv in Hsorted as [_ Hrest]. rewrite Forall_forall in Hrest.
  assert (r ∈ filter (λ t, today ≤ timetable_validFrom t) (timetable db))
    as [Hr Hin]%list_elem_of_filter by (rewrite <- Hperm; by left).
  repeat split; [done..|]. intros t Ht.
  destruct (decide (today ≤ timetable_validFrom t)) as [Hge|Hlt]; [|lia].
  assert (t ∈ r :: rest) as [->|Ht']%elem_of_cons
    by (rewrite Hperm; by apply list_elem_of_filter).
  - done.
  - by apply Hrest.
Qed.

Lemma latestValid_selected_witness :
  Timetable.latestValid Scenario.d2025_06_01 Scenario.two_timetables
    = [Scenario.timetableRow "TT-2026" Scenario.d2026_01_01] ∧
  Scenario.timetableRow "TT-2026" Scenario.d2026_01_01 ∈ timetable Scenario.two_timetables ∧
  Scenario.d2025_06_01 ≤ Scenario.d2026_01_01 ∧
  ∀ t, t ∈ timetable Scenario.two_timetables →
       timetable_validFrom t ≤ Scenario.d2026_01_01.
Proof.
  split; [vm_compute; reflexivity|].
  exact (latestValid_selected Scenario.d2025_06_01 Scenario.two_timetables
           (Scenario.timetableRow "TT-2026" Scenario.d2026_01_01) eq_refl).
Defined.

(** It finds nothing exactly when every timetable started before today. *)
Theorem latestValid_nothing (today : Day) (db : DB) :
  latestValid today db = [] ↔ ∀ t, t ∈ timetable db → timetable_validFrom t < today.
Proof.
  unfold latestValid.
  pose proof (merge_sort_Permutation desc_validFrom
                (filter (λ t, today ≤ timetable_validFrom t) (timetable db))) as Hperm.
  split.
  - intros Hnil t Ht.
    destruct (decide (today ≤ timetable_validFrom t)) as [Hge|Hlt]; [|lia].
    assert (t ∈ merge_sort desc_validFrom
                  (filter (λ t, today ≤ timetable_validFrom t) (timetable db))) as Hin
      by (rewrite Hperm; by apply list_elem_of_filter).
    destruct (merge_sort _ _); [by apply elem_of_nil in Hin|done].
  - intros Hall.
    assert (filter (λ t, today ≤ timetable_validFrom t) (timetable db) = []) as ->; [|done].
    apply filter_none, Forall_forall. intros t Ht. specialize (Hall t Ht). lia.
Qed.
End version_selector.

(** * Reads that deduplicate *)

(** The two cohort reads of moved lessons show no lesson id twice, whatever
    the link table holds. *)
Theorem cohort_reads_deduplicate (cohortId : Id) (todayStr : Day) (db : DB)
    (v : MovedLesson.View) :
  v ∈ MovedLesson.movedLessonsForCohort cohortId db ∨
  v ∈ MovedLesson.relevantMovedLessonsForCohort cohortId todayStr db →
  NoDup (MovedLesson.v_lessons v).
Proof.
  intros [H|H]; apply list_elem_of_omap in H as (g & _ & Hg);
    unfold MovedLesson.select_cohort_group, MovedLesson.select_group in Hg; simpl in Hg;
    (destruct (_ <$> g.2); [done|]); injection Hg as <-; simpl; apply NoDup_dedupe.
Qed.

Lemma cohort_reads_deduplicate_witness :
  let v := {| MovedLesson.v_classroom := None; MovedLesson.v_dayDefinition := None;
              MovedLesson.v_lessons := ["L1"];
              MovedLesson.v_movedLesson := Scenario.movedRow "M1" Scenario.d2025_03_10;
              MovedLesson.v_period := None |} in
  v ∈ MovedLesson.movedLessonsForCohort "K1" Scenario.with_duplicate_links ∧
  NoDup (MovedLesson.v_lessons v).
Proof.
  intros v.
  assert (v ∈ MovedLesson.movedLessonsForCohort "K1" Scenario.with_duplicate_links) as Hin
    by (vm_compute; left).
  split; [exact Hin|].
  exact (cohort_reads_deduplicate "K1" Scenario.d2025_03_10 Scenario.with_duplicate_links
           v (or_introl Hin)).
Defined.

(** * The count check of the substitution writes *)

(** Under the primary key of [lesson], the count of the lessons named by a
    list with a repeated id is smaller than the length of the list. *)
Lemma count_lessons_repeated (ids : list Id) (db : DB) :
  NoDup (lesson_id <$> lesson db) → ¬ NoDup ids →
  (count_lessons ids db < length ids)%nat.
Proof.
  intros Hpk Hdup. unfold count_lessons.
  set (found := filter (λ l, inArray (lesson_id l) ids) (lesson db)).
  assert (NoDup (lesson_id <$> found)) as Hnd by by apply NoDup_fmap_filter.
  assert (lesson_id <$> found ⊆+ ids) as Hsub.
  { apply NoDup_submseteq; [done|].
    intros x [l [-> [Hl _]%list_elem_of_filter]]%list_elem_of_fmap. done. }
  pose proof (submseteq_length _ _ Hsub) as Hlen. rewrite length_fmap in Hlen.
  destruct (decide (length found = length ids)) as [Heq|]; [|lia].
  exfalso. apply Hdup.
  assert (lesson_id <$> found ≡ₚ ids) as <-; [|done].
  apply submseteq_length_Permutation; [done|]. rewrite length_fmap. lia.
Qed.

(** Creating a substitution with a repeated lesson id is answered with the
    400 of the lesson mismatch, and nothing is written. *)
Theorem createSubstitution_rejects_repeated_ids
    (w : World) (d : Day) (ids : list Id) (t : option Id) :
  faults w = [] → NoDup (lesson_id <$> lesson (store w)) → ¬ NoDup ids →
  serve (Substitution.createSubstitution
           {| Substitution.date := DateOn d; Substitution.lessonIds := Some ids;
              Substitution.substituter := t |}) w
  = (Failure BAD_REQUEST
       ("attempted to substitute non-existent lesson(s), wanted: "
        +:+ pretty (length ids) +:+ ", got: " +:+ pretty (count_lessons ids (store w))),
     w).
Proof.
  intros Hf Hpk Hdup. pose proof (count_lessons_repeated ids (store w) Hpk Hdup) as Hlt.
  unfold serve, Substitution.createSubstitution. simpl.
  rewrite bind_run, select_no_faults by done.
  rewrite bind_run. rewrite bool_decide_eq_false_2 by lia. done.
Qed.

Lemma createSubstitution_rejects_repeated_ids_witness :
  faults (Scenario.calm Scenario.school) = [] ∧
  NoDup (lesson_id <$> lesson (store (Scenario.calm Scenario.school))) ∧
  ¬ NoDup ["L1"; "L1"] ∧
  serve (Substitution.createSubstitution
           {| Substitution.date := DateOn Scenario.d2025_03_10;
              Substitution.lessonIds := Some ["L1"; "L1"];
              Substitution.substituter := Some "T2" |}) (Scenario.calm Scenario.school)
  = (Failure BAD_REQUEST
       ("attempted to substitute non-existent lesson(s), wanted: "
        +:+ pretty (length ["L1"; "L1"]) +:+ ", got: "
        +:+ pretty (count_lessons ["L1"; "L1"] (store (Scenario.calm Scenario.school)))),
     Scenario.calm Scenario.school).
Proof.
  assert (NoDup (lesson_id <$> lesson (store (Scenario.calm Scenario.school)))) as Hpk
    by by_evaluation.
  assert (¬ NoDup ["L1"; "L1"]) as Hdup by by_evaluation.
  split; [reflexivity|]. split; [exact Hpk|]. split; [exact Hdup|].
  exact (createSubstitution_rejects_repeated_ids (Scenario.calm Scenario.school)
           Scenario.d2025_03_10 ["L1"; "L1"] (Some "T2") eq_refl Hpk Hdup).
Defined.

(** * The date of the relevant reads *)

(** West of UTC and in UTC, local midnight lies on the local calendar day
    in UTC as well. *)
Lemma setHours0_west (tz t : Z) :
  -1440 < tz ≤ 0 → toISODate (setHours0 tz t) = toLocaleDate tz t.
Proof.
  intros Htz. unfold toISODate, setHours0, MS_PER_DAY, MS_PER_MINUTE.
  symmetry. apply (Z.div_unique _ _ _ (- tz * 60000)); lia.
Qed.

(** East of UTC, local midnight lies on the previous day in UTC. *)
Lemma setHours0_east (tz t : Z) :
  0 < tz ≤ 1440 → toISODate (setHours0 tz t) = toLocaleDate tz t - 1.
Proof.
  intros Htz. unfold toISODate, setHours0, MS_PER_DAY, MS_PER_MINUTE.
  symmetry. apply (Z.div_unique _ _ _ (86400000 - tz * 60000)); lia.
Qed.

Lemma getRelevantMovedLessons_run (w : World) :
  primary_keys (store w) → faults w = [] →
  serve MovedLesson.getRelevantMovedLessons w
  = (Success (moved_view (store w) <$>
                filter (λ m, toISODate (setHours0 (tz_offset w) (clock w)) ≤ ml_date m)
                  (movedLesson (store w))), w).
Proof.
  intros Hpk Hf.
  unfold serve, MovedLesson.getRelevantMovedLessons, try_catch, MovedLesson.todayStr.
  rewrite !bind_run. unfold newDate, timeZone. simpl.
  rewrite select_no_faults by done.
  by rewrite relevantMovedLessons_views.
Qed.

Lemma getRelevantSubstitutions_run (w : World) :
  primary_keys (store w) → faults w = [] →
  serve Substitution.getRelevantSubstitutions w
  = (Success (substitution_view (store w) <$>
                filter (λ s, toISODate (clock w) ≤ sub_date s) (substitution (store w))), w).
Proof.
  intros Hpk Hf.
  unfold serve, Substitution.getRelevantSubstitutions, try_catch, Substitution.today.
  rewrite !bind_run. unfold newDate. simpl.
  rewrite select_no_faults by done.
  by rewrite relevantSubstitutions_views.
Qed.

(** On a server in UTC or west of it, the relevant moved lessons are those
    dated the local calendar day or later: one dated today is shown, one
    dated yesterday is not. *)
Theorem relevant_moved_lessons_west_of_utc (w : World) (m : MovedLessonRow) :
  primary_keys (store w) → faults w = [] → -1440 < tz_offset w ≤ 0 →
  m ∈ movedLesson (store w) →
  ∃ views,
    serve MovedLesson.getRelevantMovedLessons w = (Success views, w) ∧
    (ml_date m = toLocaleDate (tz_offset w) (clock w) → moved_view (store w) m ∈ views) ∧
    (ml_date m = toLocaleDate (tz_offset w) (clock w) - 1 →
     ∀ v, v ∈ views → MovedLesson.v_movedLesson v ≠ m).
Proof.
  intros Hpk Hf Htz Hm. eexists. split; [by apply getRelevantMovedLessons_run|].
  rewrite setHours0_west by done. split.
  - intros Hd. apply list_elem_of_fmap. exists m. split; [done|].
    apply list_elem_of_filter. split; [lia|done].
  - intros Hd v [m' [-> [Hge _]%list_elem_of_filter]]%list_elem_of_fmap. simpl.
    intros ->. lia.
Qed.

(** East of UTC (up to a day), a moved lesson dated the previous local
    calendar day is shown as relevant. *)
Theorem relevant_moved_lessons_east_of_utc (w : World) (m : MovedLessonRow) :
  primary_keys (store w) → faults w = [] → 0 < tz_offset w ≤ 1440 →
  m ∈ movedLesson (store w) →
  ml_date m = toLocaleDate (tz_offset w) (clock w) - 1 →
  ∃ views,
    serve MovedLesson.getRelevantMovedLessons w = (Success views, w) ∧
    moved_view (store w) m ∈ views.
Proof.
  intros Hpk Hf Htz Hm Hd. eexists. split; [by apply getRelevantMovedLessons_run|].
  rewrite setHours0_east by done.
  apply list_elem_of_fmap. exists m. split; [done|].
  apply list_elem_of_filter. split; [lia|done].
Qed.

(** The relevant substitutions are those dated the calendar day of the
    clock in UTC or later, in every time zone: one dated that day is shown,
    one dated the day before is not. *)
Theorem relevant_substitutions_by_utc_date (w : World) (s : SubstitutionRow) :
  primary_keys (store w) → faults w = [] → s ∈ substitution (store w) →
  ∃ views,
    serve Substitution.getRelevantSubstitutions w = (Success views, w) ∧
    (sub_date s = toISODate (clock w) → substitution_view (store w) s ∈ views) ∧
    (sub_date s = toISODate (clock w) - 1 →
     ∀ v, v ∈ views → Substitution.v_substitution v ≠ s).
Proof.
  intros Hpk Hf Hs. eexists. split; [by apply getRelevantSubstitutions_run|]. split.
  - intros Hd. apply list_elem_of_fmap. exists s. split; [done|].
    apply list_elem_of_filter. split; [lia|done].
  - intros Hd v [s' [-> [Hge _]%list_elem_of_filter]]%list_elem_of_fmap. simpl.
    intros ->. lia.
Qed.

(** Budapest in winter, New York in winter, and UTC, on 2025-03-10. *)
Lemma relevant_moved_lessons_east_of_utc_witness :
  let w := Scenario.world Scenario.with_yesterday_and_today []
             (Scenario.at_utc Scenario.d2025_03_10 11) 60 in
  let m := Scenario.movedRow "M0" Scenario.d2025_03_09 in
  primary_keys (store w) ∧ faults w = [] ∧ 0 < tz_offset w ≤ 1440 ∧
  m ∈ movedLesson (store w) ∧
  ml_date m = toLocaleDate (tz_offset w) (clock w) - 1 ∧
  ∃ views,
    serve MovedLesson.getRelevantMovedLessons w = (Success views, w) ∧
    moved_view (store w) m ∈ views.
Proof.
  intros w m.
  assert (primary_keys (store w)) as Hpk by by_evaluation.
  assert (0 < tz_offset w ≤ 1440) as Htz by (vm_compute; split; congruence).
  assert (m ∈ movedLesson (store w)) as Hm by by_evaluation.
  split; [exact Hpk|]. split; [reflexivity|]. split; [exact Htz|]. split; [exact Hm|].
  split; [reflexivity|].
  exact (relevant_moved_lessons_east_of_utc w m Hpk eq_refl Htz Hm eq_refl).
Defined.

Lemma relevant_moved_lessons_west_of_utc_witness :
  let w := Scenario.world Scenario.with_yesterday_and_today []
             (Scenario.at_utc Scenario.d2025_03_10 17) (-300) in
  let m := Scenario.movedRow "M0" Scenario.d2025_03_09 in
  primary_keys (store w) ∧ faults w = [] ∧ -1440 < tz_offset w ≤ 0 ∧
  m ∈ movedLesson (store w) ∧
  ∃ views,
    serve MovedLesson.getRelevantMovedLessons w = (Success views, w) ∧
    (ml_date m = toLocaleDate (tz_offset w) (clock w) → moved_view (store w) m ∈ views) ∧
    (ml_date m = toLocaleDate (tz_offset w) (clock w) - 1 →
     ∀ v, v ∈ views → MovedLesson.v_movedLesson v ≠ m).
Proof.
  intros w m.
  assert (primary_keys (store w)) as Hpk by by_evaluation.
  assert (-1440 < tz_offset w ≤ 0) as Htz by (vm_compute; split; congruence).
  assert (m ∈ movedLesson (store w)) as Hm by by_evaluation.
  split; [exact Hpk|]. split; [reflexivity|]. split; [exact Htz|]. split; [exact Hm|].
  exact (relevant_moved_lessons_west_of_utc w m Hpk eq_refl Htz Hm).
Defined.

Lemma relevant_substitutions_by_utc_date_witness :
  let w := Scenario.world Scenario.with_yesterday_and_today []
             (Scenario.at_utc Scenario.d2025_03_10 11) 60 in
  let s := Scenario.substitutionRow "S0" Scenario.d2025_03_09 in
  primary_keys (store w) ∧ faults w = [] ∧ s ∈ substitution (store w) ∧
  ∃ views,
    serve Substitution.getRelevantSubstitutions w = (Success views, w) ∧
    (sub_date s = toISODate (clock w) → substitution_view (store w) s ∈ views) ∧
    (sub_date s = toISODate (clock w) - 1 →
     ∀ v, v ∈ views → Substitution.v_substitution v ≠ s).
Proof.
  intros w s.
  assert (primary_keys (store w)) as Hpk by by_evaluation.
  assert (s ∈ substitution (store w)) as Hs by by_evaluation.
  split; [exact Hpk|]. split; [reflexivity|]. split; [exact Hs|].
  exact (relevant_substitutions_by_utc_date w s Hpk eq_refl Hs).
Defined.

(** * Updates that succeed *)

Lemma query_no_faults {A} (q : DB → A * DB) w :
  faults w = [] → query q w = (inr (q (store w)).1, with_store (q (store w)).2 w).
Proof. intros Hf. unfold query. rewrite Hf. by destruct (q (store w)). Qed.

Lemma throw_if_false e w : throw_if false e w = (inr (), w).
Proof. done. Qed.

Lemma stringEntries_array entries l :
  MovedLesson.stringEntries entries = Some l →
  MovedLesson.array_entries (JSArray entries) = Some l.
Proof.
  unfold MovedLesson.array_entries. intros H. f_equal.
  revert l H. induction entries as [|[s|] entries IH]; intros l; simpl; [by intros [= <-]| |done].
  destruct (MovedLesson.stringEntries entries) as [l'|]; [|done].
  intros [= <-]. f_equal. by apply IH.
Qed.

Lemma no_lesson_missing (ids : list Id) (db : DB) :
  (∀ x, x ∈ ids → x ∈ lesson_id <$> lesson db) →
  filter (λ lessonId, lessonId ∉ (list_to_set
            (lesson_id <$> filter (λ l, inArray (lesson_id l) ids) (lesson db)) : gset Id))
    ids = [].
Proof.
  intros Hall. apply filter_none, Forall_forall. intros x Hx Hmissing.
  apply Hmissing, elem_of_list_to_set.
  destruct (proj1 (list_elem_of_fmap _ _ _) (Hall x Hx)) as [r [-> Hr]].
  apply list_elem_of_fmap. exists r. split; [done|]. by apply list_elem_of_filter.
Qed.

(** An update of an existing substitution that names a date and a
    non-empty list of distinct existing lessons succeeds when the storage
    layer fails no call. *)
Theorem updateSubstitution_succeeds
    (w : World) (id : Id) (d : Day) (l : list Id) (t : option Id) :
  faults w = [] → id ≠ "" → id ∈ sub_id <$> substitution (store w) →
  l ≠ [] → count_lessons l (store w) = length l →
  ∃ data w',
    serve (Substitution.updateSubstitution id
             {| Substitution.date := DateOn d; Substitution.lessonIds := Some l;
                Substitution.substituter := t |}) w
    = (Success data, w').
Proof.
  intros Hf Hid Hex Hl Hcount.
  unfold serve, Substitution.updateSubstitution, try_catch.
  assert (truthy_string id = true) as -> by (unfold truthy_string; by case_bool_decide).
  apply filter_nonempty_elem in Hex.
  simpl negb. rewrite bind_run, throw_if_false.
  rewrite bind_run, select_no_faults by done.
  destruct (filter (λ r, sub_id r = id) (substitution (store w))) as [|r rs] eqn:Hrows; [done|].
  rewrite bind_run, bool_decide_eq_false_2, throw_if_false by done.
  cbn [Substitution.date Substitution.lessonIds].
  rewrite bind_run, ret_run.
  rewrite bind_run, bind_run, select_no_faults by done.
  rewrite bool_decide_eq_true_2 by done. simpl negb. rewrite throw_if_false.
  unfold transaction, Substitution.no_values.
  rewrite bool_decide_eq_false_2 by (simpl; intros [? _]; done).
  rewrite bind_run, query_no_faults by done.
  rewrite bind_run, bind_run, query_no_faults by done.
  destruct l as [|x l]; [done|]. unfold insert_values.
  rewrite fmap_cons, query_no_faults by done. rewrite ret_run. eauto.
Qed.

(** An update of an existing moved lesson that names a date and a list of
    existing lessons succeeds when the storage layer fails no call. *)
Theorem updateMovedLesson_succeeds
    (w : World) (id : Id) (d : Day) (entries : list JSEntry) (l : list Id) :
  faults w = [] → id ≠ "" → id ∈ ml_id <$> movedLesson (store w) →
  MovedLesson.stringEntries entries = Some l →
  (∀ x, x ∈ l → x ∈ lesson_id <$> lesson (store w)) →
  ∃ data w',
    serve (MovedLesson.updateMovedLesson id
             {| MovedLesson.startingPeriod := JSUndefined;
                MovedLesson.startingDay := JSUndefined;
                MovedLesson.room := JSUndefined;
                MovedLesson.date := DateOn d;
                MovedLesson.lessonIds := JSArray entries |}) w
    = (Success data, w').
Proof.
  intros Hf Hid Hex Hentries Hall.
  unfold serve, MovedLesson.updateMovedLesson, try_catch.
  assert (truthy_string id = true) as -> by (unfold truthy_string; by case_bool_decide).
  apply filter_nonempty_elem in Hex.
  simpl negb. rewrite bind_run, throw_if_false.
  assert (MovedLesson.validateMovedLessonReferences
            {| MovedLesson.startingPeriod := JSUndefined;
               MovedLesson.startingDay := JSUndefined;
               MovedLesson.room := JSUndefined;
               MovedLesson.date := DateOn d;
               MovedLesson.lessonIds := JSArray entries |} w = (inr (), w)) as Hval.
  { unfold MovedLesson.validateMovedLessonReferences.
    cbn [MovedLesson.startingPeriod MovedLesson.startingDay MovedLesson.room
         MovedLesson.lessonIds MovedLesson.normalizeOptionalString
         MovedLesson.normalizeOptionalStringArray].
    rewrite Hentries.
    do 7 rewrite bind_run, ret_run.
    destruct l as [|x l]; [done|].
    unfold MovedLesson.ensureLessonsExist.
    rewrite bind_run, select_no_faults by done.
    by rewrite (no_lesson_missing (x :: l) (store w) Hall). }
  rewrite bind_run, Hval.
  cbn [MovedLesson.date MovedLesson.lessonIds].
  unfold MovedLesson.no_values.
  rewrite bool_decide_eq_false_2 by (simpl; intros [? _]; done).
  rewrite bind_run, query_no_faults by done.
  cbn [fst MovedLesson.update_movedLesson].
  destruct (filter (λ m, ml_id m = id) (movedLesson (store w))) as [|m ms]; [done|].
  rewrite fmap_cons, bind_run.
  rewrite (stringEntries_array _ _ Hentries).
  rewrite bind_run, query_no_faults by done.
  destruct l as [|x l]; [rewrite !ret_run; eauto|].
  unfold insert_values. rewrite fmap_cons, query_no_faults by done. rewrite ret_run. eauto.
Qed.

Lemma updateSubstitution_succeeds_witness :
  let w := Scenario.calm Scenario.with_overrides in
  faults w = [] ∧ "S1" ≠ "" ∧ "S1" ∈ sub_id <$> substitution (store w) ∧
  ["L3"] ≠ [] ∧ count_lessons ["L3"] (store w) = length ["L3"] ∧
  ∃ data w',
    serve (Substitution.updateSubstitution "S1"
             {| Substitution.date := DateOn Scenario.d2025_03_11;
                Substitution.lessonIds := Some ["L3"];
                Substitution.substituter := None |}) w
    = (Success data, w').
Proof.
  intros w.
  assert ("S1" ≠ "") as Hid by done.
  assert ("S1" ∈ sub_id <$> substitution (store w)) as Hex by by_evaluation.
  assert (["L3"] ≠ ([] : list Id)) as Hl by done.
  split; [reflexivity|]. split; [exact Hid|]. split; [exact Hex|]. split; [exact Hl|].
  split; [reflexivity|].
  exact (updateSubstitution_succeeds w "S1" Scenario.d2025_03_11 ["L3"] None
           eq_refl Hid Hex Hl eq_refl).
Defined.

Lemma updateMovedLesson_succeeds_witness :
  let w := Scenario.calm Scenario.with_overrides in
  faults w = [] ∧ "M1" ≠ "" ∧ "M1" ∈ ml_id <$> movedLesson (store w) ∧
  MovedLesson.stringEntries [EString "L3"] = Some ["L3"] ∧
  (∀ x, x ∈ ["L3"] → x ∈ lesson_id <$> lesson (store w)) ∧
  ∃ data w',
    serve (MovedLesson.updateMovedLesson "M1"
             {| MovedLesson.startingPeriod := JSUndefined;
                MovedLesson.startingDay := JSUndefined;
                MovedLesson.room := JSUndefined;
                MovedLesson.date := DateOn Scenario.d2025_03_11;
                MovedLesson.lessonIds := JSArray [EString "L3"] |}) w
    = (Success data, w').
Proof.
  intros w.
  assert ("M1" ≠ "") as Hid by done.
  assert ("M1" ∈ ml_id <$> movedLesson (store w)) as Hex by by_evaluation.
  assert (∀ x, x ∈ ["L3"] → x ∈ lesson_id <$> lesson (store w)) as Hall.
  { intros x ->%list_elem_of_singleton. by_evaluation. }
  split; [reflexivity|]. split; [exact Hid|]. split; [exact Hex|]. split; [reflexivity|].
  split; [exact Hall|].
  exact (updateMovedLesson_succeeds w "M1" Scenario.d2025_03_11 [EString "L3"] ["L3"]
           eq_refl Hid Hex eq_refl Hall).
Defined.

(** * The claims *)

Section claims.
  Import Scenario.

(** C7.  An update that supplies the lesson list and nothing else replaces
    no link.  The moved lesson created for L1 and L2 is updated with the
    body [{lessonIds: ['L3']}]: validation passes, the builder's [.set] gets
    no value and throws before the update is sent, the handler answers 500,
    no table changes, and the read that follows shows L1 and L2, not L3.
    The substitution S1 linked to L1 and L2 fares the same.  The same list
    sent together with a date is taken: the read then shows exactly L3. *)
Theorem update_with_the_list_alone_replaces_nothing :
  let created := (serve (MovedLesson.createMovedLesson
                           (movedBody (DateOn d2025_03_10)
                              (JSArray [EString "L1"; EString "L2"])))
                        (calm school)).2 in
  let list_alone := movedBody NoDate (JSArray [EString "L3"]) in
  let moved := serve (MovedLesson.updateMovedLesson "uuid-1" list_alone) created in
  let substituted := serve (Substitution.updateSubstitution "S1"
                              (substitutionBody NoDate (Some ["L3"]) None))
                           (calm with_overrides) in
  (MovedLesson.v_lessons <$> MovedLesson.allMovedLessons (store created) = [["L1"; "L2"]] ∧
   MovedLesson.validateMovedLessonReferences list_alone created = (inr (), created) ∧
   moved = (Failure INTERNAL_SERVER_ERROR "Failed to update moved lesson", created) ∧
   MovedLesson.v_lessons <$> MovedLesson.allMovedLessons (store moved.2) = [["L1"; "L2"]]) ∧
  (Substitution.v_lessons <$> Substitution.allSubstitutions with_overrides
     = [["L1"; "L2"]] ∧
   substituted
     = (Failure INTERNAL_SERVER_ERROR "Failed to update substitution", calm with_overrides) ∧
   Substitution.v_lessons <$> Substitution.allSubstitutions (store substituted.2)
     = [["L1"; "L2"]]) ∧
  (MovedLesson.v_lessons <$>
     MovedLesson.allMovedLessons
       (store (serve (MovedLesson.updateMovedLesson "uuid-1" replace_moved) created).2)
     = [["L3"]] ∧
   Substitution.v_lessons <$>
     Substitution.allSubstitutions
       (store (serve (Substitution.updateSubstitution "S1" replace_substitution)
                 (calm with_overrides)).2)
     = [["L3"]]).
Proof. repeat split; vm_compute; reflexivity. Qed.

(** C8.  Enrichment is tolerant.  With a storage layer that fails no call,
    the handler answers a known cohort with one record per lesson of the
    cohort, in order; in the record of a lesson, the teachers (classrooms)
    are those of the lesson's teacher ids (classroom ids) that resolve in the
    catalog, in the order of the ids, the others being dropped; the subject
    (period) is null exactly when the lesson's subject id (period id) does
    not resolve. *)
Theorem enrichment_tolerates_unresolved_references (w : World) (cohortId : Id) :
  faults w = [] → cohortId ≠ "" → cohortId ∈ cohort_id <$> cohort (store w) →
  ∃ records,
    serve (Lesson.getLessonsForCohort cohortId) w = (Success records, w) ∧
    Forall2
      (λ l r,
         Lesson.e_id r = lesson_id l ∧
         Lesson.n_id <$> Lesson.e_teachers r
           = filter (λ id, id ∈ teacher_id <$> teacher (store w))
               (Lesson.arrayOrEmpty (lesson_teacherIds l)) ∧
         Lesson.n_id <$> Lesson.e_classrooms r
           = filter (λ id, id ∈ classroom_id <$> classroom (store w))
               (Lesson.arrayOrEmpty (lesson_classroomIds l)) ∧
         (Lesson.e_subject r = None
            ↔ lesson_subjectId l ∉ subject_id <$> subject (store w)) ∧
         (Lesson.e_period r = None
            ↔ lesson_periodId l ∉ period_id <$> period (store w)))
      (Lesson.lessonsOfCohort cohortId (store w)) records.
Proof.
  intros Hf Hid Hcohort. eexists. split; [by apply getLessonsForCohort_run|].
  apply Forall2_fmap_r, Forall_Forall2_diag, Forall_forall.
  intros l Hl. by apply enrich_batch_tolerant.
Qed.

Lemma enrichment_tolerates_unresolved_references_witness :
  faults (calm drifted) = [] ∧ "K1" ≠ "" ∧ "K1" ∈ cohort_id <$> cohort (store (calm drifted)) ∧
  ∃ records,
    serve (Lesson.getLessonsForCohort "K1") (calm drifted) = (Success records, calm drifted) ∧
    Forall2
      (λ l r,
         Lesson.e_id r = lesson_id l ∧
         Lesson.n_id <$> Lesson.e_teachers r
           = filter (λ id, id ∈ teacher_id <$> teacher (store (calm drifted)))
               (Lesson.arrayOrEmpty (lesson_teacherIds l)) ∧
         Lesson.n_id <$> Lesson.e_classrooms r
           = filter (λ id, id ∈ classroom_id <$> classroom (store (calm drifted)))
               (Lesson.arrayOrEmpty (lesson_classroomIds l)) ∧
         (Lesson.e_subject r = None
            ↔ lesson_subjectId l ∉ subject_id <$> subject (store (calm drifted))) ∧
         (Lesson.e_period r = None
            ↔ lesson_periodId l ∉ period_id <$> period (store (calm drifted))))
      (Lesson.lessonsOfCohort "K1" (store (calm drifted))) records.
Proof.
  assert ("K1" ≠ "") as Hid by done.
  assert ("K1" ∈ cohort_id <$> cohort (store (calm drifted))) as Hcohort
    by (apply (bool_decide_unpack _); vm_compute; exact I).
  repeat split; [done..|].
  exact (enrichment_tolerates_unresolved_references (calm drifted) "K1" eq_refl Hid Hcohort).
Defined.

(** The reply of the drifted school: the unknown teacher T9 and the unknown
    classroom R9 are gone from L1's lists, its subject and period are null,
    and both records are there. *)
Example drifted_reply :
  (serve (Lesson.getLessonsForCohort "K1") (calm drifted)).1
  = Success
      [ {| Lesson.e_id := "L1";
           Lesson.e_subject := None;
           Lesson.e_teachers :=
             [ {| Lesson.n_id := "T1"; Lesson.n_name := "Anna Kiss"; Lesson.n_short := "KA" |};
               {| Lesson.n_id := "T2"; Lesson.n_name := "Zolt Nagy"; Lesson.n_short := "NZ" |} ];
           Lesson.e_classrooms := [];
           Lesson.e_day := Some {| day_id := "D1"; day_name := "Monday"; day_short := "Mo" |};
           Lesson.e_period := None;
           Lesson.e_weeksDefinitionId := "W1";
           Lesson.e_termDefinitionId := "TD1";
           Lesson.e_periodsPerWeek := 2 |};
        {| Lesson.e_id := "L2";
           Lesson.e_subject :=
             Some {| Lesson.n_id := "S1"; Lesson.n_name := "Mathematics";
                     Lesson.n_short := "Ma" |};
           Lesson.e_teachers :=
             [ {| Lesson.n_id := "T1"; Lesson.n_name := "Anna Kiss"; Lesson.n_short := "KA" |} ];
           Lesson.e_classrooms :=
             [ {| Lesson.n_id := "R1"; Lesson.n_name := "Room 1"; Lesson.n_short := "1" |} ];
           Lesson.e_day := Some {| day_id := "D1"; day_name := "Monday"; day_short := "Mo" |};
           Lesson.e_period :=
             Some {| Lesson.pv_id := "P1"; Lesson.pv_startTime := "08:00:00";
                     Lesson.pv_endTime := "08:45:00"; Lesson.pv_period := 1 |};
           Lesson.e_weeksDefinitionId := "W1";
           Lesson.e_termDefinitionId := "TD1";
           Lesson.e_periodsPerWeek := 2 |} ].
Proof. vm_compute. reflexivity. Qed.

(** C1.  The moved-lesson writes are not atomic.  Creating a moved lesson
    for L1 when the storage layer fails the insert of the link rows (the
    third storage call) is answered with 500, and the new [movedLesson] row
    stays in the table with no link row.  Updating M1 (linked to L1 and L2)
    with a new date and the lesson list [L3] when the insert of the new link
    rows fails (the fourth storage call) is answered with 500, and the row
    keeps the new date while M1 has no link row left: neither the old links
    nor the new one. *)
Theorem moved_lesson_writes_are_not_atomic :
  serve (MovedLesson.createMovedLesson
           (movedBody (DateOn d2025_03_10) (JSArray [EString "L1"])))
        (world school [false; false; true] (at_utc d2025_03_10 12) 0)
  = (Failure INTERNAL_SERVER_ERROR "Failed to create moved lesson",
     with_uuids ["uuid-2"]
       (world (with_movedLesson [movedRow "uuid-1" d2025_03_10] school) []
          (at_utc d2025_03_10 12) 0))
  ∧
  serve (MovedLesson.updateMovedLesson "M1" replace_moved)
        (world with_overrides [false; false; false; true] (at_utc d2025_03_10 12) 0)
  = (Failure INTERNAL_SERVER_ERROR "Failed to update moved lesson",
     world (with_movedLesson [movedRow "M1" d2025_03_11]
              (with_movedLessonLessonMTM [] with_overrides)) []
       (at_utc d2025_03_10 12) 0).
Proof. split; vm_compute; reflexivity. Qed.

(** C2.  An override id that does not resolve is answered with 500, not
    with 404: updating or deleting the moved lesson M9, and updating or
    deleting the substitution S9, neither of which exists, ends in the
    handler's own [catch], which replaces the thrown 404. *)
Theorem not_found_is_answered_as_internal_error :
  (serve (MovedLesson.updateMovedLesson "M9" keep_moved) (calm with_overrides)).1
    = Failure INTERNAL_SERVER_ERROR "Failed to update moved lesson" ∧
  (serve (MovedLesson.deleteMovedLesson "M9") (calm with_overrides)).1
    = Failure INTERNAL_SERVER_ERROR "Failed to delete moved lesson" ∧
  (serve (Substitution.updateSubstitution "S9" keep_substitution) (calm with_overrides)).1
    = Failure INTERNAL_SERVER_ERROR "Failed to update substitution" ∧
  (serve (Substitution.deleteSubstitution "S9") (calm with_overrides)).1
    = Failure INTERNAL_SERVER_ERROR "Failed to delete substitution".
Proof. repeat split; vm_compute; reflexivity. Qed.

(** C3.  The version selector compares the wrong way round.  On 2025-06-01,
    with one timetable valid from 2025-01-01, it finds no valid timetable
    although that one is in force; with a second timetable valid from
    2026-01-01 it returns that future one, whose [validFrom] exceeds the
    comparison date. *)
Theorem latest_valid_timetable_looks_ahead :
  (serve Timetable.getLatestValidTimetable
     (world one_timetable [] (at_utc d2025_06_01 12) 0)).1
    = Success (inl "No valid timetable found.") ∧
  (serve Timetable.getLatestValidTimetable
     (world two_timetables [] (at_utc d2025_06_01 12) 0)).1
    = Success (inr (timetableRow "TT-2026" d2026_01_01)).
Proof. split; vm_compute; reflexivity. Qed.

(** C4.  Only the cohort reads of moved lessons deduplicate.  With the link
    rows (M1, L1) and (S1, L1) stored twice, the reads of all and of the
    relevant moved lessons, and the reads of all substitutions, of the
    relevant ones and of the relevant ones of cohort K1 show L1 twice; the
    cohort read of moved lessons shows it once. *)
Theorem duplicate_links_are_shown_twice :
  MovedLesson.v_lessons <$> MovedLesson.allMovedLessons with_duplicate_links
    = [["L1"; "L1"]] ∧
  MovedLesson.v_lessons <$> MovedLesson.relevantMovedLessons d2025_03_10 with_duplicate_links
    = [["L1"; "L1"]] ∧
  Substitution.v_lessons <$> Substitution.allSubstitutions with_duplicate_links
    = [["L1"; "L1"]] ∧
  Substitution.v_lessons <$> Substitution.relevantSubstitutions d2025_03_10 with_duplicate_links
    = [["L1"; "L1"]] ∧
  Substitution.v_lessons <$>
    Substitution.relevantSubstitutionsForCohort d2025_03_10 "K1" with_duplicate_links
    = [["L1"; "L1"]] ∧
  MovedLesson.v_lessons <$> MovedLesson.movedLessonsForCohort "K1" with_duplicate_links
    = [["L1"]].
Proof. repeat split; vm_compute; reflexivity. Qed.

(** C5.  The substituter is never looked up.  Creating a substitution, and
    updating S1, with the substituter T-unknown, which is no teacher, both
    succeed and write the dangling reference. *)
Theorem unknown_substituter_is_written :
  (let r := serve (Substitution.createSubstitution
                     (substitutionBody (DateOn d2025_03_10) (Some ["L1"]) (Some "T-unknown")))
                  (calm school) in
   (r.1, substitution (store r.2)))
  = (Success {| sub_id := "uuid-1"; sub_date := d2025_03_10;
                sub_substituter := Some "T-unknown" |},
     [ {| sub_id := "uuid-1"; sub_date := d2025_03_10;
          sub_substituter := Some "T-unknown" |} ])
  ∧
  (let r := serve (Substitution.updateSubstitution "S1"
                     (substitutionBody NoDate None (Some "T-unknown")))
                  (calm with_overrides) in
   (r.1, substitution (store r.2)))
  = (Success (Some {| sub_id := "S1"; sub_date := d2025_03_10;
                      sub_substituter := Some "T-unknown" |}),
     [ {| sub_id := "S1"; sub_date := d2025_03_10;
          sub_substituter := Some "T-unknown" |} ]).
Proof. split; vm_compute; reflexivity. Qed.

(** C6.  An empty lesson-id list passes the required-field test.  Creating
    a substitution with the list [[]] and a good date runs the count query
    and the insert of the row (two of the three storage calls the world
    allows are used), and fails only when the builder refuses to insert no
    link rows: the reply is 500, not 400, and the transaction takes the row
    back. *)
Theorem empty_lesson_list_is_no_bad_request :
  (let r := serve (Substitution.createSubstitution
                     (substitutionBody (DateOn d2025_03_10) (Some []) None))
                  (world school [false; false; false] (at_utc d2025_03_10 12) 0) in
   (r.1, store r.2, faults r.2))
  = (Failure INTERNAL_SERVER_ERROR "Internal Server Error", school, [false]).
Proof. vm_compute. reflexivity. Qed.

(** C9.  East of UTC the relevant moved lessons start a day early.  On a
    server one hour east of UTC, at 12:00 local time on 2025-03-10 (which is
    2025-03-10 in UTC as well), the date the read compares with is
    2025-03-09, and the read shows the moved lesson M0 dated 2025-03-09
    next to M1 dated 2025-03-10.  The read of the relevant substitutions
    in the same world shows S1 alone. *)
Theorem relevant_moved_lessons_include_yesterday :
  let w := world with_yesterday_and_today [] (at_utc d2025_03_10 11) 60 in
  toLocaleDate (tz_offset w) (clock w) = d2025_03_10 ∧
  toISODate (clock w) = d2025_03_10 ∧
  (MovedLesson.todayStr w).1 = inr d2025_03_09 ∧
  (serve MovedLesson.getRelevantMovedLessons w).1
    = Success [moved_view with_yesterday_and_today (movedRow "M0" d2025_03_09);
               moved_view with_yesterday_and_today (movedRow "M1" d2025_03_10)] ∧
  (serve Substitution.getRelevantSubstitutions w).1
    = Success [substitution_view with_yesterday_and_today (substitutionRow "S1" d2025_03_10)].
Proof. repeat split; vm_compute; reflexivity. Qed.

(** C10.  A repeated lesson id is rejected by the count, but the update
    hides the rejection.  With the list [[L1; L1]], whose only id exists,
    creating a substitution is answered with the 400 of the lesson mismatch
    and writes nothing; updating S1 meets the same mismatch, but the reply
    is the 500 of the handler's [catch], and nothing is written either. *)
Theorem repeated_lesson_id_on_update_is_internal_error :
  serve (Substitution.createSubstitution
           (substitutionBody (DateOn d2025_03_10) (Some ["L1"; "L1"]) None))
        (calm with_overrides)
  = (Failure BAD_REQUEST
       "attempted to substitute non-existent lesson(s), wanted: 2, got: 1",
     calm with_overrides)
  ∧
  serve (Substitution.updateSubstitution "S1"
           (substitutionBody NoDate (Some ["L1"; "L1"]) None))
        (calm with_overrides)
  = (Failure INTERNAL_SERVER_ERROR "Failed to update substitution", calm with_overrides).
Proof. split; vm_compute; reflexivity. Qed.

(** Creating a moved lesson with a repeated lesson id passes validation
    (the existence check is by set membership) and, the model of the link
    table having no key over the pair, stores the link row twice; the
    unfiltered read then shows the id twice. *)
Example repeated_id_creates_duplicate_links :
  let w := (serve (MovedLesson.createMovedLesson
                     (movedBody (DateOn d2025_03_10) (JSArray [EString "L1"; EString "L1"])))
                  (calm school)).2 in
  movedLessonLessonMTM (store w) = [movedLink "uuid-1" "L1"; movedLink "uuid-1" "L1"] ∧
  MovedLesson.v_lessons <$> MovedLesson.allMovedLessons (store w) = [["L1"; "L1"]].
Proof. split; vm_compute; reflexivity. Qed.

(** The round trip: a moved lesson created for L1 and L2, then updated with
    a new date and the list [L3], reads back with exactly L3. *)
Example created_updated_read_back :
  let w1 := (serve (MovedLesson.createMovedLesson
                      (movedBody (DateOn d2025_03_10) (JSArray [EString "L1"; EString "L2"])))
                   (calm school)).2 in
  let w2 := (serve (MovedLesson.updateMovedLesson "uuid-1" replace_moved) w1).2 in
  MovedLesson.v_lessons <$> MovedLesson.allMovedLessons (store w1) = [["L1"; "L2"]] ∧
  (serve MovedLesson.getAllMovedLessons w2).1
    = Success [moved_view (store w2) (movedRow "uuid-1" d2025_03_11)] ∧
  moved_links (store w2) "uuid-1" = ["L3"].
Proof. repeat split; vm_compute; reflexivity. Qed.

End claims.
(** The order in which a read returns its rows is left open: what a read
    shows is stated up to a permutation, and proved by computing the list. *)
Ltac up_to_order :=
  match goal with
  | |- ?l ≡ₚ ?r => let Heq := fresh in enough (l = r) as Heq by (by rewrite Heq)
  | |- ?l ⊆+ ?r => apply sublist_submseteq
  end.


(** * The count check, exactly *)

Lemma count_lessons_found (ids : list Id) (db : DB) :
  NoDup (lesson_id <$> lesson db) → count_lessons ids db = length ids →
  lesson_id <$> filter (λ l, inArray (lesson_id l) ids) (lesson db) ≡ₚ ids.
Proof.
  intros Hpk Hlen. unfold count_lessons in Hlen.
  apply submseteq_length_Permutation; [|rewrite length_fmap; lia].
  apply NoDup_submseteq; [by apply NoDup_fmap_filter|].
  intros x [l [-> [Hl _]%list_elem_of_filter]]%list_elem_of_fmap. done.
Qed.

Lemma count_lessons_all_exist (ids : list Id) (db : DB) :
  NoDup (lesson_id <$> lesson db) → count_lessons ids db = length ids →
  ∀ x, x ∈ ids → x ∈ lesson_id <$> lesson db.
Proof.
  intros Hpk Hlen x Hx. rewrite <- (count_lessons_found ids db Hpk Hlen) in Hx.
  apply list_elem_of_fmap in Hx as [l [-> [_ Hl]%list_elem_of_filter]].
  apply list_elem_of_fmap. by exists l.
Qed.

Lemma count_check_holds (ids : list Id) (db : DB) :
  NoDup (lesson_id <$> lesson db) → NoDup ids →
  (∀ x, x ∈ ids → x ∈ lesson_id <$> lesson db) →
  count_lessons ids db = length ids.
Proof.
  intros Hpk Hids Hall. unfold count_lessons.
  set (found := filter (λ l, inArray (lesson_id l) ids) (lesson db)).
  assert (NoDup (lesson_id <$> found)) as Hnd by by apply NoDup_fmap_filter.
  assert (lesson_id <$> found ⊆+ ids) as Hsub.
  { apply NoDup_submseteq; [done|].
    intros x [l [-> [Hl _]%list_elem_of_filter]]%list_elem_of_fmap. done. }
  assert (ids ⊆+ lesson_id <$> found) as Hsup.
  { apply NoDup_submseteq; [done|]. intros x Hx.
    destruct (proj1 (list_elem_of_fmap _ _ _) (Hall x Hx)) as [l [-> Hl]].
    apply list_elem_of_fmap. exists l. split; [done|]. by apply list_elem_of_filter. }
  apply submseteq_length in Hsub, Hsup. rewrite length_fmap in *. lia.
Qed.

(** Under the primary key of [lesson], the count of matching lesson rows
    equals the length of the list exactly when the list names existing
    lessons and names none twice. *)
Theorem count_check_accepts_distinct_existing (ids : list Id) (db : DB) :
  NoDup (lesson_id <$> lesson db) →
  (count_lessons ids db = length ids ↔
   NoDup ids ∧ ∀ x, x ∈ ids → x ∈ lesson_id <$> lesson db).
Proof.
  intros Hpk. split.
  - intros Hlen. split; [|by apply count_lessons_all_exist].
    rewrite <- (count_lessons_found ids db Hpk Hlen). by apply NoDup_fmap_filter.
  - intros [Hids Hall]. by apply count_check_holds.
Qed.

Lemma count_check_accepts_distinct_existing_witness :
  NoDup (lesson_id <$> lesson Scenario.school) ∧
  (count_lessons ["L3"; "L1"] Scenario.school = length ["L3"; "L1"] ↔
   NoDup ["L3"; "L1"] ∧ ∀ x, x ∈ ["L3"; "L1"] → x ∈ lesson_id <$> lesson Scenario.school).
Proof.
  assert (NoDup (lesson_id <$> lesson Scenario.school)) as Hpk by by_evaluation.
  split; [exact Hpk|].
  exact (count_check_accepts_distinct_existing ["L3"; "L1"] Scenario.school Hpk).
Defined.

(** Creating a substitution whose list names a lesson that does not exist
    is answered with the 400 of the lesson mismatch; nothing is written and
    no identifier is drawn. *)
Theorem createSubstitution_rejects_unknown_ids
    (w : World) (d : Day) (ids : list Id) (t : option Id) (x : Id) :
  faults w = [] → NoDup (lesson_id <$> lesson (store w)) →
  x ∈ ids → x ∉ lesson_id <$> lesson (store w) →
  serve (Substitution.createSubstitution
           {| Substitution.date := DateOn d; Substitution.lessonIds := Some ids;
              Substitution.substituter := t |}) w
  = (Failure BAD_REQUEST
       ("attempted to substitute non-existent lesson(s), wanted: "
        +:+ pretty (length ids) +:+ ", got: " +:+ pretty (count_lessons ids (store w))),
     w).
Proof.
  intros Hf Hpk Hx Hmissing.
  assert (count_lessons ids (store w) ≠ length ids) as Hne.
  { intros Hlen. by apply Hmissing, (count_lessons_all_exist ids (store w)). }
  unfold serve, Substitution.createSubstitution. simpl.
  rewrite bind_run, select_no_faults by done.
  rewrite bind_run. rewrite bool_decide_eq_false_2 by done. done.
Qed.

Lemma createSubstitution_rejects_unknown_ids_witness :
  let w := Scenario.calm Scenario.school in
  faults w = [] ∧ NoDup (lesson_id <$> lesson (store w)) ∧
  "does-not-exist" ∈ ["L1"; "does-not-exist"] ∧
  ("does-not-exist" ∉ lesson_id <$> lesson (store w)) ∧
  serve (Substitution.createSubstitution
           {| Substitution.date := DateOn Scenario.d2025_03_10;
              Substitution.lessonIds := Some ["L1"; "does-not-exist"];
              Substitution.substituter := Some "T2" |}) w
  = (Failure BAD_REQUEST
       ("attempted to substitute non-existent lesson(s), wanted: "
        +:+ pretty (length ["L1"; "does-not-exist"]) +:+ ", got: "
        +:+ pretty (count_lessons ["L1"; "does-not-exist"] (store w))),
     w).
Proof.
  intros w.
  assert (NoDup (lesson_id <$> lesson (store w))) as Hpk by by_evaluation.
  assert ("does-not-exist" ∈ ["L1"; "does-not-exist"]) as Hx by by_evaluation.
  assert ("does-not-exist" ∉ lesson_id <$> lesson (store w)) as Hm by by_evaluation.
  split; [reflexivity|]. split; [exact Hpk|]. split; [exact Hx|]. split; [exact Hm|].
  exact (createSubstitution_rejects_unknown_ids w Scenario.d2025_03_10
           ["L1"; "does-not-exist"] (Some "T2") "does-not-exist" eq_refl Hpk Hx Hm).
Defined.

(** * Validation of the references of a moved lesson *)

Lemma filter_ext_in {A} (P Q : A → Prop) `{!∀ x, Decision (P x)} `{!∀ x, Decision (Q x)}
    (l : list A) :
  (∀ x, x ∈ l → (P x ↔ Q x)) → filter P l = filter Q l.
Proof.
  induction l as [|x l IH]; [done|]. intros Hext.
  assert (filter P l = filter Q l) as Hl by (apply IH; intros y Hy; apply Hext; by right).
  destruct (decide (P x)) as [HP|HP].
  - rewrite filter_cons_True, (filter_cons_True Q) by (done || by apply Hext; [left|]).
    by rewrite Hl.
  - rewrite filter_cons_False, (filter_cons_False Q); [done| |done].
    intros HQ. apply HP, Hext; [by left|done].
Qed.

Lemma filter_nil_inv {A} (P : A → Prop) `{!∀ x, Decision (P x)} (l : list A) :
  filter P l = [] → ∀ x, x ∈ l → ¬ P x.
Proof.
  intros Hnil x Hx HP.
  assert (x ∈ filter P l) as Hin by by apply list_elem_of_filter.
  rewrite Hnil in Hin. by apply elem_of_nil in Hin.
Qed.

Lemma ensureLessonsExist_run (w : World) (ids : list Id) :
  faults w = [] →
  MovedLesson.ensureLessonsExist ids w
  = match filter (λ x, x ∉ lesson_id <$> lesson (store w)) ids with
    | [] => (inr (), w)
    | missing =>
        (inl (HTTPException BAD_REQUEST
                ("Invalid lesson ids provided: " +:+ String.concat ", " missing)), w)
    end.
Proof.
  intros Hf. unfold MovedLesson.ensureLessonsExist.
  rewrite bind_run, select_no_faults by done.
  rewrite (filter_ext_in _ (λ x, x ∉ lesson_id <$> lesson (store w))).
  - by destruct (filter _ ids).
  - intros x Hx. apply not_iff_compat. rewrite elem_of_list_to_set, !list_elem_of_fmap.
    split.
    + intros [l [-> [_ Hl]%list_elem_of_filter]]. by exists l.
    + intros [l [-> Hl]]. exists l. split; [done|]. by apply list_elem_of_filter.
Qed.

(** The existence check of the lessons passes exactly when every id of the
    list names a lesson row; otherwise its one 400 names every id of the
    list that no lesson row carries, in the order of the list (an id given
    twice is named twice), and nothing is changed. *)
Theorem ensureLessonsExist_reports_missing (w : World) (ids : list Id) :
  faults w = [] →
  (Forall (λ x, x ∈ lesson_id <$> lesson (store w)) ids →
   MovedLesson.ensureLessonsExist ids w = (inr (), w)) ∧
  (¬ Forall (λ x, x ∈ lesson_id <$> lesson (store w)) ids →
   MovedLesson.ensureLessonsExist ids w
   = (inl (HTTPException BAD_REQUEST
             ("Invalid lesson ids provided: "
              +:+ String.concat ", "
                    (filter (λ x, x ∉ lesson_id <$> lesson (store w)) ids))), w)).
Proof.
  intros Hf. rewrite (ensureLessonsExist_run w ids Hf). split.
  - intros Hall. rewrite filter_none; [done|].
    apply Forall_forall. intros x Hx Hn. apply Hn.
    by apply (proj1 (Forall_forall _ _) Hall).
  - intros Hn.
    destruct (filter (λ x, x ∉ lesson_id <$> lesson (store w)) ids) eqn:Hmiss; [|done].
    exfalso. apply Hn, Forall_forall. intros x Hx.
    destruct (decide (x ∈ lesson_id <$> lesson (store w))) as [|Hno]; [done|].
    exfalso. exact (filter_nil_inv _ _ Hmiss x Hx Hno).
Qed.

Lemma ensureLessonsExist_reports_missing_witness :
  let w := Scenario.calm Scenario.school in
  let ids := ["L9"; "L1"; "L8"; "L9"] in
  faults w = [] ∧
  (Forall (λ x, x ∈ lesson_id <$> lesson (store w)) ids →
   MovedLesson.ensureLessonsExist ids w = (inr (), w)) ∧
  (¬ Forall (λ x, x ∈ lesson_id <$> lesson (store w)) ids →
   MovedLesson.ensureLessonsExist ids w
   = (inl (HTTPException BAD_REQUEST
             ("Invalid lesson ids provided: "
              +:+ String.concat ", "
                    (filter (λ x, x ∉ lesson_id <$> lesson (store w)) ids))), w)).
Proof.
  intros w ids. split; [reflexivity|].
  exact (ensureLessonsExist_reports_missing w ids eq_refl).
Defined.

Example missing_lessons_message :
  MovedLesson.ensureLessonsExist ["L9"; "L1"; "L8"; "L9"] (Scenario.calm Scenario.school)
  = (inl (HTTPException BAD_REQUEST "Invalid lesson ids provided: L9, L8, L9"),
     Scenario.calm Scenario.school).
Proof. vm_compute. reflexivity. Qed.

Section validation.
Import MovedLesson.

(** A lookup by key on a table: found exactly when the key is in the table. *)
Lemma lookup_by_key_nil {R} (key : R → Id) (table : list R) (k : Id) :
  filter (λ r, key r = k) table = [] ↔ k ∉ key <$> table.
Proof.
  pose proof (filter_nonempty_elem key table k) as H. split.
  - intros Hnil Hin. by apply H in Hin.
  - intros Hnot. destruct (decide (filter (λ r, key r = k) table = [])) as [|Hne]; [done|].
    exfalso. by apply Hnot, H.
Qed.

Lemma ensurePeriodExists_run w s :
  faults w = [] →
  (s ∈ period_id <$> period (store w) → ensurePeriodExists s w = (inr (), w)) ∧
  (s ∉ period_id <$> period (store w) → rejected_with_400 (ensurePeriodExists s w) w).
Proof.
  intros Hf. unfold ensurePeriodExists. rewrite bind_run, select_no_faults by done.
  split; intros Hs.
  - apply (filter_nonempty_elem period_id) in Hs. by destruct (filter _ (period (store w))).
  - apply (lookup_by_key_nil period_id) in Hs. rewrite Hs. by eexists.
Qed.

Lemma ensureDayDefinitionExists_run w s :
  faults w = [] →
  (s ∈ day_id <$> dayDefinition (store w) → ensureDayDefinitionExists s w = (inr (), w)) ∧
  (s ∉ day_id <$> dayDefinition (store w) →
   rejected_with_400 (ensureDayDefinitionExists s w) w).
Proof.
  intros Hf. unfold ensureDayDefinitionExists. rewrite bind_run, select_no_faults by done.
  split; intros Hs.
  - apply (filter_nonempty_elem day_id) in Hs.
    by destruct (filter _ (dayDefinition (store w))).
  - apply (lookup_by_key_nil day_id) in Hs. rewrite Hs. by eexists.
Qed.

Lemma ensureClassroomExists_run w s :
  faults w = [] →
  (s ∈ classroom_id <$> classroom (store w) → ensureClassroomExists s w = (inr (), w)) ∧
  (s ∉ classroom_id <$> classroom (store w) →
   rejected_with_400 (ensureClassroomExists s w) w).
Proof.
  intros Hf. unfold ensureClassroomExists. rewrite bind_run, select_no_faults by done.
  split; intros Hs.
  - apply (filter_nonempty_elem classroom_id) in Hs.
    by destruct (filter _ (classroom (store w))).
  - apply (lookup_by_key_nil classroom_id) in Hs. rewrite Hs. by eexists.
Qed.

(** One reference field, then the rest of the validation. *)
Lemma reference_step (v : JSValue) (label : string) (ensure : Id → M unit)
    (ids : list Id) (rest : M unit) (w : World) :
  (∀ s, (s ∈ ids → ensure s w = (inr (), w)) ∧
        (s ∉ ids → rejected_with_400 (ensure s w) w)) →
  (reference_passes v ids →
   (normalizeOptionalString v label ≫= λ normalized,
      match normalized with
      | Some s => if truthy_string s then ensure s else mret ()
      | None => mret ()
      end ≫= λ _, rest) w = rest w) ∧
  (¬ reference_passes v ids →
   rejected_with_400
     ((normalizeOptionalString v label ≫= λ normalized,
         match normalized with
         | Some s => if truthy_string s then ensure s else mret ()
         | None => mret ()
         end ≫= λ _, rest) w) w).
Proof.
  intros Hensure. destruct v as [| |s| |entries]; simpl.
  - split; [done|tauto].
  - split; [done|tauto].
  - rewrite bind_run, ret_run, bind_run. unfold truthy_string.
    destruct (decide (s = "")) as [->|Hs].
    + split; [done|]. intros Hn. exfalso. apply Hn. by left.
    + rewrite bool_decide_eq_false_2 by done. simpl.
      destruct (Hensure s) as [Hok Hbad]. split.
      * intros [?|Hin]; [done|]. by rewrite (Hok Hin).
      * intros Hn. destruct (Hbad (λ Hin, Hn (or_intror Hin))) as [msg ->]. by eexists.
  - split; [done|]. intros _. by eexists.
  - split; [done|]. intros _. by eexists.
Qed.

Lemma lesson_list_step (v : JSValue) (w : World) :
  faults w = [] →
  (lesson_list_passes v (lesson_id <$> lesson (store w)) →
   (normalizeOptionalStringArray v "Lesson ids" ≫= λ normalizedLessonIds,
      match normalizedLessonIds with
      | Some (x :: l) => ensureLessonsExist (x :: l)
      | _ => mret ()
      end) w = (inr (), w)) ∧
  (¬ lesson_list_passes v (lesson_id <$> lesson (store w)) →
   rejected_with_400
     ((normalizeOptionalStringArray v "Lesson ids" ≫= λ normalizedLessonIds,
         match normalizedLessonIds with
         | Some (x :: l) => ensureLessonsExist (x :: l)
         | _ => mret ()
         end) w) w).
Proof.
  intros Hf. destruct v as [| |s| |entries]; simpl.
  - split; [done|tauto].
  - split; [done|tauto].
  - split; [done|]. intros _. by eexists.
  - split; [done|]. intros _. by eexists.
  - destruct (stringEntries entries) as [l|]; [|split; [done|intros _; by eexists]].
    rewrite bind_run, ret_run. destruct l as [|x l]; [split; [done|]|].
    { intros Hn. exfalso. apply Hn. constructor. }
    rewrite ensureLessonsExist_run by done.
    split.
    + intros Hall. rewrite filter_none; [done|].
      eapply Forall_impl; [exact Hall|]. tauto.
    + intros Hn.
      match goal with
      | |- context [match ?t with [] => _ | _ => _ end] =>
          destruct t as [|y ys] eqn:Hmiss; [|by eexists]
      end.
      exfalso. apply Hn, Forall_forall. intros y Hy.
      destruct (decide (y ∈ lesson_id <$> lesson (store w))) as [|Hy']; [done|].
      exfalso. exact (filter_nil_inv _ _ Hmiss y Hy Hy').
Qed.

Lemma validateMovedLessonReferences_run (w : World) (body : Body) :
  faults w = [] →
  (references_pass (store w) body → validateMovedLessonReferences body w = (inr (), w)) ∧
  (¬ references_pass (store w) body →
   rejected_with_400 (validateMovedLessonReferences body w) w).
Proof.
  intros Hf. unfold validateMovedLessonReferences, references_pass.
  pose proof (reference_step (startingPeriod body) "Starting period" ensurePeriodExists
                (period_id <$> period (store w))) as Hperiod.
  pose proof (reference_step (startingDay body) "Starting day" ensureDayDefinitionExists
                (day_id <$> dayDefinition (store w))) as Hday.
  pose proof (reference_step (room body) "Classroom" ensureClassroomExists
                (classroom_id <$> classroom (store w))) as Hroom.
  pose proof (lesson_list_step (lessonIds body) w Hf) as [Hl Hl'].
  split.
  - intros (Hp & Hd & Hr & Hls).
    rewrite (proj1 (Hperiod _ w (λ s, ensurePeriodExists_run w s Hf)) Hp).
    rewrite (proj1 (Hday _ w (λ s, ensureDayDefinitionExists_run w s Hf)) Hd).
    rewrite (proj1 (Hroom _ w (λ s, ensureClassroomExists_run w s Hf)) Hr).
    by apply Hl.
  - intros Hn.
    destruct (decide (reference_passes (startingPeriod body) (period_id <$> period (store w))))
      as [Hp|Hp]; [|by apply Hperiod; [intros s; by apply ensurePeriodExists_run|]].
    rewrite (proj1 (Hperiod _ w (λ s, ensurePeriodExists_run w s Hf)) Hp).
    destruct (decide (reference_passes (startingDay body)
                        (day_id <$> dayDefinition (store w))))
      as [Hd|Hd]; [|by apply Hday; [intros s; by apply ensureDayDefinitionExists_run|]].
    rewrite (proj1 (Hday _ w (λ s, ensureDayDefinitionExists_run w s Hf)) Hd).
    destruct (decide (reference_passes (room body) (classroom_id <$> classroom (store w))))
      as [Hr|Hr]; [|by apply Hroom; [intros s; by apply ensureClassroomExists_run|]].
    rewrite (proj1 (Hroom _ w (λ s, ensureClassroomExists_run w s Hf)) Hr).
    apply Hl'. tauto.
Qed.
End validation.

(** * Creating a moved lesson *)

Section moved_create.
Import MovedLesson.

(** Without a date, or with a reference that does not pass, a create is
    answered with 500 and changes nothing: no row, no link, no identifier
    drawn.  An update with a reference that does not pass likewise. *)
Theorem moved_lesson_writes_need_valid_references
    (w : World) (id : Id) (body : Body) :
  faults w = [] →
  (truthy_date (date body) = false ∨ ¬ references_pass (store w) body →
   serve (createMovedLesson body) w
   = (Failure INTERNAL_SERVER_ERROR "Failed to create moved lesson", w)) ∧
  (¬ references_pass (store w) body →
   serve (updateMovedLesson id body) w
   = (Failure INTERNAL_SERVER_ERROR "Failed to update moved lesson", w)).
Proof.
  intros Hf. destruct (validateMovedLessonReferences_run w body Hf) as [_ Hbad]. split.
  - intros Hwhy. unfold serve, createMovedLesson, try_catch. rewrite bind_run.
    destruct (truthy_date (date body)); [|done].
    simpl negb. rewrite throw_if_false. rewrite bind_run.
    destruct Hwhy as [?|Hn]; [done|]. by destruct (Hbad Hn) as [msg ->].
  - intros Hn. unfold serve, updateMovedLesson, try_catch. rewrite bind_run.
    destruct (truthy_string id); [|done].
    simpl negb. rewrite throw_if_false. rewrite bind_run.
    by destruct (Hbad Hn) as [msg ->].
Qed.

Lemma moved_lesson_writes_need_valid_references_witness :
  let w := Scenario.calm Scenario.with_overrides in
  let body := {| startingPeriod := JSUndefined; startingDay := JSUndefined;
                 room := JSString "R9"; date := DateOn Scenario.d2025_03_11;
                 lessonIds := JSUndefined |} in
  faults w = [] ∧
  (truthy_date (date body) = false ∨ ¬ references_pass (store w) body →
   serve (createMovedLesson body) w
   = (Failure INTERNAL_SERVER_ERROR "Failed to create moved lesson", w)) ∧
  (¬ references_pass (store w) body →
   serve (updateMovedLesson "M1" body) w
   = (Failure INTERNAL_SERVER_ERROR "Failed to update moved lesson", w)).
Proof.
  intros w body. split; [reflexivity|].
  exact (moved_lesson_writes_need_valid_references w "M1" body eq_refl).
Defined.

Lemma moved_base_frame db db' m :
  period db' = period db → dayDefinition db' = dayDefinition db →
  classroom db' = classroom db → moved_base db' m = moved_base db m.
Proof. unfold moved_base. by intros -> -> ->. Qed.

End moved_create.

Section moved_create_read.
Import MovedLesson.

Lemma moved_links_appended db rows id :
  moved_links (insert_mtm rows db) id
  = (moved_links db id ++ (mlm_lessonId <$> filter (λ x, id = mlm_movedLessonId x) rows))%list.
Proof. unfold moved_links, insert_mtm. simpl. by rewrite filter_app, fmap_app. Qed.

Lemma moved_links_of_new (u : Id) (l : list Id) (id : Id) :
  mlm_lessonId <$>
    filter (λ x, id = mlm_movedLessonId x)
      ((λ lessonId, {| mlm_lessonId := lessonId; mlm_movedLessonId := u |}) <$> l)
  = if decide (id = u) then l else [].
Proof.
  destruct (decide (id = u)) as [->|Hne].
  - rewrite filter_all by (apply Forall_fmap, Forall_forall; done).
    rewrite <- list_fmap_compose. apply list_fmap_id.
  - rewrite filter_none; [done|]. apply Forall_fmap, Forall_forall. intros x _ Heq. by apply Hne.
Qed.


End moved_create_read.


(** * Creating a substitution *)

Section substitution_create.
Import Substitution.

Lemma substitution_links_appended db rows id :
  substitution_links (insert_mtm rows db) id
  = (substitution_links db id
     ++ (slm_lessonId <$> filter (λ x, id = slm_substitutionId x) rows))%list.
Proof. unfold substitution_links, insert_mtm. simpl. by rewrite filter_app, fmap_app. Qed.

Lemma substitution_links_of_new (u : Id) (l : list Id) (id : Id) :
  slm_lessonId <$>
    filter (λ x, id = slm_substitutionId x)
      ((λ lessonId, {| slm_lessonId := lessonId; slm_substitutionId := u |}) <$> l)
  = if decide (id = u) then l else [].
Proof.
  destruct (decide (id = u)) as [->|Hne].
  - rewrite filter_all by (apply Forall_fmap, Forall_forall; done).
    rewrite <- list_fmap_compose. apply list_fmap_id.
  - rewrite filter_none; [done|]. apply Forall_fmap, Forall_forall. intros x _ Heq. by apply Hne.
Qed.

Lemma substitution_links_unowned db id :
  links_have_owners db → id ∉ sub_id <$> substitution db → substitution_links db id = [].
Proof.
  intros [_ Hown] Hfresh. unfold substitution_links. rewrite filter_none; [done|].
  eapply Forall_impl; [exact Hown|]. intros x Hx Heq. apply Hfresh. by rewrite Heq.
Qed.

Lemma substitution_base_frame db db' s :
  teacher db' = teacher db → substitution_base db' s = substitution_base db s.
Proof. unfold substitution_base. by intros ->. Qed.

Lemma createSubstitution_run (w : World) (u : Id) (us : list Id) (d : Day)
    (x : Id) (l : list Id) (t : option Id) :
  faults w = [] → uuids w = u :: us →
  count_lessons (x :: l) (store w) = length (x :: l) →
  serve (createSubstitution {| date := DateOn d; lessonIds := Some (x :: l);
                               substituter := t |}) w
  = (Success (created_substitution u d t),
     with_store
       (insert_mtm
          ((λ lessonId, {| slm_lessonId := lessonId; slm_substitutionId := u |})
             <$> (x :: l))
          (insert_substitution (created_substitution u d t) (store w)).2)
       (with_uuids us w)).
Proof.
  intros Hf Hu Hcount. unfold serve, createSubstitution.
  cbn [date lessonIds substituter truthy_date].
  rewrite bind_run, select_no_faults by done.
  rewrite bind_run, bool_decide_eq_true_2 by done. simpl negb. rewrite throw_if_false.
  unfold transaction. rewrite bind_run. unfold randomUUID. rewrite Hu.
  rewrite bind_run, query_no_faults by done.
  cbn [fst snd insert_substitution]. fold (created_substitution u d t).
  rewrite bind_run. unfold insert_values. rewrite fmap_cons.
  rewrite query_no_faults by done. rewrite ret_run. done.
Qed.

(** A substitution created for a date and a non-empty list of distinct
    existing lessons is answered with its row under the drawn identifier,
    and a read of all substitutions right after shows what it showed before
    and the new substitution with exactly the requested lessons and the
    teacher row of its substituter, if there is one. *)
Theorem createSubstitution_read_back
    (w : World) (u : Id) (us : list Id) (d : Day) (l : list Id) (t : option Id) :
  primary_keys (store w) → links_have_owners (store w) →
  faults w = [] → uuids w = u :: us → u ∉ sub_id <$> substitution (store w) →
  l ≠ [] → NoDup l → (∀ x, x ∈ l → x ∈ lesson_id <$> lesson (store w)) →
  ∃ w1,
    serve (createSubstitution {| date := DateOn d; lessonIds := Some l;
                                 substituter := t |}) w
    = (Success (created_substitution u d t), w1) ∧
    ∃ views,
      serve getAllSubstitutions w1 = (Success views, w1) ∧
      views ≡ₚ (allSubstitutions (store w)
                ++ [created_substitution_view (store w) u d l t])%list.
Proof.
  intros Hpk Hown Hf Hu Hfresh Hl Hnd Hall.
  assert (count_lessons l (store w) = length l) as Hcount.
  { apply count_check_holds; [by destruct Hpk as (_ & _ & _ & _ & _ & ? & _)|done|done]. }
  destruct l as [|x l]; [done|].
  eexists. split; [by apply createSubstitution_run|].
  eexists. split.
  { unfold serve, getAllSubstitutions, try_catch. by rewrite select_no_faults. }
  cbn [store with_store with_uuids]. up_to_order.
  set (row := created_substitution u d t).
  set (links := (λ lessonId, {| slm_lessonId := lessonId; slm_substitutionId := u |})
                  <$> (x :: l)).
  assert (primary_keys (insert_mtm links (insert_substitution row (store w)).2)) as Hpk'.
  { destruct Hpk as (? & ? & ? & ? & ? & ? & ? & Hs). repeat split; try done.
    simpl. rewrite fmap_app. apply NoDup_app. split; [done|]. split.
    - intros y Hy [->|[]%elem_of_nil]%elem_of_cons. done.
    - apply NoDup_singleton. }
  rewrite (allSubstitutions_views _ Hpk'), (allSubstitutions_views _ Hpk).
  change (substitution (insert_mtm links (insert_substitution row (store w)).2))
    with (substitution (store w) ++ [row])%list.
  rewrite fmap_app. f_equal.
  - apply list_fmap_ext. intros i s Hs. unfold substitution_view.
    rewrite (substitution_base_frame (store w)
               (insert_mtm links (insert_substitution row (store w)).2) s) by done.
    rewrite substitution_links_appended. unfold links. rewrite substitution_links_of_new.
    rewrite decide_False; [by rewrite app_nil_r|].
    intros Heq. apply Hfresh. rewrite <- Heq. apply list_elem_of_fmap.
    exists s. split; [done|]. by eapply list_elem_of_lookup_2.
  - rewrite fmap_cons, fmap_nil. f_equal.
    unfold substitution_view, created_substitution_view. fold row.
    rewrite (substitution_base_frame (store w)
               (insert_mtm links (insert_substitution row (store w)).2) row) by done.
    rewrite substitution_links_appended. unfold links. rewrite substitution_links_of_new.
    rewrite decide_True by done.
    change (substitution_links (insert_substitution row (store w)).2 (sub_id row))
      with (substitution_links (store w) u).
    by rewrite substitution_links_unowned.
Qed.
End substitution_create.

Lemma createSubstitution_read_back_witness :
  let w := Scenario.calm Scenario.with_overrides in
  (primary_keys (store w) ∧ links_have_owners (store w) ∧ faults w = [] ∧
   uuids w = ["uuid-1"; "uuid-2"] ∧ ("uuid-1" ∉ sub_id <$> substitution (store w)) ∧
   ["L3"; "L1"] ≠ [] ∧ NoDup ["L3"; "L1"] ∧
   (∀ x, x ∈ ["L3"; "L1"] → x ∈ lesson_id <$> lesson (store w))) ∧
  ∃ w1,
    serve (Substitution.createSubstitution
             {| Substitution.date := DateOn Scenario.d2025_03_11;
                Substitution.lessonIds := Some ["L3"; "L1"];
                Substitution.substituter := Some "T1" |}) w
    = (Success (created_substitution "uuid-1" Scenario.d2025_03_11 (Some "T1")), w1) ∧
    ∃ views,
      serve Substitution.getAllSubstitutions w1 = (Success views, w1) ∧
      views ≡ₚ (Substitution.allSubstitutions (store w)
                ++ [created_substitution_view (store w) "uuid-1" Scenario.d2025_03_11
                      ["L3"; "L1"] (Some "T1")])%list.
Proof.
  intros w.
  assert (primary_keys (store w)) as Hpk by by_evaluation.
  assert (links_have_owners (store w)) as Hown by by_evaluation.
  assert ("uuid-1" ∉ sub_id <$> substitution (store w)) as Hfresh by by_evaluation.
  assert (["L3"; "L1"] ≠ ([] : list Id)) as Hl by discriminate.
  assert (NoDup (["L3"; "L1"] : list Id)) as Hnd by by_evaluation.
  assert (∀ x : Id, x ∈ ["L3"; "L1"] → x ∈ lesson_id <$> lesson (store w)) as Hall.
  { apply Forall_forall. by_evaluation. }
  split; [exact (conj Hpk (conj Hown (conj eq_refl (conj eq_refl
                   (conj Hfresh (conj Hl (conj Hnd Hall)))))))|].
  exact (createSubstitution_read_back w "uuid-1" ["uuid-2"] Scenario.d2025_03_11
           ["L3"; "L1"] (Some "T1") Hpk Hown eq_refl eq_refl Hfresh Hl Hnd Hall).
Defined.

(** * Deleting an override *)

Lemma filter_fmap_commute {A B} (f : A → B) (P : B → Prop) `{!∀ b, Decision (P b)}
    (l : list A) :
  filter P (f <$> l) = f <$> filter (λ a, P (f a)) l.
Proof.
  induction l as [|a l IH]; [done|]. rewrite fmap_cons.
  destruct (decide (P (f a))).
  - rewrite !filter_cons_True by done. by rewrite fmap_cons, IH.
  - by rewrite !filter_cons_False.
Qed.

Lemma filter_key_singleton {R} (key : R → Id) (t : list R) (r : R) :
  NoDup (key <$> t) → r ∈ t → filter (λ r', key r' = key r) t = [r].
Proof.
  intros Hnd Hr.
  destruct (filter_unique key (λ r', key r' = key r) t Hnd) as [Hnil|[b Hb]].
  - intros b b' -> ->. done.
  - exfalso. by apply (filter_nil_inv _ _ Hnil r Hr).
  - assert (r ∈ filter (λ r', key r' = key r) t) as Hin by by apply list_elem_of_filter.
    rewrite Hb in Hin. apply list_elem_of_singleton in Hin. by rewrite Hb, Hin.
Qed.

Section substitution_delete.
Import Substitution.

Lemma substitution_links_after_delete db id id' :
  id' ≠ id → substitution_links (delete_mtm id db) id' = substitution_links db id'.
Proof.
  intros Hne. unfold substitution_links, delete_mtm. simpl. f_equal.
  rewrite list_filter_filter. apply filter_ext_in. intros x _. split; [tauto|].
  intros ->. done.
Qed.

(** Deleting an existing substitution is answered with its row, and a read
    of all substitutions right after shows what it showed before without
    the deleted one. *)
Theorem deleteSubstitution_read_back (w : World) (s : SubstitutionRow) :
  primary_keys (store w) → faults w = [] →
  sub_id s ≠ "" → s ∈ substitution (store w) →
  ∃ w1,
    serve (deleteSubstitution (sub_id s)) w = (Success (Some s), w1) ∧
    ∃ views,
      serve getAllSubstitutions w1 = (Success views, w1) ∧
      views ≡ₚ filter (λ v, sub_id (v_substitution v) ≠ sub_id s)
                 (allSubstitutions (store w)).
Proof.
  intros Hpk Hf Hid Hs.
  assert (NoDup (sub_id <$> substitution (store w))) as Hnd
    by by destruct Hpk as (_ & _ & _ & _ & _ & _ & _ & ?).
  pose proof (filter_key_singleton sub_id _ s Hnd Hs) as Hrow.
  exists (with_store (delete_substitution (sub_id s) (store w)).2 w). split.
  - unfold serve, deleteSubstitution, try_catch.
    assert (truthy_string (sub_id s) = true) as ->
      by (unfold truthy_string; by case_bool_decide).
    simpl negb. rewrite bind_run, throw_if_false.
    rewrite bind_run, select_no_faults by done. rewrite Hrow.
    rewrite bind_run. cbn [take length]. rewrite bool_decide_eq_false_2 by done.
    rewrite throw_if_false.
    rewrite bind_run, query_no_faults by done.
    rewrite ret_run. unfold delete_substitution at 1. cbn [fst]. by rewrite Hrow.
  - eexists. split.
    { unfold serve, getAllSubstitutions, try_catch. by rewrite select_no_faults. }
    cbn [store with_store]. up_to_order.
    assert (primary_keys (delete_substitution (sub_id s) (store w)).2) as Hpk'.
    { unfold delete_substitution. rewrite Hrow. cbn [snd].
      destruct Hpk as (? & ? & ? & ? & ? & ? & ? & ?). repeat split; try done.
      simpl. by apply NoDup_fmap_filter. }
    rewrite (allSubstitutions_views _ Hpk'), (allSubstitutions_views _ Hpk).
    rewrite filter_fmap_commute.
    unfold delete_substitution. rewrite Hrow. cbn [snd].
    change (substitution (with_substitution ?t ?db)) with t.
    apply list_fmap_ext. intros i s' Hs'.
    apply list_elem_of_lookup_2, list_elem_of_filter in Hs' as [Hne _].
    unfold substitution_view. f_equal.
    by apply substitution_links_after_delete.
Qed.

Lemma deleteSubstitution_read_back_witness :
  let w := Scenario.calm Scenario.with_yesterday_and_today in
  let s := Scenario.substitutionRow "S0" Scenario.d2025_03_09 in
  (primary_keys (store w) ∧ faults w = [] ∧ sub_id s ≠ "" ∧ s ∈ substitution (store w)) ∧
  ∃ w1,
    serve (deleteSubstitution (sub_id s)) w = (Success (Some s), w1) ∧
    ∃ views,
      serve getAllSubstitutions w1 = (Success views, w1) ∧
      views ≡ₚ filter (λ v, sub_id (v_substitution v) ≠ sub_id s)
                 (allSubstitutions (store w)).
Proof.
  intros w s.
  assert (primary_keys (store w)) as Hpk by by_evaluation.
  assert (sub_id s ≠ "") as Hid by discriminate.
  assert (s ∈ substitution (store w)) as Hs by by_evaluation.
  split; [exact (conj Hpk (conj eq_refl (conj Hid Hs)))|].
  exact (deleteSubstitution_read_back w s Hpk eq_refl Hid Hs).
Defined.
End substitution_delete.

Section moved_delete.
Import MovedLesson.

Lemma moved_links_after_delete db id id' :
  id' ≠ id → moved_links (delete_mtm id db) id' = moved_links db id'.
Proof.
  intros Hne. unfold moved_links, delete_mtm. simpl. f_equal.
  rewrite list_filter_filter. apply filter_ext_in. intros x _. split; [tauto|].
  intros ->. done.
Qed.

(** Deleting an existing moved lesson is answered with its row, and a read
    of all moved lessons right after shows what it showed before without
    the deleted one. *)
Theorem deleteMovedLesson_read_back (w : World) (m : MovedLessonRow) :
  primary_keys (store w) → faults w = [] →
  ml_id m ≠ "" → m ∈ movedLesson (store w) →
  ∃ w1,
    serve (deleteMovedLesson (ml_id m)) w = (Success m, w1) ∧
    ∃ views,
      serve getAllMovedLessons w1 = (Success views, w1) ∧
      views ≡ₚ filter (λ v, ml_id (v_movedLesson v) ≠ ml_id m)
                 (allMovedLessons (store w)).
Proof.
  intros Hpk Hf Hid Hm.
  assert (NoDup (ml_id <$> movedLesson (store w))) as Hnd
    by by destruct Hpk as (_ & _ & _ & _ & _ & _ & ? & _).
  pose proof (filter_key_singleton ml_id _ m Hnd Hm) as Hrow.
  exists (with_store (delete_movedLesson (ml_id m) (store w)).2 w). split.
  - unfold serve, deleteMovedLesson, try_catch.
    assert (truthy_string (ml_id m) = true) as ->
      by (unfold truthy_string; by case_bool_decide).
    simpl negb. rewrite bind_run, throw_if_false.
    rewrite bind_run, query_no_faults by done.
    unfold delete_movedLesson at 1. cbn [fst]. by rewrite Hrow.
  - eexists. split.
    { unfold serve, getAllMovedLessons, try_catch. by rewrite select_no_faults. }
    cbn [store with_store]. up_to_order.
    assert (primary_keys (delete_movedLesson (ml_id m) (store w)).2) as Hpk'.
    { unfold delete_movedLesson. rewrite Hrow. cbn [snd].
      destruct Hpk as (? & ? & ? & ? & ? & ? & ? & ?). repeat split; try done.
      simpl. by apply NoDup_fmap_filter. }
    rewrite (allMovedLessons_views _ Hpk'), (allMovedLessons_views _ Hpk).
    rewrite filter_fmap_commute.
    unfold delete_movedLesson. rewrite Hrow. cbn [snd].
    change (movedLesson (with_movedLesson ?t ?db)) with t.
    apply list_fmap_ext. intros i m' Hm'.
    apply list_elem_of_lookup_2, list_elem_of_filter in Hm' as [Hne _].
    unfold moved_view.
    rewrite (moved_base_frame (store w)
               (with_movedLesson (filter (λ m0, ml_id m0 ≠ ml_id m) (movedLesson (store w)))
                  (delete_mtm (ml_id m) (store w))) m') by done.
    f_equal. by apply moved_links_after_delete.
Qed.

Lemma deleteMovedLesson_read_back_witness :
  let w := Scenario.calm Scenario.with_overrides in
  let m := Scenario.movedRow "M1" Scenario.d2025_03_10 in
  (primary_keys (store w) ∧ faults w = [] ∧ ml_id m ≠ "" ∧ m ∈ movedLesson (store w)) ∧
  ∃ w1,
    serve (deleteMovedLesson (ml_id m)) w = (Success m, w1) ∧
    ∃ views,
      serve getAllMovedLessons w1 = (Success views, w1) ∧
      views ≡ₚ filter (λ v, ml_id (v_movedLesson v) ≠ ml_id m)
                 (allMovedLessons (store w)).
Proof.
  intros w m.
  assert (primary_keys (store w)) as Hpk by by_evaluation.
  assert (ml_id m ≠ "") as Hid by discriminate.
  assert (m ∈ movedLesson (store w)) as Hm by by_evaluation.
  split; [exact (conj Hpk (conj eq_refl (conj Hid Hm)))|].
  exact (deleteMovedLesson_read_back w m Hpk eq_refl Hid Hm).
Defined.
End moved_delete.

(** * The lessons of a cohort *)

Section cohort_lessons.
Import Lesson.

(** A cohort that has no row is answered with 404, not with an empty list. *)
Theorem getLessonsForCohort_unknown_cohort (w : World) (cohortId : Id) :
  faults w = [] → cohortId ≠ "" → cohortId ∉ cohort_id <$> cohort (store w) →
  serve (getLessonsForCohort cohortId) w = (Failure NOT_FOUND "Cohort not found", w).
Proof.
  intros Hf Hid Hunknown. unfold serve, getLessonsForCohort.
  assert (truthy_string cohortId = true) as -> by (unfold truthy_string; by case_bool_decide).
  simpl negb. rewrite bind_run, throw_if_false.
  rewrite bind_run, select_no_faults by done.
  rewrite (proj2 (lookup_by_key_nil cohort_id (cohort (store w)) cohortId) Hunknown).
  done.
Qed.

Lemma getLessonsForCohort_unknown_cohort_witness :
  let w := Scenario.calm Scenario.school in
  (faults w = [] ∧ "K9" ≠ "" ∧ ("K9" ∉ cohort_id <$> cohort (store w))) ∧
  serve (getLessonsForCohort "K9") w = (Failure NOT_FOUND "Cohort not found", w).
Proof.
  intros w.
  assert ("K9" ≠ "") as Hid by discriminate.
  assert ("K9" ∉ cohort_id <$> cohort (store w)) as Hunknown by by_evaluation.
  split; [exact (conj eq_refl (conj Hid Hunknown))|].
  exact (getLessonsForCohort_unknown_cohort w "K9" eq_refl Hid Hunknown).
Defined.

Lemma elem_of_innerJoin {A B} (on : A → B → Prop) `{!∀ a b, Decision (on a b)}
    (l : list A) (t : list B) a b :
  (a, b) ∈ innerJoin on l t ↔ a ∈ l ∧ b ∈ t ∧ on a b.
Proof.
  unfold innerJoin. rewrite list_elem_of_bind. split.
  - intros (a' & Hab & Ha').
    apply list_elem_of_fmap in Hab as (b' & [= -> ->] & [Hon Hb]%list_elem_of_filter).
    done.
  - intros (Ha & Hb & Hon). exists a. split; [|done].
    apply list_elem_of_fmap. exists b. split; [done|]. by apply list_elem_of_filter.
Qed.

Lemma elem_of_lessonsOfCohort (cohortId : Id) (db : DB) (l : LessonRow) :
  l ∈ lessonsOfCohort cohortId db ↔
  l ∈ lesson db ∧
  ∃ x, x ∈ lessonCohortMTM db ∧ lc_lessonId x = lesson_id l ∧ lc_cohortId x = cohortId.
Proof.
  unfold lessonsOfCohort. rewrite list_elem_of_fmap. split.
  - intros ([l' x] & -> & [Hc Hin]%list_elem_of_filter).
    apply elem_of_innerJoin in Hin as (Hl & Hx & Hon). simpl in *.
    split; [done|]. exists x. by rewrite <- Hon.
  - intros (Hl & x & Hx & Hlx & Hc). exists (l, x). split; [done|].
    apply list_elem_of_filter. split; [done|]. apply elem_of_innerJoin.
    split; [done|]. split; [done|]. unfold on_lessonCohort. by rewrite Hlx.
Qed.

(** For a known cohort the answer holds a record for exactly the lessons a
    link row ties to the cohort: a lesson of another cohort, or of none,
    is never among them. *)
Theorem getLessonsForCohort_lists_linked_lessons (w : World) (cohortId : Id) :
  faults w = [] → cohortId ≠ "" → cohortId ∈ cohort_id <$> cohort (store w) →
  ∃ records,
    serve (getLessonsForCohort cohortId) w = (Success records, w) ∧
    ∀ id, id ∈ e_id <$> records ↔
          ∃ l x, l ∈ lesson (store w) ∧ x ∈ lessonCohortMTM (store w) ∧
                 lesson_id l = id ∧ lc_lessonId x = id ∧ lc_cohortId x = cohortId.
Proof.
  intros Hf Hid Hcohort. eexists. split; [by apply getLessonsForCohort_run|].
  intros id. rewrite <- list_fmap_compose.
  rewrite (list_fmap_ext _ lesson_id (lessonsOfCohort cohortId (store w))) by done.
  rewrite list_elem_of_fmap. split.
  - intros (l & -> & (Hl & x & Hx & Hlx & Hc)%elem_of_lessonsOfCohort).
    by exists l, x.
  - intros (l & x & Hl & Hx & <- & Hlx & Hc). exists l. split; [done|].
    apply elem_of_lessonsOfCohort. split; [done|]. by exists x.
Qed.

Lemma getLessonsForCohort_lists_linked_lessons_witness :
  let w := Scenario.calm Scenario.drifted in
  (faults w = [] ∧ "K1" ≠ "" ∧ "K1" ∈ cohort_id <$> cohort (store w)) ∧
  ∃ records,
    serve (getLessonsForCohort "K1") w = (Success records, w) ∧
    ∀ id, id ∈ e_id <$> records ↔
          ∃ l x, l ∈ lesson (store w) ∧ x ∈ lessonCohortMTM (store w) ∧
                 lesson_id l = id ∧ lc_lessonId x = id ∧ lc_cohortId x = "K1".
Proof.
  intros w.
  assert ("K1" ≠ "") as Hid by discriminate.
  assert ("K1" ∈ cohort_id <$> cohort (store w)) as Hknown by by_evaluation.
  split; [exact (conj eq_refl (conj Hid Hknown))|].
  exact (getLessonsForCohort_lists_linked_lessons w "K1" eq_refl Hid Hknown).
Defined.

(** ** The number of storage calls *)

Lemma calls_ret {A} (a : A) : calls_at_most 0 (mret a : M A).
Proof. intros w. simpl. lia. Qed.

Lemma calls_throw_if b e : calls_at_most 0 (throw_if b e).
Proof. intros w. destruct b; simpl; lia. Qed.

Lemma calls_query {A} (q : DB → A * DB) : calls_at_most 1 (query q).
Proof.
  intros w. unfold query. destruct (faults w) as [|[] fs] eqn:Hfs;
    try destruct (q (store w)); simpl; rewrite ?Hfs; simpl; lia.
Qed.

Lemma calls_select {A} (q : DB → A) : calls_at_most 1 (select q).
Proof. apply calls_query. Qed.

Lemma calls_bind {A B} n k (m : M A) (f : A → M B) :
  calls_at_most n m → (∀ a, calls_at_most k (f a)) → calls_at_most (n + k) (m ≫= f).
Proof.
  intros Hm Hf w. rewrite bind_run. specialize (Hm w).
  destruct (m w) as [[e|a] w1]; simpl in *; [lia|].
  specialize (Hf a w1). lia.
Qed.

Lemma calls_weaken {A} n k (m : M A) : (n ≤ k)%nat → calls_at_most n m → calls_at_most k m.
Proof. intros Hle Hm w. specialize (Hm w). lia. Qed.

(** The handler makes at most seven storage calls, however many lessons the
    cohort has and whatever they reference: the cohort, its lessons, and one
    lookup for each of the five kinds of referenced rows. *)
Theorem getLessonsForCohort_batches (cohortId : Id) :
  calls_at_most 7 (getLessonsForCohort cohortId).
Proof.
  unfold getLessonsForCohort.
  apply (calls_bind 0 7); [apply calls_throw_if|]. intros _.
  apply (calls_bind 1 6); [apply calls_select|]. intros existing.
  apply (calls_bind 0 6); [apply calls_throw_if|]. intros _.
  apply (calls_bind 1 5); [apply calls_select|]. intros lessons.
  destruct lessons as [|l ls]; [apply (calls_weaken 0); [lia|apply calls_ret]|].
  apply (calls_bind 1 4); [apply calls_select|]. intros subjects.
  apply (calls_bind 1 3); [apply calls_select|]. intros days.
  apply (calls_bind 1 2); [apply calls_select|]. intros periods.
  apply (calls_bind 1 1).
  { destruct (dedupe _); [apply (calls_weaken 0); [lia|apply calls_ret]|apply calls_select]. }
  intros teachers.
  apply (calls_bind 1 0).
  { destruct (dedupe _); [apply (calls_weaken 0); [lia|apply calls_ret]|apply calls_select]. }
  intros classrooms. apply calls_ret.
Qed.

(** Seven calls are made for the three lessons of the school: of a plan of
    ten entries, three are left. *)
Example seven_calls_for_three_lessons :
  faults (getLessonsForCohort "K1"
            (Scenario.world Scenario.school (replicate 10 false)
               (Scenario.at_utc Scenario.d2025_03_10 12) 0)).2
  = replicate 3 false.
Proof. vm_compute. reflexivity. Qed.
End cohort_lessons.

(** * The timetable reads, side by side *)

Section timetable_reads.
Import Timetable.

Lemma sorted_head_is_latest (l : list TimetableRow) :
  match merge_sort desc_validFrom l with
  | [] => l = []
  | r :: _ => r ∈ l ∧ ∀ t, t ∈ l → timetable_validFrom t ≤ timetable_validFrom r
  end.
Proof.
  pose proof (@StronglySorted_merge_sort _ desc_validFrom _
                desc_validFrom_transitive desc_validFrom_total l) as Hsorted.
  pose proof (merge_sort_Permutation desc_validFrom l) as Hperm.
  destruct (merge_sort desc_validFrom l) as [|r rest].
  - by apply Permutation_nil_l in Hperm.
  - apply StronglySorted_inv in Hsorted as [_ Hrest]. rewrite Forall_forall in Hrest.
    split; [rewrite <- Hperm; by left|].
    intros t Ht. rewrite <- Hperm in Ht. apply elem_of_cons in Ht as [->|Ht]; [done|].
    by apply Hrest.
Qed.

(** With a storage layer that fails no call, the three reads of one
    instant fit together: the read of all timetables returns the table; the
    read of the valid ones returns its rows that start on the server's
    local day or later, each once; and the latest valid one is a row of
    that answer that none of it starts after, the text that there is none
    being given exactly when that answer is empty. *)
Theorem timetable_reads_agree (w : World) :
  faults w = [] →
  serve getAllTimetables w = (Success (timetable (store w)), w) ∧
  ∃ valid,
    serve getAllValidTimetables w = (Success valid, w) ∧
    valid ⊆+ timetable (store w) ∧
    (∀ t, t ∈ valid ↔
          t ∈ timetable (store w) ∧
          dateToYYYYMMDD (tz_offset w) (clock w) ≤ timetable_validFrom t) ∧
    match valid with
    | [] => serve getLatestValidTimetable w
            = (Success (inl "No valid timetable found."), w)
    | _ => ∃ r, serve getLatestValidTimetable w = (Success (inr r), w) ∧
                r ∈ valid ∧
                ∀ t, t ∈ valid → timetable_validFrom t ≤ timetable_validFrom r
    end.
Proof.
  intros Hf. split.
  { unfold serve, getAllTimetables, try_catch. by rewrite select_no_faults. }
  set (today := dateToYYYYMMDD (tz_offset w) (clock w)).
  exists (allValid today (store w)). split; [|split; [|split]].
  - unfold serve, getAllValidTimetables, try_catch, newDate, timeZone.
    rewrite !bind_run. by rewrite select_no_faults.
  - up_to_order. apply sublist_filter.
  - intros t. unfold allValid. rewrite list_elem_of_filter. tauto.
  - assert (serve getLatestValidTimetable w
            = (Success match merge_sort desc_validFrom (allValid today (store w)) with
                       | [] => inl "No valid timetable found."
                       | r :: _ => inr r
                       end, w)) as ->.
    { unfold serve, getLatestValidTimetable, try_catch, newDate, timeZone.
      rewrite !bind_run. rewrite select_no_faults by done.
      unfold latestValid. fold (allValid (dateToYYYYMMDD (tz_offset w) (clock w)) (store w)).
      fold today.
      destruct (merge_sort desc_validFrom (allValid today (store w))); done. }
    pose proof (sorted_head_is_latest (allValid today (store w))) as Hhead.
    destruct (allValid today (store w)) as [|t ts] eqn:Hvalid; [done|].
    destruct (merge_sort desc_validFrom (t :: ts)) as [|r rest]; [done|].
    by exists r.
Qed.

Lemma timetable_reads_agree_witness :
  let w := Scenario.world Scenario.two_timetables []
             (Scenario.at_utc Scenario.d2025_06_01 23) 120 in
  faults w = [] ∧
  serve getAllTimetables w = (Success (timetable (store w)), w) ∧
  ∃ valid,
    serve getAllValidTimetables w = (Success valid, w) ∧
    valid ⊆+ timetable (store w) ∧
    (∀ t, t ∈ valid ↔
          t ∈ timetable (store w) ∧
          dateToYYYYMMDD (tz_offset w) (clock w) ≤ timetable_validFrom t) ∧
    match valid with
    | [] => serve getLatestValidTimetable w
            = (Success (inl "No valid timetable found."), w)
    | _ => ∃ r, serve getLatestValidTimetable w = (Success (inr r), w) ∧
                r ∈ valid ∧
                ∀ t, t ∈ valid → timetable_validFrom t ≤ timetable_validFrom r
    end.
Proof.
  intros w. split; [reflexivity|]. exact (timetable_reads_agree w eq_refl).
Defined.
End timetable_reads.

(** * Validation under any storage behaviour *)

Lemma bind_assoc_run {A B C} (m : M A) (f : A → M B) (g : B → M C) w :
  ((m ≫= f) ≫= g) w = (m ≫= λ a, f a ≫= g) w.
Proof. rewrite !bind_run. destruct (m w) as [[e|a] w1]; [done|]. by rewrite bind_run. Qed.

Section validation_sound.
Import MovedLesson.

Lemma ensure_success {R} (key : R → Id) (table : DB → list R) (s : Id) e w u w' :
  (existing ← select (λ db, filter (λ r, key r = s) (table db));
   match existing with
   | [] => throw e
   | _ => mret ()
   end) w = (inr u, w') →
  s ∈ key <$> table (store w) ∧ store w' = store w.
Proof.
  intros (existing & w1 & [-> Hw1]%select_success & H)%bind_success.
  destruct (filter (λ r, key r = s) (table (store w))) as [|r rs] eqn:Hrows; [done|].
  apply ret_success in H as [_ ->]. split; [|done].
  apply filter_nonempty_elem. by rewrite Hrows.
Qed.

Lemma reference_success (v : JSValue) (label : string) {R} (key : R → Id)
    (table : DB → list R) e w u w' :
  (normalized ← normalizeOptionalString v label;
   match normalized with
   | Some s =>
       if truthy_string s
       then (existing ← select (λ db, filter (λ r, key r = s) (table db));
             match existing with
             | [] => throw e
             | _ => mret ()
             end)
       else mret ()
   | None => mret ()
   end) w = (inr u, w') →
  reference_passes v (key <$> table (store w)) ∧ store w' = store w.
Proof.
  intros (normalized & w1 & Hnorm & H)%bind_success.
  destruct v as [| |s| |entries]; try done.
  - apply ret_success in Hnorm as [-> ->]. by apply ret_success in H as [_ ->].
  - apply ret_success in Hnorm as [-> ->]. by apply ret_success in H as [_ ->].
  - apply ret_success in Hnorm as [-> ->]. simpl. unfold truthy_string in H.
    case_bool_decide as Hs; simpl in H.
    + apply ret_success in H as [_ ->]. by split; [left|].
    + apply ensure_success in H as [? ?]. by split; [right|].
Qed.

Lemma ensureLessonsExist_success ids w u w' :
  ensureLessonsExist ids w = (inr u, w') →
  Forall (λ x, x ∈ lesson_id <$> lesson (store w)) ids ∧ store w' = store w.
Proof.
  unfold ensureLessonsExist.
  intros (found & w1 & [-> Hw1]%select_success & H)%bind_success.
  cbv zeta in H.
  match type of H with
  | context [match ?t with [] => _ | _ => _ end] => destruct t as [|y ys] eqn:Hmiss; [|done]
  end.
  apply ret_success in H as [_ ->]. split; [|done].
  apply Forall_forall. intros x Hx.
  destruct (decide (x ∈ lesson_id <$> lesson (store w))) as [|Hno]; [done|].
  exfalso. refine (filter_nil_inv _ _ Hmiss x Hx _).
  rewrite elem_of_list_to_set. intros Hin. apply Hno.
  apply list_elem_of_fmap in Hin as (l & -> & [_ Hl]%list_elem_of_filter).
  apply list_elem_of_fmap. by exists l.
Qed.

Lemma lesson_list_success v w u w' :
  (normalizedLessonIds ← normalizeOptionalStringArray v "Lesson ids";
   match normalizedLessonIds with
   | Some (x :: l) => ensureLessonsExist (x :: l)
   | _ => mret ()
   end) w = (inr u, w') →
  lesson_list_passes v (lesson_id <$> lesson (store w)).
Proof.
  intros (normalized & w1 & Hnorm & H)%bind_success.
  destruct v as [| |s| |entries]; try done. simpl in *.
  destruct (stringEntries entries) as [l|]; [|done].
  apply ret_success in Hnorm as [-> ->].
  destruct l as [|x l]; [constructor|].
  by apply ensureLessonsExist_success in H as [? _].
Qed.

(** Whatever the storage layer does, validation returns only for a body
    whose references pass. *)
Lemma validateMovedLessonReferences_sound body w u w' :
  validateMovedLessonReferences body w = (inr u, w') → references_pass (store w) body.
Proof.
  unfold validateMovedLessonReferences.
  intros H.
  rewrite <- (bind_assoc_run _ _ _) in H.
  apply bind_success in H as (u1 & w1 & H1 & H).
  apply (reference_success _ _ period_id period) in H1 as [Hp Hw1].
  rewrite <- (bind_assoc_run _ _ _) in H.
  apply bind_success in H as (u2 & w2 & H2 & H).
  apply (reference_success _ _ day_id dayDefinition) in H2 as [Hd Hw2].
  rewrite <- (bind_assoc_run _ _ _) in H.
  apply bind_success in H as (u3 & w3 & H3 & H).
  apply (reference_success _ _ classroom_id classroom) in H3 as [Hc Hw3].
  apply lesson_list_success in H.
  rewrite Hw2, Hw1 in Hc. rewrite Hw1 in Hd. rewrite Hw3, Hw2, Hw1 in H.
  done.
Qed.
End validation_sound.

(** With a storage layer that fails no call, the validation returns for
    exactly the bodies whose reference fields are absent, null, empty or
    name a row, and whose lesson-id field is absent, null or an array of ids
    of lessons; every other body ends in a thrown 400; nothing is written
    either way. *)
Theorem validateMovedLessonReferences_decides (w : World) (body : MovedLesson.Body) :
  faults w = [] →
  (references_pass (store w) body ↔
   MovedLesson.validateMovedLessonReferences body w = (inr (), w)) ∧
  (¬ references_pass (store w) body →
   rejected_with_400 (MovedLesson.validateMovedLessonReferences body w) w).
Proof.
  intros Hf. destruct (validateMovedLessonReferences_run w body Hf) as [Hok Hbad].
  split; [split; [exact Hok|]|exact Hbad].
  intros Hrun. by apply validateMovedLessonReferences_sound in Hrun.
Qed.

Lemma validateMovedLessonReferences_decides_witness :
  let w := Scenario.calm Scenario.school in
  let body := {| MovedLesson.startingPeriod := JSString "P1";
                 MovedLesson.startingDay := JSNull;
                 MovedLesson.room := JSString "R9";
                 MovedLesson.date := DateOn Scenario.d2025_03_10;
                 MovedLesson.lessonIds := JSArray [EString "L1"] |} in
  faults w = [] ∧
  (references_pass (store w) body ↔
   MovedLesson.validateMovedLessonReferences body w = (inr (), w)) ∧
  (¬ references_pass (store w) body →
   rejected_with_400 (MovedLesson.validateMovedLessonReferences body w) w).
Proof.
  intros w body. split; [reflexivity|].
  exact (validateMovedLessonReferences_decides w body eq_refl).
Defined.

(** * What an update changes *)

Lemma fmap_cancel {A B} (f : A → B) (g : B → A) (l : list A) :
  (∀ a, g (f a) = a) → g <$> (f <$> l) = l.
Proof.
  intros Hgf. induction l as [|a l IH]; [done|]. rewrite !fmap_cons. by rewrite Hgf, IH.
Qed.

Section moved_update_frame.
Import MovedLesson.

(** What a successful moved-lesson update returns, and what let it pass. *)
Lemma updateMovedLesson_data id body w data w' :
  serve (updateMovedLesson id body) w = (Success data, w') →
  references_pass (store w) body ∧
  ∃ m ms, filter (λ m, ml_id m = id) (movedLesson (store w)) = m :: ms ∧
          data = apply_set (set_clause body) m.
Proof.
  intros H%serve_success. unfold updateMovedLesson, internal in H.
  apply try_catch_success in H.
  apply bind_success in H as (u1 & w1 & [_ ->]%throw_if_success & H).
  apply bind_success in H as (u2 & w2 & Hval & H).
  pose proof (validateMovedLessonReferences_sound _ _ _ _ Hval) as Hpass.
  apply (keeps_result _ _ _ _ (validateMovedLessonReferences_keeps body)) in Hval.
  split; [done|].
  apply bind_success in H as (updated & w3 & Hupd & H).
  assert (updated = (update_movedLesson (set_clause body) id (store w)).1) as ->.
  { rewrite <- Hval. destruct (date body); [|done|];
      (destruct (no_values _); [done|]); by apply query_success in Hupd as [-> _]. }
  cbn [fst update_movedLesson] in H.
  destruct (filter (λ m, ml_id m = id) (movedLesson (store w))) as [|m ms]; [done|].
  exists m, ms. split; [done|]. rewrite fmap_cons in H.
  by apply bind_success in H as (u4 & w4 & _ & [= <- _]).
Qed.

Lemma moved_links_replace_other id l db id' :
  id' ≠ id → moved_links (moved_replace_links id l db) id' = moved_links db id'.
Proof.
  intros Hne. unfold moved_replace_links.
  rewrite moved_links_appended, moved_links_of_new, decide_False by done.
  rewrite app_nil_r. by apply moved_links_after_delete.
Qed.

Lemma moved_views_of_others db db' (g : MovedLessonRow → MovedLessonRow) id
    (ms : list MovedLessonRow) :
  (∀ m, ml_id (g m) = ml_id m) →
  (∀ m, ml_id m ≠ id → g m = m ∧ moved_view db' m = moved_view db m) →
  filter (λ v, ml_id (v_movedLesson v) ≠ id) (moved_view db' <$> (g <$> ms))
  = filter (λ v, ml_id (v_movedLesson v) ≠ id) (moved_view db <$> ms).
Proof.
  intros Hkey Hother. induction ms as [|m ms IH]; [done|]. rewrite !fmap_cons.
  destruct (decide (ml_id m = id)) as [Heq|Hne].
  - rewrite !filter_cons_False; [done| |]; simpl; rewrite ?Hkey; tauto.
  - destruct (Hother m Hne) as [-> ->].
    rewrite !filter_cons_True by done. by rewrite IH.
Qed.

Lemma set_entry_after v ids old :
  reference_passes v ids → field_after v ids old (default old (set_entry v)).
Proof. destruct v; simpl; tauto. Qed.

(** A successful update of the moved lesson [id], under any storage
    behaviour: the references of its body pass; the row answered is the row
    of [id] with the date and the reference fields the body names replaced
    ([null] clearing a reference) and the others kept; a read of all moved
    lessons shows that row for [id], and for every other moved lesson what
    it showed before. *)
Theorem updateMovedLesson_changes_what_is_named
    (w : World) (id : Id) (body : Body) (data : MovedLessonRow) (w1 : World) :
  primary_keys (store w) →
  serve (updateMovedLesson id body) w = (Success data, w1) →
  references_pass (store w) body ∧
  (∃ m, m ∈ movedLesson (store w) ∧ ml_id m = id ∧ ml_id data = id ∧
        ml_date data = match date body with DateOn d => d | _ => ml_date m end ∧
        field_after (startingPeriod body) (period_id <$> period (store w))
          (ml_startingPeriod m) (ml_startingPeriod data) ∧
        field_after (startingDay body) (day_id <$> dayDefinition (store w))
          (ml_startingDay m) (ml_startingDay data) ∧
        field_after (room body) (classroom_id <$> classroom (store w))
          (ml_room m) (ml_room data)) ∧
  v_movedLesson <$> filter (λ v, ml_id (v_movedLesson v) = id) (allMovedLessons (store w1))
    = [data] ∧
  filter (λ v, ml_id (v_movedLesson v) ≠ id) (allMovedLessons (store w1))
    ≡ₚ filter (λ v, ml_id (v_movedLesson v) ≠ id) (allMovedLessons (store w)).
Proof.
  intros Hpk Hrun.
  destruct (updateMovedLesson_data _ _ _ _ _ Hrun) as (Hpass & m & ms & Hrows & ->).
  destruct (updateMovedLesson_success _ _ _ _ _ Hrun) as [_ Hstore]. cbv zeta in Hstore.
  assert (m ∈ movedLesson (store w) ∧ ml_id m = id) as [Hm Hid].
  { assert (m ∈ filter (λ m, ml_id m = id) (movedLesson (store w))) as Hin
      by (rewrite Hrows; by left).
    apply list_elem_of_filter in Hin. tauto. }
  assert (NoDup (ml_id <$> movedLesson (store w))) as Hnd
    by by destruct Hpk as (_ & _ & _ & _ & _ & _ & ? & _).
  assert (filter (λ m, ml_id m = id) (movedLesson (store w)) = [m]) as Hone.
  { rewrite <- Hid. by apply filter_key_singleton. }
  split; [done|]. split.
  { exists m. destruct Hpass as (Hp & Hd & Hr & _).
    split; [done|]. split; [done|]. split; [done|]. split.
    { simpl. by destruct (date body). }
    split; [|split]; by apply set_entry_after. }
  set (s := set_clause body) in *.
  set (g := λ m0 : MovedLessonRow, if decide (ml_id m0 = id) then apply_set s m0 else m0).
  assert (primary_keys (store w1) ∧ movedLesson (store w1) = g <$> movedLesson (store w) ∧
          ∀ m', ml_id m' ≠ id → moved_view (store w1) m' = moved_view (store w) m')
    as (Hpk1 & Hrows1 & Hview).
  { pose proof (update_movedLesson_keys s id _ Hpk) as Hpk'.
    rewrite Hstore. destruct (array_entries (lessonIds body)) as [l|].
    - split; [by apply moved_replace_links_keys|]. split; [done|].
      intros m' Hne. unfold moved_view.
      rewrite (moved_base_frame (store w)
                 (moved_replace_links id l (update_movedLesson s id (store w)).2) m') by done.
      by rewrite moved_links_replace_other.
    - split; [done|]. split; [done|]. intros m' Hne. unfold moved_view.
      by rewrite (moved_base_frame (store w) (update_movedLesson s id (store w)).2 m'). }
  rewrite (allMovedLessons_views _ Hpk1), (allMovedLessons_views _ Hpk), Hrows1.
  split.
  - rewrite filter_fmap_commute, fmap_cancel by done.
    rewrite filter_fmap_commute.
    rewrite (filter_ext_in _ (λ m0, ml_id m0 = id)).
    + rewrite Hone. simpl. unfold g. by rewrite decide_True.
    + intros m0 _. unfold g. simpl. by destruct (decide (ml_id m0 = id)).
  - up_to_order. apply moved_views_of_others.
    + intros m0. unfold g. by destruct (decide (ml_id m0 = id)).
    + intros m0 Hne. unfold g. rewrite decide_False by done. split; [done|by apply Hview].
Qed.
End moved_update_frame.

Lemma updateMovedLesson_changes_what_is_named_witness :
  let w := Scenario.calm Scenario.with_overrides in
  let body := {| MovedLesson.startingPeriod := JSString "P1";
                 MovedLesson.startingDay := JSNull;
                 MovedLesson.room := JSUndefined;
                 MovedLesson.date := NoDate;
                 MovedLesson.lessonIds := JSUndefined |} in
  let data := {| ml_id := "M1"; ml_date := Scenario.d2025_03_10;
                 ml_startingPeriod := Some "P1"; ml_startingDay := None;
                 ml_room := None |} in
  let w1 := (serve (MovedLesson.updateMovedLesson "M1" body) w).2 in
  (primary_keys (store w) ∧
   serve (MovedLesson.updateMovedLesson "M1" body) w = (Success data, w1)) ∧
  references_pass (store w) body ∧
  (∃ m, m ∈ movedLesson (store w) ∧ ml_id m = "M1" ∧ ml_id data = "M1" ∧
        ml_date data = match MovedLesson.date body with
                       | DateOn d => d
                       | _ => ml_date m
                       end ∧
        field_after (MovedLesson.startingPeriod body) (period_id <$> period (store w))
          (ml_startingPeriod m) (ml_startingPeriod data) ∧
        field_after (MovedLesson.startingDay body) (day_id <$> dayDefinition (store w))
          (ml_startingDay m) (ml_startingDay data) ∧
        field_after (MovedLesson.room body) (classroom_id <$> classroom (store w))
          (ml_room m) (ml_room data)) ∧
  MovedLesson.v_movedLesson <$>
    filter (λ v, ml_id (MovedLesson.v_movedLesson v) = "M1")
      (MovedLesson.allMovedLessons (store w1))
    = [data] ∧
  filter (λ v, ml_id (MovedLesson.v_movedLesson v) ≠ "M1")
    (MovedLesson.allMovedLessons (store w1))
    ≡ₚ filter (λ v, ml_id (MovedLesson.v_movedLesson v) ≠ "M1")
         (MovedLesson.allMovedLessons (store w)).
Proof.
  intros w body data w1.
  assert (primary_keys (store w)) as Hpk by by_evaluation.
  assert (serve (MovedLesson.updateMovedLesson "M1" body) w = (Success data, w1)) as Hrun
    by (vm_compute; reflexivity).
  split; [exact (conj Hpk Hrun)|].
  exact (updateMovedLesson_changes_what_is_named w "M1" body data w1 Hpk Hrun).
Defined.

Section substitution_update_frame.
Import Substitution.

(** What a successful substitution update returns. *)
Lemma updateSubstitution_data id body w data w' :
  serve (updateSubstitution id body) w = (Success data, w') →
  data = head (apply_set (set_clause body)
                 <$> filter (λ r, sub_id r = id) (substitution (store w))).
Proof.
  intros H%serve_success. unfold updateSubstitution, internal in H.
  apply try_catch_success in H.
  apply bind_success in H as (u1 & w1 & [_ ->]%throw_if_success & H).
  apply bind_success in H as (existing & w2 & [-> Hw2]%select_success & H).
  apply bind_success in H as (u3 & w3 & [Hex ->]%throw_if_success & H).
  apply bind_success in H as (u4 & w4 & Hdate & H).
  assert (store w4 = store w) as Hw4.
  { rewrite <- Hw2. eapply keeps_result; [|exact Hdate]. keeps. }
  apply bind_success in H as (u5 & w5 & Hcount & H).
  assert (store w5 = store w) as Hw5.
  { rewrite <- Hw4. eapply keeps_result; [|exact Hcount]. keeps. }
  apply transaction_success in H.
  apply bind_success in H as (updated & w6 & Hupd & H).
  assert (updated = (update_substitution (set_clause body) id (store w)).1) as ->.
  { rewrite <- Hw5. destruct (date body); [|done|];
      (destruct (no_values _); [done|]); by apply query_success in Hupd as [-> _]. }
  by apply bind_success in H as (u7 & w7 & _ & [-> _]%ret_success).
Qed.

Lemma substitution_links_replace_other id l db id' :
  id' ≠ id →
  substitution_links (substitution_replace_links id l db) id' = substitution_links db id'.
Proof.
  intros Hne. unfold substitution_replace_links.
  rewrite substitution_links_appended, substitution_links_of_new, decide_False by done.
  rewrite app_nil_r. by apply substitution_links_after_delete.
Qed.

Lemma substitution_views_of_others db db' (g : SubstitutionRow → SubstitutionRow) id
    (ss : list SubstitutionRow) :
  (∀ s, sub_id (g s) = sub_id s) →
  (∀ s, sub_id s ≠ id → g s = s ∧ substitution_view db' s = substitution_view db s) →
  filter (λ v, sub_id (v_substitution v) ≠ id) (substitution_view db' <$> (g <$> ss))
  = filter (λ v, sub_id (v_substitution v) ≠ id) (substitution_view db <$> ss).
Proof.
  intros Hkey Hother. induction ss as [|s ss IH]; [done|]. rewrite !fmap_cons.
  destruct (decide (sub_id s = id)) as [Heq|Hne].
  - rewrite !filter_cons_False; [done| |]; simpl; rewrite ?Hkey; tauto.
  - destruct (Hother s Hne) as [-> ->].
    rewrite !filter_cons_True by done. by rewrite IH.
Qed.

(** A successful update of the substitution [id], under any storage
    behaviour: the row answered is the row of [id] with the date and the
    substituter the body names replaced and the others kept; a read of all
    substitutions shows that row for [id], and for every other substitution
    what it showed before. *)
Theorem updateSubstitution_changes_what_is_named
    (w : World) (id : Id) (body : Body) (data : option SubstitutionRow) (w1 : World) :
  primary_keys (store w) →
  serve (updateSubstitution id body) w = (Success data, w1) →
  (∃ r, r ∈ substitution (store w) ∧ sub_id r = id ∧
        data = Some {| sub_id := id;
                       sub_date := match date body with
                                   | DateOn d => d
                                   | _ => sub_date r
                                   end;
                       sub_substituter := match substituter body with
                                          | Some t => Some t
                                          | None => sub_substituter r
                                          end |}) ∧
  Some <$> (v_substitution <$>
              filter (λ v, sub_id (v_substitution v) = id) (allSubstitutions (store w1)))
    = [data] ∧
  filter (λ v, sub_id (v_substitution v) ≠ id) (allSubstitutions (store w1))
    ≡ₚ filter (λ v, sub_id (v_substitution v) ≠ id) (allSubstitutions (store w)).
Proof.
  intros Hpk Hrun.
  pose proof (updateSubstitution_data _ _ _ _ _ Hrun) as Hdata.
  destruct (updateSubstitution_success _ _ _ _ _ Hrun) as [Hex Hstore]. cbv zeta in Hstore.
  apply list_elem_of_fmap in Hex as (r & Hid & Hr). symmetry in Hid.
  assert (NoDup (sub_id <$> substitution (store w))) as Hnd
    by by destruct Hpk as (_ & _ & _ & _ & _ & _ & _ & ?).
  assert (filter (λ r, sub_id r = id) (substitution (store w)) = [r]) as Hone.
  { rewrite <- Hid. by apply filter_key_singleton. }
  rewrite Hone in Hdata. simpl in Hdata.
  set (s := set_clause body) in *.
  assert (apply_set s r
          = {| sub_id := id;
               sub_date := match date body with DateOn d => d | _ => sub_date r end;
               sub_substituter := match substituter body with
                                  | Some t => Some t
                                  | None => sub_substituter r
                                  end |}) as Hrow.
  { unfold apply_set, s, set_clause. simpl. rewrite Hid. by destruct (date body). }
  split; [exists r; by rewrite <- Hrow|].
  set (g := λ r0 : SubstitutionRow, if decide (sub_id r0 = id) then apply_set s r0 else r0).
  assert (primary_keys (store w1) ∧ substitution (store w1) = g <$> substitution (store w) ∧
          ∀ s', sub_id s' ≠ id →
                substitution_view (store w1) s' = substitution_view (store w) s')
    as (Hpk1 & Hrows1 & Hview).
  { pose proof (update_substitution_keys s id _ Hpk) as Hpk'.
    rewrite Hstore. destruct (lessonIds body) as [l|].
    - split; [by apply substitution_replace_links_keys|]. split; [done|].
      intros s' Hne. unfold substitution_view.
      rewrite (substitution_base_frame (store w)
                 (substitution_replace_links id l (update_substitution s id (store w)).2) s')
        by done.
      by rewrite substitution_links_replace_other.
    - split; [done|]. split; [done|]. intros s' Hne. unfold substitution_view.
      by rewrite (substitution_base_frame (store w)
                    (update_substitution s id (store w)).2 s'). }
  rewrite (allSubstitutions_views _ Hpk1), (allSubstitutions_views _ Hpk), Hrows1.
  split.
  - rewrite filter_fmap_commute, fmap_cancel by done.
    rewrite filter_fmap_commute.
    rewrite (filter_ext_in _ (λ r0, sub_id r0 = id)).
    + rewrite Hone, Hdata. simpl. unfold g. by rewrite decide_True.
    + intros r0 _. unfold g. simpl. by destruct (decide (sub_id r0 = id)).
  - up_to_order. apply substitution_views_of_others.
    + intros r0. unfold g. by destruct (decide (sub_id r0 = id)).
    + intros r0 Hne. unfold g. rewrite decide_False by done. split; [done|by apply Hview].
Qed.
End substitution_update_frame.

Lemma updateSubstitution_changes_what_is_named_witness :
  let w := Scenario.calm Scenario.with_yesterday_and_today in
  let body := Scenario.substitutionBody NoDate None (Some "T1") in
  let data := Some {| sub_id := "S0"; sub_date := Scenario.d2025_03_09;
                      sub_substituter := Some "T1" |} in
  let w1 := (serve (Substitution.updateSubstitution "S0" body) w).2 in
  (primary_keys (store w) ∧
   serve (Substitution.updateSubstitution "S0" body) w = (Success data, w1)) ∧
  (∃ r, r ∈ substitution (store w) ∧ sub_id r = "S0" ∧
        data = Some {| sub_id := "S0";
                       sub_date := match Substitution.date body with
                                   | DateOn d => d
                                   | _ => sub_date r
                                   end;
                       sub_substituter := match Substitution.substituter body with
                                          | Some t => Some t
                                          | None => sub_substituter r
                                          end |}) ∧
  Some <$> (Substitution.v_substitution <$>
              filter (λ v, sub_id (Substitution.v_substitution v) = "S0")
                (Substitution.allSubstitutions (store w1)))
    = [data] ∧
  filter (λ v, sub_id (Substitution.v_substitution v) ≠ "S0")
    (Substitution.allSubstitutions (store w1))
    ≡ₚ filter (λ v, sub_id (Substitution.v_substitution v) ≠ "S0")
         (Substitution.allSubstitutions (store w)).
Proof.
  intros w body data w1.
  assert (primary_keys (store w)) as Hpk by by_evaluation.
  assert (serve (Substitution.updateSubstitution "S0" body) w = (Success data, w1)) as Hrun
    by (vm_compute; reflexivity).
  split; [exact (conj Hpk Hrun)|].
  exact (updateSubstitution_changes_what_is_named w "S0" body data w1 Hpk Hrun).
Defined.

(** * The unfiltered reads *)

Lemma head_filter_resolved {R} (key : R → Id) (table : list R) (ref : option Id) :
  resolved_as key table ref (head (filter (λ r, ref = Some (key r)) table)).
Proof.
  destruct (filter (λ r, ref = Some (key r)) table) as [|r rs] eqn:Hrows; simpl.
  - intros r Hr. exact (filter_nil_inv _ _ Hrows r Hr).
  - assert (r ∈ filter (λ r, ref = Some (key r)) table) as Hin by (rewrite Hrows; by left).
    by apply list_elem_of_filter in Hin as [? ?].
Qed.

(** Under the primary keys, the reads of all moved lessons and of all
    substitutions show every override row exactly once, whatever its
    references: each reference is resolved to its row or shown as null when
    no row carries it, and [lessons] holds the lesson ids of the override's
    link rows. *)
Theorem unfiltered_reads_list_every_override (db : DB) :
  primary_keys db →
  (MovedLesson.v_movedLesson <$> MovedLesson.allMovedLessons db ≡ₚ movedLesson db ∧
   Forall (λ v,
             let m := MovedLesson.v_movedLesson v in
             resolved_as period_id (period db) (ml_startingPeriod m) (MovedLesson.v_period v) ∧
             resolved_as day_id (dayDefinition db) (ml_startingDay m)
               (MovedLesson.v_dayDefinition v) ∧
             resolved_as classroom_id (classroom db) (ml_room m) (MovedLesson.v_classroom v) ∧
             MovedLesson.v_lessons v = moved_links db (ml_id m))
     (MovedLesson.allMovedLessons db)) ∧
  (Substitution.v_substitution <$> Substitution.allSubstitutions db ≡ₚ substitution db ∧
   Forall (λ v,
             let s := Substitution.v_substitution v in
             resolved_as teacher_id (teacher db) (sub_substituter s)
               (Substitution.v_teacher v) ∧
             Substitution.v_lessons v = substitution_links db (sub_id s))
     (Substitution.allSubstitutions db)).
Proof.
  intros Hpk. rewrite (allMovedLessons_views db Hpk), (allSubstitutions_views db Hpk).
  split; (split; [up_to_order; by apply fmap_cancel|]); apply Forall_fmap, Forall_forall.
  - intros m _. cbv zeta. simpl. split; [|split; [|split]]; [| | |done].
    + exact (head_filter_resolved period_id (period db) (ml_startingPeriod m)).
    + exact (head_filter_resolved day_id (dayDefinition db) (ml_startingDay m)).
    + exact (head_filter_resolved classroom_id (classroom db) (ml_room m)).
  - intros s _. cbv zeta. simpl. split; [|done].
    exact (head_filter_resolved teacher_id (teacher db) (sub_substituter s)).
Qed.

Lemma unfiltered_reads_list_every_override_witness :
  let db := Scenario.with_overrides in
  primary_keys db ∧
  (MovedLesson.v_movedLesson <$> MovedLesson.allMovedLessons db ≡ₚ movedLesson db ∧
   Forall (λ v,
             let m := MovedLesson.v_movedLesson v in
             resolved_as period_id (period db) (ml_startingPeriod m) (MovedLesson.v_period v) ∧
             resolved_as day_id (dayDefinition db) (ml_startingDay m)
               (MovedLesson.v_dayDefinition v) ∧
             resolved_as classroom_id (classroom db) (ml_room m) (MovedLesson.v_classroom v) ∧
             MovedLesson.v_lessons v = moved_links db (ml_id m))
     (MovedLesson.allMovedLessons db)) ∧
  (Substitution.v_substitution <$> Substitution.allSubstitutions db ≡ₚ substitution db ∧
   Forall (λ v,
             let s := Substitution.v_substitution v in
             resolved_as teacher_id (teacher db) (sub_substituter s)
               (Substitution.v_teacher v) ∧
             Substitution.v_lessons v = substitution_links db (sub_id s))
     (Substitution.allSubstitutions db)).
Proof.
  intros db.
  assert (primary_keys db) as Hpk by by_evaluation.
  split; [exact Hpk|]. exact (unfiltered_reads_list_every_override db Hpk).
Defined.

(** * The cohort reads of moved lessons *)

Lemma NoDup_fmap_inj_elem {A} (key : A → Id) (l : list A) a b :
  NoDup (key <$> l) → a ∈ l → b ∈ l → key a = key b → a = b.
Proof.
  induction l as [|c l IH]; [by intros _ ?%elem_of_nil|].
  rewrite fmap_cons, NoDup_cons. intros [Hc Hnd] Ha Hb Hkey.
  apply elem_of_cons in Ha as [->|Ha]; apply elem_of_cons in Hb as [->|Hb].
  - done.
  - exfalso. apply Hc. rewrite Hkey. apply list_elem_of_fmap. by exists b.
  - exfalso. apply Hc. rewrite <- Hkey. apply list_elem_of_fmap. by exists a.
  - by apply IH.
Qed.

Section join_membership.
Context {A B : Type} (on : A → B → Prop) `{!∀ a b, Decision (on a b)}.

Lemma elem_of_leftJoin (l : list A) (t : list B) a ob :
  (a, ob) ∈ leftJoin on l t ↔
  a ∈ l ∧ match ob with
          | Some b => b ∈ t ∧ on a b
          | None => ∀ b, b ∈ t → ¬ on a b
          end.
Proof.
  unfold leftJoin. rewrite list_elem_of_bind. split.
  - intros (a' & Hin & Ha'). destruct (filter (on a') t) as [|b0 bs] eqn:Hrows.
    + apply list_elem_of_singleton in Hin as [= -> ->]. split; [done|].
      exact (filter_nil_inv _ _ Hrows).
    + rewrite <- Hrows in Hin.
      apply list_elem_of_fmap in Hin as (b' & [= -> ->] & [? ?]%list_elem_of_filter).
      done.
  - intros [Ha Hob]. exists a. split; [|done]. destruct ob as [b|].
    + destruct Hob as [Hb Hon].
      assert (b ∈ filter (on a) t) as Hin by by apply list_elem_of_filter.
      destruct (filter (on a) t) as [|b0 bs]; [by apply elem_of_nil in Hin|].
      apply list_elem_of_fmap. by exists b.
    + rewrite filter_none; [by left|]. by apply Forall_forall.
Qed.

Lemma leftJoin_total (l : list A) (t : list B) a :
  a ∈ l → ∃ ob, (a, ob) ∈ leftJoin on l t.
Proof.
  intros Ha. destruct (filter (on a) t) as [|b bs] eqn:Hrows.
  - exists None. apply elem_of_leftJoin. split; [done|]. exact (filter_nil_inv _ _ Hrows).
  - exists (Some b). apply elem_of_leftJoin. split; [done|].
    assert (b ∈ filter (on a) t) as Hin by (rewrite Hrows; by left).
    by apply list_elem_of_filter in Hin as [? ?].
Qed.
End join_membership.

Lemma elem_of_groupBy `{EqDecision K} {R} (key : R → K) (rows : list R) k rs :
  (k, rs) ∈ groupBy key rows ↔ k ∈ key <$> rows ∧ rs = filter (λ r, key r = k) rows.
Proof.
  unfold groupBy. rewrite list_elem_of_fmap. split.
  - intros (k' & [= -> ->] & Hk). split; [|done]. exact (proj1 (elem_of_dedupe _ _) Hk).
  - intros [Hk ->]. exists k. split; [done|]. by apply elem_of_dedupe.
Qed.

Section moved_cohort_reads.
Import MovedLesson.

(** The rows of the five-table join carry a moved lesson of the table, and
    a link row of it when they carry a link row. *)
Lemma elem_of_from_joined db (j : Joined) :
  j ∈ from_joined db →
  j_movedLesson j ∈ movedLesson db ∧
  ∀ x, j_mtm j = Some x →
       x ∈ movedLessonLessonMTM db ∧ mlm_movedLessonId x = ml_id (j_movedLesson j).
Proof.
  destruct j as [[[[m op] od] oc] ox]. unfold from_joined.
  intros (Hc & Hx)%elem_of_leftJoin.
  apply elem_of_leftJoin in Hc as (Hd & _).
  apply elem_of_leftJoin in Hd as (Hp & _).
  apply elem_of_leftJoin in Hp as (Hm & _).
  split; [done|]. intros x [= ->]. destruct Hx as [Hx Hon]. by split.
Qed.

Lemma from_joined_total db m x :
  m ∈ movedLesson db → x ∈ movedLessonLessonMTM db → mlm_movedLessonId x = ml_id m →
  ∃ j, j ∈ from_joined db ∧ j_movedLesson j = m ∧ j_mtm j = Some x.
Proof.
  intros Hm Hx Hid.
  destruct (leftJoin_total on_period (movedLesson db) (period db) m Hm) as [op Hp].
  destruct (leftJoin_total on_day _ (dayDefinition db) _ Hp) as [od Hd].
  destruct (leftJoin_total on_room _ (classroom db) _ Hd) as [oc Hc].
  exists (m, op, od, oc, Some x). split; [|done].
  apply elem_of_leftJoin. split; [done|]. split; [done|]. by unfold on_mtm.
Qed.

(** A row of the cohort join that is of the cohort carries a link of its
    moved lesson to a lesson of the cohort. *)
Lemma of_cohort_link db cohortId (r : CohortJoined) :
  r ∈ from_cohort_joined db → of_cohort cohortId r →
  j_movedLesson r.1.1 ∈ movedLesson db ∧
  ∃ l, mlm_lessonId <$> j_mtm r.1.1 = Some l ∧
       moved_link_in_cohort db cohortId (j_movedLesson r.1.1) l.
Proof.
  destruct r as [[j ol] oy]. unfold from_cohort_joined, of_cohort. simpl.
  intros (Hl & Hy)%elem_of_leftJoin Hc.
  apply elem_of_leftJoin in Hl as (Hj & Hl).
  apply elem_of_from_joined in Hj as [Hm Hx].
  split; [done|].
  destruct oy as [y|]; [|done]. destruct Hy as [Hy Hony]. unfold on_lessonCohort in Hony.
  simpl in Hony, Hc. injection Hc as Hc.
  destruct ol as [lr|]; [|done]. destruct Hl as [Hlr Honl]. unfold on_lesson in Honl.
  simpl in Hony. injection Hony as Hony.
  destruct (j_mtm j) as [x|] eqn:Hjx; [|done]. simpl in Honl. injection Honl as Honl.
  destruct (Hx x eq_refl) as [Hxin Hxid].
  exists (mlm_lessonId x). split; [done|]. split; [|split].
  - by exists x.
  - rewrite Honl. apply list_elem_of_fmap. by exists lr.
  - exists y. by rewrite Honl, Hony.
Qed.

Lemma cohort_join_total db cohortId m l :
  m ∈ movedLesson db → moved_link_in_cohort db cohortId m l →
  ∃ r : CohortJoined,
    r ∈ from_cohort_joined db ∧ of_cohort cohortId r ∧ j_movedLesson r.1.1 = m ∧
    mlm_lessonId <$> j_mtm r.1.1 = Some l.
Proof.
  intros Hm ((x & Hx & Hxid & Hxl) & Hl & (y & Hy & Hyl & Hyc)).
  apply list_elem_of_fmap in Hl as (lr & Hlr & Hlin).
  destruct (from_joined_total db m x Hm Hx Hxid) as (j & Hj & Hjm & Hjx).
  exists (j, Some lr, Some y). split; [|split; [|split]].
  - apply elem_of_leftJoin. split.
    + apply elem_of_leftJoin. split; [done|]. split; [done|].
      unfold on_lesson. rewrite Hjx. simpl. by rewrite Hxl, Hlr.
    + split; [done|]. unfold on_lessonCohort. simpl. by rewrite Hyl, Hlr.
  - unfold of_cohort. simpl. by rewrite Hyc.
  - done.
  - simpl. rewrite Hjx. simpl. by rewrite Hxl.
Qed.

(** The views of a cohort read whose [where] clause asks for the cohort and
    for [Q] of the moved lesson. *)
Lemma cohort_views (P : CohortJoined → Prop) `{!∀ r, Decision (P r)}
    (Q : MovedLessonRow → Prop) db cohortId :
  primary_keys db →
  (∀ r, P r ↔ of_cohort cohortId r ∧ Q (j_movedLesson r.1.1)) →
  let views := omap select_cohort_group
                 (groupBy (λ r : CohortJoined, group_key r.1.1)
                    (filter P (from_cohort_joined db))) in
  (∀ m l, (∃ v, v ∈ views ∧ v_movedLesson v = m ∧ l ∈ v_lessons v) ↔
          m ∈ movedLesson db ∧ Q m ∧ moved_link_in_cohort db cohortId m l) ∧
  (∀ v, v ∈ views → v_lessons v ≠ []).
Proof.
  intros Hpk HP views.
  assert (NoDup (ml_id <$> movedLesson db)) as Hnd
    by by destruct Hpk as (_ & _ & _ & _ & _ & _ & ? & _).
  set (rows := filter P (from_cohort_joined db)) in *.
  assert (∀ v, v ∈ views →
            ∃ k r0 rest,
              filter (λ r : CohortJoined, group_key r.1.1 = k) rows = r0 :: rest ∧
              v_movedLesson v = j_movedLesson r0.1.1 ∧
              v_lessons v
              = dedupe (omap (λ j, mlm_lessonId <$> j_mtm j)
                          ((λ r : CohortJoined, r.1.1) <$> (r0 :: rest)))) as Hshape.
  { intros v ([k grp] & Hg & Hsel)%list_elem_of_omap.
    apply elem_of_groupBy in Hg as [_ ->].
    unfold select_cohort_group, select_group in Hsel. simpl in Hsel.
    destruct (filter (λ r : CohortJoined, group_key r.1.1 = k) rows) as [|r0 rest] eqn:Hgrp;
      [done|].
    rewrite fmap_cons in Hsel. injection Hsel as <-. by exists k, r0, rest. }
  assert (∀ k r, r ∈ filter (λ r : CohortJoined, group_key r.1.1 = k) rows →
            group_key r.1.1 = k ∧ r ∈ from_cohort_joined db ∧ of_cohort cohortId r ∧
            Q (j_movedLesson r.1.1)) as Hrow.
  { intros k r [Hk [HPr Hin]%list_elem_of_filter]%list_elem_of_filter.
    apply HP in HPr as [? ?]. done. }
  split; [intros m l; split|].
  - intros (v & Hv & <- & Hl).
    destruct (Hshape v Hv) as (k & r0 & rest & Hgrp & Hm & Hls).
    assert (r0 ∈ filter (λ r : CohortJoined, group_key r.1.1 = k) rows) as Hr0
      by (rewrite Hgrp; by left).
    apply Hrow in Hr0 as (Hk0 & Hin0 & Hc0 & HQ0).
    destruct (of_cohort_link db cohortId r0 Hin0 Hc0) as [Hm0 _].
    rewrite Hm. split; [done|]. split; [done|].
    rewrite Hls in Hl. apply (proj1 (elem_of_dedupe _ _)), list_elem_of_omap in Hl
      as (j & Hj & Hjl).
    apply list_elem_of_fmap in Hj as (r & -> & Hr). rewrite <- Hgrp in Hr.
    apply Hrow in Hr as (Hk & Hin & Hc & _).
    destruct (of_cohort_link db cohortId r Hin Hc) as [_ (l' & Hl' & Hlink)].
    rewrite Hjl in Hl'. injection Hl' as <-.
    assert (ml_id (j_movedLesson r.1.1) = ml_id (j_movedLesson r0.1.1)) as Hid.
    { rewrite <- Hk0 in Hk. unfold group_key in Hk. congruence. }
    unfold moved_link_in_cohort in *. by rewrite <- Hid.
  - intros (Hm & HQ & Hlink).
    destruct (cohort_join_total db cohortId m l Hm Hlink) as (r & Hin & Hc & Hrm & Hrl).
    assert (r ∈ rows) as Hr.
    { apply list_elem_of_filter. split; [|done]. apply HP. by rewrite Hrm. }
    set (k := group_key r.1.1).
    assert (r ∈ filter (λ r : CohortJoined, group_key r.1.1 = k) rows) as Hgr
      by by apply list_elem_of_filter.
    destruct (filter (λ r : CohortJoined, group_key r.1.1 = k) rows) as [|r0 rest] eqn:Hgrp;
      [by apply elem_of_nil in Hgr|].
    assert (r0 ∈ filter (λ r : CohortJoined, group_key r.1.1 = k) rows) as Hr0
      by (rewrite Hgrp; by left).
    apply Hrow in Hr0 as (Hk0 & Hin0 & Hc0 & _).
    destruct (of_cohort_link db cohortId r0 Hin0 Hc0) as [Hm0 _].
    assert (j_movedLesson r0.1.1 = m) as Hsame.
    { apply (NoDup_fmap_inj_elem ml_id (movedLesson db)); [done..|].
      unfold k, group_key in Hk0. rewrite <- Hrm. congruence. }
    exists {| v_classroom := j_classroom r0.1.1;
              v_dayDefinition := j_dayDefinition r0.1.1;
              v_lessons := dedupe (omap (λ j, mlm_lessonId <$> j_mtm j)
                                     ((λ r : CohortJoined, r.1.1) <$> (r0 :: rest)));
              v_movedLesson := j_movedLesson r0.1.1;
              v_period := j_period r0.1.1 |}.
    split; [|split].
    + apply list_elem_of_omap. exists (k, r0 :: rest). split.
      * apply elem_of_groupBy. split; [|by rewrite Hgrp].
        apply list_elem_of_fmap. by exists r.
      * reflexivity.
    + done.
    + cbn [v_lessons].
      apply (proj2 (elem_of_dedupe _ _)), list_elem_of_omap. exists r.1.1. split; [|done].
      apply (list_elem_of_fmap_2 (λ r : CohortJoined, r.1.1)) in Hgr. done.
  - intros v Hv. destruct (Hshape v Hv) as (k & r0 & rest & Hgrp & Hm & Hls).
    assert (r0 ∈ filter (λ r : CohortJoined, group_key r.1.1 = k) rows) as Hr0
      by (rewrite Hgrp; by left).
    apply Hrow in Hr0 as (_ & Hin0 & Hc0 & _).
    destruct (of_cohort_link db cohortId r0 Hin0 Hc0) as [_ (l & Hl & _)].
    rewrite Hls, fmap_cons. cbn [omap list_omap]. rewrite Hl.
    simpl. done.
Qed.
End moved_cohort_reads.

Section moved_cohort_handlers.
Import MovedLesson.

(** With a storage layer that fails no call and under the primary keys,
    the two cohort reads of moved lessons show a moved lesson with a lesson
    id exactly when a link row ties the moved lesson to that lesson and the
    lesson is a lesson of the cohort (for the relevant read: and the moved
    lesson is dated on or after the day the handler computes); so a moved
    lesson without a lesson of the cohort is not shown, and [lessons] is
    never empty and holds lessons of the cohort only. *)
Theorem moved_cohort_reads_show_the_cohorts_links (w : World) (cohortId : Id) :
  primary_keys (store w) → faults w = [] → cohortId ≠ "" →
  ∃ views relevant,
    serve (getMovedLessonsForCohort cohortId) w = (Success views, w) ∧
    serve (getRelevantMovedLessonsForCohort cohortId) w = (Success relevant, w) ∧
    (∀ m l, (∃ v, v ∈ views ∧ v_movedLesson v = m ∧ l ∈ v_lessons v) ↔
            m ∈ movedLesson (store w) ∧ moved_link_in_cohort (store w) cohortId m l) ∧
    (∀ m l, (∃ v, v ∈ relevant ∧ v_movedLesson v = m ∧ l ∈ v_lessons v) ↔
            m ∈ movedLesson (store w) ∧
            toISODate (setHours0 (tz_offset w) (clock w)) ≤ ml_date m ∧
            moved_link_in_cohort (store w) cohortId m l) ∧
    (∀ v, v ∈ views ∨ v ∈ relevant → v_lessons v ≠ []).
Proof.
  intros Hpk Hf Hid.
  assert (truthy_string cohortId = true) as Htruthy
    by (unfold truthy_string; by case_bool_decide).
  set (today := toISODate (setHours0 (tz_offset w) (clock w))).
  exists (movedLessonsForCohort cohortId (store w)),
         (relevantMovedLessonsForCohort cohortId today (store w)).
  split; [|split].
  { unfold serve, getMovedLessonsForCohort, try_catch. rewrite Htruthy. simpl negb.
    rewrite bind_run, throw_if_false. by rewrite select_no_faults. }
  { unfold serve, getRelevantMovedLessonsForCohort, try_catch, todayStr, newDate, timeZone.
    rewrite Htruthy. simpl negb.
    rewrite bind_run, throw_if_false. rewrite !bind_run. rewrite ret_run.
    by rewrite select_no_faults. }
  destruct (cohort_views (of_cohort cohortId) (λ _, True) (store w) cohortId Hpk)
    as [Hall Hall_ne]; [tauto|].
  destruct (cohort_views
              (λ r : CohortJoined,
                 of_cohort cohortId r ∧ today ≤ ml_date (j_movedLesson r.1.1))
              (λ m, today ≤ ml_date m) (store w) cohortId Hpk)
    as [Hrel Hrel_ne]; [tauto|].
  split; [|split].
  - intros m l. rewrite (Hall m l). tauto.
  - exact Hrel.
  - intros v [Hv|Hv]; [by apply Hall_ne|by apply Hrel_ne].
Qed.

Lemma moved_cohort_reads_show_the_cohorts_links_witness :
  let w := Scenario.calm Scenario.with_overrides in
  (primary_keys (store w) ∧ faults w = [] ∧ "K1" ≠ "") ∧
  ∃ views relevant,
    serve (getMovedLessonsForCohort "K1") w = (Success views, w) ∧
    serve (getRelevantMovedLessonsForCohort "K1") w = (Success relevant, w) ∧
    (∀ m l, (∃ v, v ∈ views ∧ v_movedLesson v = m ∧ l ∈ v_lessons v) ↔
            m ∈ movedLesson (store w) ∧ moved_link_in_cohort (store w) "K1" m l) ∧
    (∀ m l, (∃ v, v ∈ relevant ∧ v_movedLesson v = m ∧ l ∈ v_lessons v) ↔
            m ∈ movedLesson (store w) ∧
            toISODate (setHours0 (tz_offset w) (clock w)) ≤ ml_date m ∧
            moved_link_in_cohort (store w) "K1" m l) ∧
    (∀ v, v ∈ views ∨ v ∈ relevant → v_lessons v ≠ []).
Proof.
  intros w.
  assert (primary_keys (store w)) as Hpk by by_evaluation.
  assert ("K1" ≠ "") as Hid by discriminate.
  split; [exact (conj Hpk (conj eq_refl Hid))|].
  exact (moved_cohort_reads_show_the_cohorts_links w "K1" Hpk eq_refl Hid).
Defined.
End moved_cohort_handlers.

(** * The cohort read of substitutions *)

Section substitution_cohort_read.
Import Substitution.

Lemma elem_of_substitution_joined db (j : Joined) :
  j ∈ from_joined db →
  j_substitution j ∈ substitution db ∧
  ∀ x, j_mtm j = Some x →
       x ∈ substitutionLessonMTM db ∧ slm_substitutionId x = sub_id (j_substitution j).
Proof.
  destruct j as [[s ot] ox]. unfold from_joined.
  intros (Ht & Hx)%elem_of_leftJoin.
  apply elem_of_leftJoin in Ht as (Hs & _).
  split; [done|]. intros x [= ->]. destruct Hx as [Hx Hon]. by split.
Qed.

Lemma substitution_joined_total db s x :
  s ∈ substitution db → x ∈ substitutionLessonMTM db → slm_substitutionId x = sub_id s →
  ∃ j, j ∈ from_joined db ∧ j_substitution j = s ∧ j_mtm j = Some x.
Proof.
  intros Hs Hx Hid.
  destruct (leftJoin_total on_teacher (substitution db) (teacher db) s Hs) as [ot Ht].
  exists (s, ot, Some x). split; [|done].
  apply elem_of_leftJoin. split; [done|]. split; [done|]. by unfold on_mtm.
Qed.

Lemma relevant_of_cohort_link db today cohortId (r : CohortJoined) :
  r ∈ from_cohort_joined db → relevant_of_cohort today cohortId r →
  j_substitution r.1.1.1 ∈ substitution db ∧
  today ≤ sub_date (j_substitution r.1.1.1) ∧
  ∃ l, slm_lessonId <$> j_mtm r.1.1.1 = Some l ∧
       substitution_link_in_cohort db cohortId (j_substitution r.1.1.1) l.
Proof.
  destruct r as [[[j ol] oy] oc]. unfold from_cohort_joined, relevant_of_cohort. simpl.
  intros (Hy & Hc)%elem_of_leftJoin [Hdate Hcid].
  apply elem_of_leftJoin in Hy as (Hl & Hy).
  apply elem_of_leftJoin in Hl as (Hj & Hl).
  apply elem_of_substitution_joined in Hj as [Hs Hx].
  split; [done|]. split; [done|].
  destruct oc as [c|]; [|done]. destruct Hc as [Hc Honc]. unfold on_cohort in Honc.
  simpl in Honc, Hcid. injection Hcid as Hcid.
  destruct oy as [y|]; [|done]. destruct Hy as [Hy Hony]. unfold on_lessonCohort in Hony.
  simpl in Hony, Honc. injection Honc as Honc.
  destruct ol as [lr|]; [|done]. destruct Hl as [Hlr Honl]. unfold on_lesson in Honl.
  simpl in Hony. injection Hony as Hony.
  destruct (j_mtm j) as [x|] eqn:Hjx; [|done]. simpl in Honl. injection Honl as Honl.
  destruct (Hx x eq_refl) as [Hxin Hxid].
  exists (slm_lessonId x). split; [done|]. split; [|split; [|split]].
  - by exists x.
  - rewrite Honl. apply list_elem_of_fmap. by exists lr.
  - exists y. rewrite Honl, Hony, Honc, Hcid. done.
  - rewrite <- Hcid. apply list_elem_of_fmap. by exists c.
Qed.

Lemma substitution_cohort_join_total db today cohortId s l :
  s ∈ substitution db → today ≤ sub_date s →
  substitution_link_in_cohort db cohortId s l →
  ∃ r : CohortJoined,
    r ∈ from_cohort_joined db ∧ relevant_of_cohort today cohortId r ∧
    j_substitution r.1.1.1 = s ∧ slm_lessonId <$> j_mtm r.1.1.1 = Some l.
Proof.
  intros Hs Hdate ((x & Hx & Hxid & Hxl) & Hl & (y & Hy & Hyl & Hyc) & Hc).
  apply list_elem_of_fmap in Hl as (lr & Hlr & Hlin).
  apply list_elem_of_fmap in Hc as (c & Hcid & Hcin).
  destruct (substitution_joined_total db s x Hs Hx Hxid) as (j & Hj & Hjs & Hjx).
  exists (j, Some lr, Some y, Some c). split; [|split; [|split]].
  - apply elem_of_leftJoin. split.
    + apply elem_of_leftJoin. split.
      * apply elem_of_leftJoin. split; [done|]. split; [done|].
        unfold on_lesson. rewrite Hjx. simpl. by rewrite Hxl, Hlr.
      * split; [done|]. unfold on_lessonCohort. simpl. by rewrite Hyl, Hlr.
    + split; [done|]. unfold on_cohort. simpl. by rewrite Hyc, Hcid.
  - unfold relevant_of_cohort. simpl. rewrite Hjs. split; [done|]. by rewrite Hcid.
  - done.
  - simpl. rewrite Hjx. simpl. by rewrite Hxl.
Qed.

(** With a storage layer that fails no call and under the primary keys,
    the cohort read of substitutions shows a substitution with a lesson id
    exactly when the substitution is dated on or after the UTC day of the
    clock, a link row ties it to that lesson, the lesson is a lesson of the
    cohort and the cohort has a row; [lessons] is never empty. *)
Theorem substitution_cohort_read_shows_the_cohorts_links (w : World) (cohortId : Id) :
  primary_keys (store w) → faults w = [] → cohortId ≠ "" →
  ∃ views,
    serve (getRelevantSubstitutionsForCohort cohortId) w = (Success (cohortId, views), w) ∧
    (∀ s l, (∃ v, v ∈ views ∧ v_substitution v = s ∧ l ∈ v_lessons v) ↔
            s ∈ substitution (store w) ∧ toISODate (clock w) ≤ sub_date s ∧
            substitution_link_in_cohort (store w) cohortId s l) ∧
    (∀ v, v ∈ views → v_lessons v ≠ []).
Proof.
  intros Hpk Hf Hid.
  assert (truthy_string cohortId = true) as Htruthy
    by (unfold truthy_string; by case_bool_decide).
  set (day := toISODate (clock w)).
  exists (relevantSubstitutionsForCohort day cohortId (store w)).
  split.
  { unfold serve, getRelevantSubstitutionsForCohort, try_catch, today, newDate.
    rewrite Htruthy. simpl negb.
    rewrite bind_run, throw_if_false. rewrite !bind_run. rewrite ret_run.
    rewrite bind_run. by rewrite select_no_faults. }
  assert (NoDup (sub_id <$> substitution (store w))) as Hnd
    by by destruct Hpk as (_ & _ & _ & _ & _ & _ & _ & ?).
  unfold relevantSubstitutionsForCohort.
  set (rows := filter (relevant_of_cohort day cohortId) (from_cohort_joined (store w))).
  assert (∀ v, v ∈ omap (λ g : GroupKey * list CohortJoined,
                           select_group (g.1, (λ r : CohortJoined, r.1.1.1) <$> g.2))
                     (groupBy (λ r : CohortJoined, group_key r.1.1.1) rows) →
            ∃ k r0 rest,
              filter (λ r : CohortJoined, group_key r.1.1.1 = k) rows = r0 :: rest ∧
              v_substitution v = j_substitution r0.1.1.1 ∧
              v_lessons v
              = omap (λ j, slm_lessonId <$> j_mtm j)
                  ((λ r : CohortJoined, r.1.1.1) <$> (r0 :: rest))) as Hshape.
  { intros v ([k grp] & Hg & Hsel)%list_elem_of_omap.
    apply elem_of_groupBy in Hg as [_ ->].
    unfold select_group in Hsel. simpl in Hsel.
    destruct (filter (λ r : CohortJoined, group_key r.1.1.1 = k) rows) as [|r0 rest] eqn:Hgrp;
      [done|].
    rewrite fmap_cons in Hsel. injection Hsel as <-. by exists k, r0, rest. }
  assert (∀ k r, r ∈ filter (λ r : CohortJoined, group_key r.1.1.1 = k) rows →
            group_key r.1.1.1 = k ∧ r ∈ from_cohort_joined (store w) ∧
            relevant_of_cohort day cohortId r) as Hrow.
  { intros k r [Hk [HPr Hin]%list_elem_of_filter]%list_elem_of_filter. done. }
  split; [intros s l; split|].
  - intros (v & Hv & <- & Hl).
    destruct (Hshape v Hv) as (k & r0 & rest & Hgrp & Hs & Hls).
    assert (r0 ∈ filter (λ r : CohortJoined, group_key r.1.1.1 = k) rows) as Hr0
      by (rewrite Hgrp; by left).
    apply Hrow in Hr0 as (Hk0 & Hin0 & Hc0).
    destruct (relevant_of_cohort_link _ _ _ r0 Hin0 Hc0) as (Hs0 & Hdate0 & _).
    rewrite Hs. split; [done|]. split; [done|].
    rewrite Hls in Hl. apply list_elem_of_omap in Hl as (j & Hj & Hjl).
    apply list_elem_of_fmap in Hj as (r & -> & Hr). rewrite <- Hgrp in Hr.
    apply Hrow in Hr as (Hk & Hin & Hc).
    destruct (relevant_of_cohort_link _ _ _ r Hin Hc) as (_ & _ & l' & Hl' & Hlink).
    rewrite Hjl in Hl'. injection Hl' as <-.
    assert (sub_id (j_substitution r.1.1.1) = sub_id (j_substitution r0.1.1.1)) as Hsame.
    { rewrite <- Hk0 in Hk. unfold group_key in Hk. congruence. }
    unfold substitution_link_in_cohort in *. by rewrite <- Hsame.
  - intros (Hs & Hdate & Hlink).
    destruct (substitution_cohort_join_total _ day cohortId s l Hs Hdate Hlink)
      as (r & Hin & Hc & Hrs & Hrl).
    assert (r ∈ rows) as Hr by by apply list_elem_of_filter.
    set (k := group_key r.1.1.1).
    assert (r ∈ filter (λ r : CohortJoined, group_key r.1.1.1 = k) rows) as Hgr
      by by apply list_elem_of_filter.
    destruct (filter (λ r : CohortJoined, group_key r.1.1.1 = k) rows) as [|r0 rest] eqn:Hgrp;
      [by apply elem_of_nil in Hgr|].
    assert (r0 ∈ filter (λ r : CohortJoined, group_key r.1.1.1 = k) rows) as Hr0
      by (rewrite Hgrp; by left).
    apply Hrow in Hr0 as (Hk0 & Hin0 & Hc0).
    destruct (relevant_of_cohort_link _ _ _ r0 Hin0 Hc0) as (Hs0 & _ & _).
    assert (j_substitution r0.1.1.1 = s) as Hsame.
    { apply (NoDup_fmap_inj_elem sub_id (substitution (store w))); [done..|].
      unfold k, group_key in Hk0. rewrite <- Hrs. congruence. }
    exists {| v_lessons := omap (λ j, slm_lessonId <$> j_mtm j)
                             ((λ r : CohortJoined, r.1.1.1) <$> (r0 :: rest));
              v_substitution := j_substitution r0.1.1.1;
              v_teacher := j_teacher r0.1.1.1 |}.
    split; [|split].
    + apply list_elem_of_omap. exists (k, r0 :: rest). split.
      * apply elem_of_groupBy. split; [|by rewrite Hgrp].
        apply list_elem_of_fmap. by exists r.
      * reflexivity.
    + done.
    + cbn [v_lessons]. apply list_elem_of_omap. exists r.1.1.1. split; [|done].
      apply (list_elem_of_fmap_2 (λ r : CohortJoined, r.1.1.1)) in Hgr. done.
  - intros v Hv. destruct (Hshape v Hv) as (k & r0 & rest & Hgrp & Hs & Hls).
    assert (r0 ∈ filter (λ r : CohortJoined, group_key r.1.1.1 = k) rows) as Hr0
      by (rewrite Hgrp; by left).
    apply Hrow in Hr0 as (_ & Hin0 & Hc0).
    destruct (relevant_of_cohort_link _ _ _ r0 Hin0 Hc0) as (_ & _ & l & Hl & _).
    rewrite Hls, fmap_cons. cbn [omap list_omap]. by rewrite Hl.
Qed.

Lemma substitution_cohort_read_shows_the_cohorts_links_witness :
  let w := Scenario.calm Scenario.with_overrides in
  (primary_keys (store w) ∧ faults w = [] ∧ "K1" ≠ "") ∧
  ∃ views,
    serve (getRelevantSubstitutionsForCohort "K1") w = (Success ("K1", views), w) ∧
    (∀ s l, (∃ v, v ∈ views ∧ v_substitution v = s ∧ l ∈ v_lessons v) ↔
            s ∈ substitution (store w) ∧ toISODate (clock w) ≤ sub_date s ∧
            substitution_link_in_cohort (store w) "K1" s l) ∧
    (∀ v, v ∈ views → v_lessons v ≠ []).
Proof.
  intros w.
  assert (primary_keys (store w)) as Hpk by by_evaluation.
  assert ("K1" ≠ "") as Hid by discriminate.
  split; [exact (conj Hpk (conj eq_refl Hid))|].
  exact (substitution_cohort_read_shows_the_cohorts_links w "K1" Hpk eq_refl Hid).
Defined.
End substitution_cohort_read.

(** * A successful update, read back *)

Section update_read_back.
Import Scenario.

(** Under the primary keys and whatever the storage layer does: if an
    update of the moved lesson (of the substitution) [id] succeeds and its
    body carries the lesson list [l], the read of all moved lessons (all
    substitutions) that follows shows exactly one entry for [id], and its
    [lessons] are exactly [l]; if it succeeds and its body has no lesson
    list, the read shows for [id] what it showed before. *)
Theorem successful_update_replaces_lesson_links
    (w : World) (id : Id) (mbody : MovedLesson.Body) (sbody : Substitution.Body) :
  primary_keys (store w) →
  (∀ data w1 views w2,
     serve (MovedLesson.updateMovedLesson id mbody) w = (Success data, w1) →
     serve MovedLesson.getAllMovedLessons w1 = (Success views, w2) →
     moved_lessons_shown views id =
       match MovedLesson.array_entries (MovedLesson.lessonIds mbody) with
       | Some l => [l]
       | None => moved_lessons_shown (MovedLesson.allMovedLessons (store w)) id
       end)
  ∧
  (∀ data w1 views w2,
     serve (Substitution.updateSubstitution id sbody) w = (Success data, w1) →
     serve Substitution.getAllSubstitutions w1 = (Success views, w2) →
     substitution_lessons_shown views id =
       match Substitution.lessonIds sbody with
       | Some l => [l]
       | None => substitution_lessons_shown (Substitution.allSubstitutions (store w)) id
       end).
Proof.
  intros Hpk. split.
  - intros data w1 views w2. by apply updateMovedLesson_read_back.
  - intros data w1 views w2. by apply updateSubstitution_read_back.
Qed.

Lemma successful_update_replaces_lesson_links_witness :
  primary_keys (store (calm with_overrides)) ∧
  (∃ views,
     (serve MovedLesson.getAllMovedLessons
        (serve (MovedLesson.updateMovedLesson "M1" replace_moved) (calm with_overrides)).2).1
     = Success views ∧ moved_lessons_shown views "M1" = [["L3"]]) ∧
  (∃ views,
     (serve Substitution.getAllSubstitutions
        (serve (Substitution.updateSubstitution "S1" replace_substitution)
           (calm with_overrides)).2).1
     = Success views ∧ substitution_lessons_shown views "S1" = [["L3"]]) ∧
  (∃ views,
     (serve MovedLesson.getAllMovedLessons
        (serve (MovedLesson.updateMovedLesson "M1" keep_moved) (calm with_overrides)).2).1
     = Success views ∧ moved_lessons_shown views "M1" = [["L1"; "L2"]]) ∧
  (∃ views,
     (serve Substitution.getAllSubstitutions
        (serve (Substitution.updateSubstitution "S1" keep_substitution)
           (calm with_overrides)).2).1
     = Success views ∧ substitution_lessons_shown views "S1" = [["L1"; "L2"]]).
Proof.
  assert (primary_keys (store (calm with_overrides))) as Hpk
    by (apply (bool_decide_unpack _); vm_compute; exact I).
  destruct (successful_update_replaces_lesson_links (calm with_overrides) "M1"
              replace_moved replace_substitution Hpk) as [Hm _].
  destruct (successful_update_replaces_lesson_links (calm with_overrides) "S1"
              replace_moved replace_substitution Hpk) as [_ Hs].
  destruct (successful_update_replaces_lesson_links (calm with_overrides) "M1"
              keep_moved keep_substitution Hpk) as [Hm' _].
  destruct (successful_update_replaces_lesson_links (calm with_overrides) "S1"
              keep_moved keep_substitution Hpk) as [_ Hs'].
  split; [exact Hpk|].
  split; [|split; [|split]]; eexists; (split; [vm_compute; reflexivity|]).
  - eapply Hm; vm_compute; reflexivity.
  - eapply Hs; vm_compute; reflexivity.
  - etrans; [eapply Hm'; vm_compute; reflexivity|]. vm_compute. reflexivity.
  - etrans; [eapply Hs'; vm_compute; reflexivity|]. vm_compute. reflexivity.
Defined.
End update_read_back.
